(** * Client-side encryption utilities (utils/encryption.js)

    A shallow embedding of the message cipher orchestrator
    ([initializeEncryption], [encryptMessage]) and of the file cipher
    ([encryptFile], [decryptFile]).

    The orchestrator is a set of callbacks run by a single event loop.  It
    is modelled as a transition function [step] on a record holding the
    module's globals ([signalManager], [pendingMessages]), the socket's
    listener table, the armed timers, the suspended [async] functions and
    the promises handed to callers.  Every [await] is a suspension point:
    the function is parked as a [continuation] and resumed by a later
    event carrying what the awaited promise settled with.  The Signal
    session engine, the socket and the clock are the environment: their
    answers arrive as events, and what the module asked of them is logged
    in the state.

    Conventions of the model:
    - message contents are values that [JSON.stringify] turns into a
      string; [JSON.parse] may fail;
    - what the engine throws is an [Error] object with a string [message];
    - an incoming frame carries the payload of its kind (bundle response,
      pushed bundle, encrypted message);
    - a promise is a handle into a table of promise states, and the
      promise an [async] function returns is identified with the promise
      it adopts;
    - the file cipher reads the file's bytes without failure, and takes
      AES-GCM and the random source from the platform. *)

From stdpp Require Import base strings pretty gmap list.
From Stdlib Require Import NArith.

Local Open Scope N_scope.

(** ** JavaScript values the module handles *)

(** An [Error] object; only [error.message] is ever read. *)
Record Error := mkError { message : string }.

(** [hay.includes(needle)] on strings. *)
Fixpoint includes (hay needle : string) : bool :=
  String.prefix needle hay ||
  match hay with
  | EmptyString => false
  | String _ hay' => includes hay' needle
  end.

(** State of a promise.  [resolve] and [reject] only act on a pending
    promise; later calls are ignored (ECMAScript promise semantics). *)
Inductive promise (A : Type) :=
  | Pending
  | Resolved (value : A)
  | Rejected (reason : Error).
Arguments Pending {A}.
Arguments Resolved {A} value.
Arguments Rejected {A} reason.

Section Orchestrator.

(** Message contents (objects), pre-key bundles, ciphertext objects and
    public key bundles are opaque to this module. *)
Variables Content Bundle Cipher PublicKeys : Type.

(** [JSON.stringify] and [JSON.parse]; a [SyntaxError] is [None]. *)
Variable JSON_stringify : Content → string.
Variable JSON_parse : string → option Content.

(** The object stored in [pendingMessages] (lines 93-98).  [resolve] and
    [reject] are the two settling functions of a promise, kept as the
    handle of that promise. *)
Record PendingMessage := mkPending {
  pm_recipientId : string;
  pm_content : Content;
  pm_resolve : nat;
  pm_reject : nat
}.

(** Frames the module emits on the socket. *)
Inductive frame :=
  | RegisterPublicKeys (publicKeys : PublicKeys)
  | RequestPreKeyBundle (userId : string) (requestId : option string)
  | MessageDecrypted (messageId : string).

(** Payloads of the frames the module listens to. *)
Inductive payload :=
  | BundleResponse (bundle : Bundle)
  | NewPreKeyBundle (userId : string) (bundle : Bundle)
  | EncryptedMessage (senderId channelId : string)
      (encryptedMessage : Cipher) (messageId : string).

(** The [detail] of the ['message-decrypted'] CustomEvent (lines 34-41). *)
Record DecryptEvent := mkDecryptEvent {
  de_messageId : string;
  de_senderId : string;
  de_channelId : string;
  de_content : Content
}.

(** Calls made on [signalManager]. *)
Inductive engine_call :=
  | InitializeIdentity
  | GetPublicKeys
  | ProcessPreKeyBundle (userId : string) (bundle : Bundle)
  | EngineEncrypt (recipientId contentString : string)
  | EngineDecrypt (senderId : string) (encryptedMessage : Cipher).

(** The three callbacks registered on the socket. *)
Inductive handler :=
  | OnNewPreKeyBundle                                  (* lines 23-25 *)
  | OnEncryptedMessage                                 (* lines 27-51 *)
  | OnPreKeyBundle (recipientId requestId : string).   (* lines 104-127 *)

Record listener := mkListener {
  l_event : string;
  l_once : bool;
  l_handler : handler
}.

(** A [setTimeout] callback of lines 130-136, with the time it is due. *)
Record timer := mkTimer {
  t_due : N;
  t_requestId : string
}.

(** An [async] function parked at an [await]. *)
Inductive continuation :=
  | KInitIdentity                      (* line 16 *)
  | KInitKeys                          (* line 19 *)
  | KInitRegister                      (* line 20, waiting for the ack *)
  | KNewBundle                         (* line 24 *)
  | KDecrypt (senderId channelId messageId : string)   (* line 31 *)
  | KEncrypt (recipientId : string) (content : Content) (p : nat)  (* line 84 *)
  | KBundleProcessed (recipientId requestId : string)  (* line 107 *)
  | KRetryEncrypt (recipientId requestId : string)
      (pendingMessage : PendingMessage).               (* line 114 *)

(** What an awaited promise settled with. *)
Inductive awaited :=
  | Returned
  | ReturnedKeys (publicKeys : PublicKeys)
  | ReturnedCipher (encryptedMessage : Cipher)
  | ReturnedText (decryptedContent : string)
  | Acknowledged (success : bool) (error : string)
  | Threw (error : Error).

Record state := mkState {
  signalManager : option string;
  pendingMessages : gmap string PendingMessage;
  listeners : list listener;
  timers : gmap nat timer;
  suspended : gmap nat continuation;
  promises : gmap nat (promise Cipher);
  emitted : list frame;
  dispatched : list DecryptEvent;
  engine_calls : list engine_call;
  clock : N;
  next_handle : nat
}.

Definition initial (t0 : N) : state :=
  mkState None ∅ [] ∅ ∅ ∅ [] [] [] t0 0.

(** *** Primitive effects *)

Definition set_signalManager (m : option string) (s : state) : state :=
  mkState m (pendingMessages s) (listeners s) (timers s) (suspended s)
    (promises s) (emitted s) (dispatched s) (engine_calls s) (clock s)
    (next_handle s).

Definition set_pendingMessages (f : gmap string PendingMessage → gmap string PendingMessage)
    (s : state) : state :=
  mkState (signalManager s) (f (pendingMessages s)) (listeners s) (timers s)
    (suspended s) (promises s) (emitted s) (dispatched s) (engine_calls s)
    (clock s) (next_handle s).

Definition set_listeners (f : list listener → list listener) (s : state) : state :=
  mkState (signalManager s) (pendingMessages s) (f (listeners s)) (timers s)
    (suspended s) (promises s) (emitted s) (dispatched s) (engine_calls s)
    (clock s) (next_handle s).

Definition set_timers (f : gmap nat timer → gmap nat timer) (s : state) : state :=
  mkState (signalManager s) (pendingMessages s) (listeners s) (f (timers s))
    (suspended s) (promises s) (emitted s) (dispatched s) (engine_calls s)
    (clock s) (next_handle s).

Definition set_suspended (f : gmap nat continuation → gmap nat continuation) (s : state) : state :=
  mkState (signalManager s) (pendingMessages s) (listeners s) (timers s)
    (f (suspended s)) (promises s) (emitted s) (dispatched s) (engine_calls s)
    (clock s) (next_handle s).

Definition set_promises (f : gmap nat (promise Cipher) → gmap nat (promise Cipher))
    (s : state) : state :=
  mkState (signalManager s) (pendingMessages s) (listeners s) (timers s)
    (suspended s) (f (promises s)) (emitted s) (dispatched s) (engine_calls s)
    (clock s) (next_handle s).

Definition fresh (s : state) : state :=
  mkState (signalManager s) (pendingMessages s) (listeners s) (timers s)
    (suspended s) (promises s) (emitted s) (dispatched s) (engine_calls s)
    (clock s) (S (next_handle s)).

(** [socket.emit(...)] *)
Definition emit (f : frame) (s : state) : state :=
  mkState (signalManager s) (pendingMessages s) (listeners s) (timers s)
    (suspended s) (promises s) (emitted s ++ [f]) (dispatched s)
    (engine_calls s) (clock s) (next_handle s).

(** [window.dispatchEvent(new CustomEvent('message-decrypted', ...))] *)
Definition dispatchEvent (e : DecryptEvent) (s : state) : state :=
  mkState (signalManager s) (pendingMessages s) (listeners s) (timers s)
    (suspended s) (promises s) (emitted s) (dispatched s ++ [e])
    (engine_calls s) (clock s) (next_handle s).

(** A method call on [signalManager]. *)
Definition invoke (c : engine_call) (s : state) : state :=
  mkState (signalManager s) (pendingMessages s) (listeners s) (timers s)
    (suspended s) (promises s) (emitted s) (dispatched s)
    (engine_calls s ++ [c]) (clock s) (next_handle s).

(** The clock moves forward by [ms] milliseconds. *)
Definition advance (ms : N) (s : state) : state :=
  mkState (signalManager s) (pendingMessages s) (listeners s) (timers s)
    (suspended s) (promises s) (emitted s) (dispatched s) (engine_calls s)
    (clock s + ms) (next_handle s).

(** [await]: park the rest of the function under a fresh handle. *)
Definition suspend (k : continuation) (s : state) : state :=
  fresh (set_suspended (insert (next_handle s) k) s).

(** The promise an [async] call returns, pending. *)
Definition new_promise (s : state) : nat * state :=
  (next_handle s, fresh (set_promises (insert (next_handle s) Pending) s)).

(** [resolve(v)] or [reject(e)] on promise [p]: first settlement wins. *)
Definition settle_in (p : nat) (o : promise Cipher)
    (ps : gmap nat (promise Cipher)) : gmap nat (promise Cipher) :=
  match ps !! p with
  | Some Pending => <[p:=o]> ps
  | _ => ps
  end.

Definition settle (p : nat) (o : promise Cipher) (s : state) : state :=
  set_promises (settle_in p o) s.

(** [socket.on] and [socket.once] *)
Definition socket_on (name : string) (h : handler) (s : state) : state :=
  set_listeners (λ ls, ls ++ [mkListener name false h]) s.

Definition socket_once (name : string) (h : handler) (s : state) : state :=
  set_listeners (λ ls, ls ++ [mkListener name true h]) s.

(** [setTimeout(callback, delay)] for the callback of lines 130-136. *)
Definition setTimeout (requestId : string) (delay : N) (s : state) : state :=
  fresh (set_timers (insert (next_handle s) (mkTimer (clock s + delay) requestId)) s).

(** *** encryptMessage, lines 77-142 *)

(** Line 90: the template literal with [Date.now()]. *)
Definition make_requestId (recipientId : string) (now : N) : string :=
  recipientId +:+ "-" +:+ pretty now.

Definition bundle_event (requestId : string) : string :=
  "pre-key-bundle-" +:+ requestId.

Definition timeout_error : Error := mkError "Timeout requesting pre-key bundle".
Definition not_initialized : Error := mkError "Encryption not initialized".

(** Line 88: the test that selects the bundle exchange. *)
Definition no_session (error : Error) : bool :=
  includes (message error) "No session".

(** The executor of the promise built at line 89.  The promise returned
    by the [async] function adopts it, so both are the one handle [p]. *)
Definition enqueue (recipientId : string) (content : Content) (p : nat)
    (s : state) : state :=
  let requestId := make_requestId recipientId (clock s) in
  let s := set_pendingMessages
             (insert requestId (mkPending recipientId content p p)) s in
  let s := emit (RequestPreKeyBundle recipientId (Some requestId)) s in
  let s := socket_once (bundle_event requestId)
             (OnPreKeyBundle recipientId requestId) s in
  setTimeout requestId 10000 s.

(** Lines 121-125 and 131-135: reject whatever entry the registry holds
    under [requestId], then delete it. *)
Definition reject_pending (requestId : string) (error : Error) (s : state) : state :=
  match pendingMessages s !! requestId with
  | Some pendingMessage =>
      set_pendingMessages (delete requestId)
        (settle (pm_reject pendingMessage) (Rejected error) s)
  | None => s
  end.

(** Lines 78-84, up to the first [await]. *)
Definition encryptMessage (recipientId : string) (content : Content)
    (s : state) : state :=
  let '(p, s) := new_promise s in
  match signalManager s with
  | None => settle p (Rejected not_initialized) s
  | Some _ =>
      suspend (KEncrypt recipientId content p)
        (invoke (EngineEncrypt recipientId (JSON_stringify content)) s)
  end.

(** *** initializeEncryption, lines 14-52 *)

(** Lines 59-69: the keys are emitted and the function waits for the
    server's acknowledgement. *)
Definition registerPublicKeys (publicKeys : PublicKeys) (s : state) : state :=
  suspend KInitRegister (emit (RegisterPublicKeys publicKeys) s).

(** Lines 15-16.  The [Promise<void>] it returns is not tracked. *)
Definition initializeEncryption (userId : string) (s : state) : state :=
  suspend KInitIdentity
    (invoke InitializeIdentity (set_signalManager (Some userId) s)).

(** A socket callback, up to its first [await].  A payload that does not
    have the shape of its frame is outside the transport contract. *)
Definition handle (h : handler) (d : payload) (s : state) : option state :=
  match h, d with
  | OnNewPreKeyBundle, NewPreKeyBundle userId bundle =>
      Some (suspend KNewBundle (invoke (ProcessPreKeyBundle userId bundle) s))
  | OnEncryptedMessage, EncryptedMessage senderId channelId encryptedMessage messageId =>
      Some (suspend (KDecrypt senderId channelId messageId)
              (invoke (EngineDecrypt senderId encryptedMessage) s))
  | OnPreKeyBundle recipientId requestId, BundleResponse bundle =>
      Some (suspend (KBundleProcessed recipientId requestId)
              (invoke (ProcessPreKeyBundle recipientId bundle) s))
  | _, _ => None
  end.

(** The rest of an [async] function after its [await] settled. *)
Definition resume (k : continuation) (r : awaited) (s : state) : option state :=
  match k, r with
  | KInitIdentity, Returned =>
      Some (suspend KInitKeys (invoke GetPublicKeys s))
  | KInitKeys, ReturnedKeys publicKeys =>
      Some (registerPublicKeys publicKeys s)
  | KInitRegister, Acknowledged true _ =>
      Some (socket_on "encrypted-message" OnEncryptedMessage
              (socket_on "new-pre-key-bundle" OnNewPreKeyBundle s))
  | KInitRegister, Acknowledged false _ => Some s
  | KInitIdentity, Threw _ | KInitKeys, Threw _ => Some s
  | KNewBundle, Returned | KNewBundle, Threw _ => Some s
  | KDecrypt senderId channelId messageId, ReturnedText decryptedContent =>
      match JSON_parse decryptedContent with
      | Some content =>
          Some (emit (MessageDecrypted messageId)
                  (dispatchEvent
                     (mkDecryptEvent messageId senderId channelId content) s))
      | None => Some (emit (RequestPreKeyBundle senderId None) s)
      end
  | KDecrypt senderId _ _, Threw _ =>
      Some (emit (RequestPreKeyBundle senderId None) s)
  | KEncrypt _ _ p, ReturnedCipher encryptedMessage =>
      Some (settle p (Resolved encryptedMessage) s)
  | KEncrypt recipientId content p, Threw error =>
      if no_session error
      then Some (enqueue recipientId content p s)
      else Some (settle p (Rejected error) s)
  | KBundleProcessed recipientId requestId, Returned =>
      match pendingMessages s !! requestId with
      | Some pendingMessage =>
          Some (suspend (KRetryEncrypt recipientId requestId pendingMessage)
                  (invoke (EngineEncrypt recipientId
                             (JSON_stringify (pm_content pendingMessage))) s))
      | None => Some s
      end
  | KBundleProcessed _ requestId, Threw error =>
      Some (reject_pending requestId error s)
  | KRetryEncrypt _ requestId pendingMessage, ReturnedCipher encryptedMessage =>
      Some (set_pendingMessages (delete requestId)
              (settle (pm_resolve pendingMessage) (Resolved encryptedMessage) s))
  | KRetryEncrypt _ requestId _, Threw error =>
      Some (reject_pending requestId error s)
  | _, _ => None
  end.

(** *** The event loop *)

Inductive event :=
  | CallInitializeEncryption (userId : string)
  | CallEncryptMessage (recipientId : string) (content : Content)
  | Resume (handle : nat) (r : awaited)
  | Receive (name : string) (d : payload)
  | TimerFires (id : nat)
  | Elapse (ms : N).

Definition listens_to (name : string) (l : listener) : bool :=
  bool_decide (l_event l = name).

(** The listeners a frame named [name] reaches, in registration order. *)
Definition listeners_for (name : string) (s : state) : list listener :=
  filter (λ l, listens_to name l = true) (listeners s).

(** One-shot listeners leave the table when their frame arrives. *)
Definition drop_once (name : string) (s : state) : state :=
  set_listeners (filter (λ l, (listens_to name l && l_once l) = false)) s.

Fixpoint call_listeners (ls : list listener) (d : payload) (s : state) : option state :=
  match ls with
  | [] => Some s
  | l :: ls => s' ← handle (l_handler l) d s; call_listeners ls d s'
  end.

Definition receive (name : string) (d : payload) (s : state) : option state :=
  call_listeners (listeners_for name s) d (drop_once name s).

(** Lines 130-136, run when the timer is due. *)
Definition fire (id : nat) (s : state) : option state :=
  tm ← timers s !! id;
  if decide (t_due tm ≤ clock s)
  then Some (reject_pending (t_requestId tm) timeout_error
               (set_timers (delete id) s))
  else None.

Definition step (ev : event) (s : state) : option state :=
  match ev with
  | CallInitializeEncryption userId => Some (initializeEncryption userId s)
  | CallEncryptMessage recipientId content =>
      Some (encryptMessage recipientId content s)
  | Resume t r => k ← suspended s !! t; resume k r (set_suspended (delete t) s)
  | Receive name d => receive name d s
  | TimerFires id => fire id s
  | Elapse ms => Some (advance ms s)
  end.

Fixpoint run (evs : list event) (s : state) : option state :=
  match evs with
  | [] => Some s
  | ev :: evs => s' ← step ev s; run evs s'
  end.

End Orchestrator.

Arguments mkPending {Content}.
Arguments pm_recipientId {Content}.
Arguments pm_content {Content}.
Arguments pm_resolve {Content}.
Arguments pm_reject {Content}.
Arguments RegisterPublicKeys {PublicKeys}.
Arguments RequestPreKeyBundle {PublicKeys}.
Arguments MessageDecrypted {PublicKeys}.
Arguments BundleResponse {Bundle Cipher}.
Arguments NewPreKeyBundle {Bundle Cipher}.
Arguments EncryptedMessage {Bundle Cipher}.
Arguments mkDecryptEvent {Content}.
Arguments InitializeIdentity {Bundle Cipher}.
Arguments GetPublicKeys {Bundle Cipher}.
Arguments ProcessPreKeyBundle {Bundle Cipher}.
Arguments EngineEncrypt {Bundle Cipher}.
Arguments EngineDecrypt {Bundle Cipher}.
Arguments KInitIdentity {Content}.
Arguments KInitKeys {Content}.
Arguments KInitRegister {Content}.
Arguments KNewBundle {Content}.
Arguments KDecrypt {Content}.
Arguments KEncrypt {Content}.
Arguments KBundleProcessed {Content}.
Arguments KRetryEncrypt {Content}.
Arguments Returned {Cipher PublicKeys}.
Arguments ReturnedKeys {Cipher PublicKeys}.
Arguments ReturnedCipher {Cipher PublicKeys}.
Arguments ReturnedText {Cipher PublicKeys}.
Arguments Acknowledged {Cipher PublicKeys}.
Arguments Threw {Cipher PublicKeys}.
Arguments CallInitializeEncryption {Content Bundle Cipher PublicKeys}.
Arguments CallEncryptMessage {Content Bundle Cipher PublicKeys}.
Arguments Resume {Content Bundle Cipher PublicKeys}.
Arguments Receive {Content Bundle Cipher PublicKeys}.
Arguments TimerFires {Content Bundle Cipher PublicKeys}.
Arguments Elapse {Content Bundle Cipher PublicKeys}.
Arguments mkState {Content Bundle Cipher PublicKeys}.
Arguments signalManager {Content Bundle Cipher PublicKeys}.
Arguments pendingMessages {Content Bundle Cipher PublicKeys}.
Arguments listeners {Content Bundle Cipher PublicKeys}.
Arguments timers {Content Bundle Cipher PublicKeys}.
Arguments suspended {Content Bundle Cipher PublicKeys}.
Arguments promises {Content Bundle Cipher PublicKeys}.
Arguments emitted {Content Bundle Cipher PublicKeys}.
Arguments dispatched {Content Bundle Cipher PublicKeys}.
Arguments engine_calls {Content Bundle Cipher PublicKeys}.
Arguments clock {Content Bundle Cipher PublicKeys}.
Arguments next_handle {Content Bundle Cipher PublicKeys}.
Arguments initial {Content Bundle Cipher PublicKeys}.
Arguments set_signalManager {Content Bundle Cipher PublicKeys}.
Arguments set_pendingMessages {Content Bundle Cipher PublicKeys}.
Arguments set_listeners {Content Bundle Cipher PublicKeys}.
Arguments set_timers {Content Bundle Cipher PublicKeys}.
Arguments set_suspended {Content Bundle Cipher PublicKeys}.
Arguments set_promises {Content Bundle Cipher PublicKeys}.
Arguments fresh {Content Bundle Cipher PublicKeys}.
Arguments emit {Content Bundle Cipher PublicKeys}.
Arguments dispatchEvent {Content Bundle Cipher PublicKeys}.
Arguments invoke {Content Bundle Cipher PublicKeys}.
Arguments advance {Content Bundle Cipher PublicKeys}.
Arguments suspend {Content Bundle Cipher PublicKeys}.
Arguments new_promise {Content Bundle Cipher PublicKeys}.
Arguments socket_on {Content Bundle Cipher PublicKeys}.
Arguments socket_once {Content Bundle Cipher PublicKeys}.
Arguments setTimeout {Content Bundle Cipher PublicKeys}.
Arguments settle_in {Cipher} p o ps : simpl never.
Arguments settle {Content Bundle Cipher PublicKeys}.
Arguments enqueue {Content Bundle Cipher PublicKeys}.
Arguments reject_pending {Content Bundle Cipher PublicKeys}.
Arguments encryptMessage {Content Bundle Cipher PublicKeys}.
Arguments registerPublicKeys {Content Bundle Cipher PublicKeys}.
Arguments initializeEncryption {Content Bundle Cipher PublicKeys}.
Arguments handle {Content Bundle Cipher PublicKeys}.
Arguments resume {Content Bundle Cipher PublicKeys}.
Arguments listeners_for {Content Bundle Cipher PublicKeys}.
Arguments drop_once {Content Bundle Cipher PublicKeys}.
Arguments call_listeners {Content Bundle Cipher PublicKeys}.
Arguments receive {Content Bundle Cipher PublicKeys}.
Arguments fire {Content Bundle Cipher PublicKeys}.
Arguments step {Content Bundle Cipher PublicKeys}.
Arguments run {Content Bundle Cipher PublicKeys}.

(** ** The file cipher, lines 150-218 *)

(** The Web Crypto API and the platform's random source are the
    environment of [encryptFile] and [decryptFile].  The random source is
    a stream of bytes with a read position; AES-GCM itself is a pair of
    functions taken as parameters. *)

Inductive DOMException := InvalidAccessError | DataError | OperationError.

Inductive outcome (A : Type) :=
  | Fulfilled (a : A)
  | Failed (e : DOMException).
Arguments Fulfilled {A} a.
Arguments Failed {A} e.

Record Platform := mkPlatform {
  entropy : nat → Byte.byte;
  drawn : nat
}.

(** A platform call: it may consume randomness and may fail. *)
Definition Async (A : Type) : Type := Platform → outcome A * Platform.

Definition ret {A} (a : A) : Async A := λ w, (Fulfilled a, w).

Definition throw {A} (e : DOMException) : Async A := λ w, (Failed e, w).

Definition bind {A B} (m : Async A) (f : A → Async B) : Async B :=
  λ w, match m w with
       | (Fulfilled a, w') => f a w'
       | (Failed e, w') => (Failed e, w')
       end.

Declare Scope async_scope.
Delimit Scope async_scope with async.
Notation "'await' x ← m ; k" := (bind m (λ x, k))
  (at level 10, x name, m at level 100, k at level 200) : async_scope.

Inductive usage := UseEncrypt | UseDecrypt.

Global Instance usage_eq_dec : EqDecision usage.
Proof. solve_decision. Defined.

(** A [CryptoKey] object. *)
Record CryptoKey := mkCryptoKey {
  key_algorithm : string;
  key_length : nat;
  key_extractable : bool;
  key_usages : list usage;
  key_raw : list Byte.byte
}.

Record File := mkFile {
  file_name : string;
  file_type : string;
  file_bytes : list Byte.byte
}.

(** [file.size] *)
Definition file_size (f : File) : nat := length (file_bytes f).

Record Blob := mkBlob {
  blob_bytes : list Byte.byte;
  blob_type : string
}.

(** The object [encryptFile] returns (lines 179-187). *)
Record EncryptedFile := mkEncryptedFile {
  encryptedFile : Blob;
  fileName : string;
  fileType : string;
  fileSize : nat;
  key : list Byte.byte;
  iv : list Byte.byte;
  channelId : string
}.

(** [crypto.getRandomValues(new Uint8Array(n))] *)
Definition getRandomValues (n : nat) : Async (list Byte.byte) :=
  λ w, (Fulfilled (entropy w <$> seq (drawn w) n),
        mkPlatform (entropy w) (drawn w + n)).

(** The key sizes AES accepts. *)
Definition aes_key_length (bits : nat) : bool :=
  (bits =? 128)%nat || (bits =? 192)%nat || (bits =? 256)%nat.

Section FileCipher.

(** AES-GCM on raw key bytes: sealing, and opening with the tag check. *)
Variable aes_gcm_seal : list Byte.byte → list Byte.byte → list Byte.byte → list Byte.byte.
Variable aes_gcm_open : list Byte.byte → list Byte.byte → list Byte.byte → option (list Byte.byte).

(** [subtle.generateKey({name, length}, extractable, usages)] *)
Definition generateKey (name : string) (bits : nat) (extractable : bool)
    (usages : list usage) : Async CryptoKey :=
  if aes_key_length bits
  then (await raw ← getRandomValues (bits / 8);
        ret (mkCryptoKey name bits extractable usages raw))%async
  else throw OperationError.

(** [subtle.exportKey('raw', key)] *)
Definition exportKey (k : CryptoKey) : Async (list Byte.byte) :=
  if key_extractable k then ret (key_raw k) else throw InvalidAccessError.

(** [subtle.importKey('raw', keyData, {name, length}, extractable, usages)] *)
Definition importKey (raw : list Byte.byte) (name : string)
    (extractable : bool) (usages : list usage) : Async CryptoKey :=
  if aes_key_length (8 * length raw)
  then ret (mkCryptoKey name (8 * length raw) extractable usages raw)
  else throw DataError.

(** [subtle.encrypt({name: 'AES-GCM', iv}, key, data)] *)
Definition subtle_encrypt (iv : list Byte.byte) (k : CryptoKey)
    (data : list Byte.byte) : Async (list Byte.byte) :=
  if bool_decide (UseEncrypt ∈ key_usages k)
  then ret (aes_gcm_seal (key_raw k) iv data)
  else throw InvalidAccessError.

(** [subtle.decrypt({name: 'AES-GCM', iv}, key, data)] *)
Definition subtle_decrypt (iv : list Byte.byte) (k : CryptoKey)
    (data : list Byte.byte) : Async (list Byte.byte) :=
  if bool_decide (UseDecrypt ∈ key_usages k)
  then match aes_gcm_open (key_raw k) iv data with
       | Some plain => ret plain
       | None => throw OperationError
       end
  else throw InvalidAccessError.

(** Lines 150-188. *)
Definition encryptFile (file : File) (channelId : string) : Async EncryptedFile :=
  (await key ← generateKey "AES-GCM" 256 true [UseEncrypt; UseDecrypt];
   await exportedKey ← exportKey key;
   await fileBuffer ← ret (file_bytes file);
   await iv ← getRandomValues 12;
   await encryptedFile ← subtle_encrypt iv key fileBuffer;
   ret (mkEncryptedFile
          (mkBlob encryptedFile "application/octet-stream")
          (file_name file) (file_type file) (file_size file)
          exportedKey iv channelId))%async.

(** Lines 196-218. *)
Definition decryptFile (fileData : EncryptedFile) (decryptedKey : list Byte.byte)
    : Async Blob :=
  (await key ← importKey decryptedKey "AES-GCM" false [UseDecrypt];
   await encryptedBuffer ← ret (blob_bytes (encryptedFile fileData));
   await decryptedBuffer ← subtle_decrypt (iv fileData) key encryptedBuffer;
   ret (mkBlob decryptedBuffer (fileType fileData)))%async.

(** The package with byte [i] of its ciphertext blob replaced by [b]. *)
Definition tamper (i : nat) (b : Byte.byte) (fileData : EncryptedFile) : EncryptedFile :=
  mkEncryptedFile
    (mkBlob (<[i:=b]> (blob_bytes (encryptedFile fileData)))
       (blob_type (encryptedFile fileData)))
    (fileName fileData) (fileType fileData) (fileSize fileData)
    (key fileData) (iv fileData) (channelId fileData).

End FileCipher.

Arguments make_requestId : simpl never.
Arguments bundle_event : simpl never.

(** ** Properties of states *)

Section Invariants.

Context {Content Bundle Cipher PublicKeys : Type}.
Variable JSON_stringify : Content → string.
Variable JSON_parse : string → option Content.

Abbreviation state := (state Content Bundle Cipher PublicKeys).

(** States the event loop can be in, started at any time [t0]. *)
Definition reachable (s : state) : Prop :=
  ∃ t0 evs, run JSON_stringify JSON_parse evs (initial t0) = Some s.

(** The only listeners this module registers (lines 23, 27 and 104). *)
Definition registered_by_module (l : listener) : Prop :=
  l = mkListener "new-pre-key-bundle" false OnNewPreKeyBundle ∨
  l = mkListener "encrypted-message" false OnEncryptedMessage ∨
  ∃ recipientId requestId,
    l = mkListener (bundle_event requestId) true
          (OnPreKeyBundle recipientId requestId).

Definition listeners_ok (s : state) : Prop :=
  ∀ l, l ∈ listeners s → registered_by_module l.

(** The promise handles a parked function can still settle. *)
Definition holds (k : continuation Content) (p : nat) : Prop :=
  match k with
  | KEncrypt _ _ q => q = p
  | KRetryEncrypt _ _ pendingMessage =>
      pm_resolve pendingMessage = p ∨ pm_reject pendingMessage = p
  | _ => False
  end.

(** A pending promise that neither the registry nor any parked function
    refers to: no code path can settle it. *)
Definition orphaned (p : nat) (s : state) : Prop :=
  (p < next_handle s)%nat ∧
  promises s !! p = Some Pending ∧
  (∀ requestId pendingMessage,
     pendingMessages s !! requestId = Some pendingMessage →
     pm_resolve pendingMessage ≠ p ∧ pm_reject pendingMessage ≠ p) ∧
  (∀ t k, suspended s !! t = Some k → ¬ holds k p).

(** Consistency of the registry with the promises and parked functions. *)
Record registry_ok (s : state) : Prop := mkRegistryOk {
  entry_pending : ∀ requestId pendingMessage,
    pendingMessages s !! requestId = Some pendingMessage →
    pm_resolve pendingMessage = pm_reject pendingMessage ∧
    promises s !! pm_reject pendingMessage = Some Pending;
  entry_unique : ∀ requestId requestId' pendingMessage pendingMessage',
    pendingMessages s !! requestId = Some pendingMessage →
    pendingMessages s !! requestId' = Some pendingMessage' →
    pm_reject pendingMessage = pm_reject pendingMessage' →
    requestId = requestId';
  encrypt_exclusive : ∀ t recipientId content p,
    suspended s !! t = Some (KEncrypt recipientId content p) →
    promises s !! p = Some Pending ∧
    (∀ requestId pendingMessage,
       pendingMessages s !! requestId = Some pendingMessage →
       pm_reject pendingMessage ≠ p) ∧
    (∀ t' k, suspended s !! t' = Some k → t' ≠ t → ¬ holds k p);
  retry_entry : ∀ t recipientId requestId pendingMessage,
    suspended s !! t = Some (KRetryEncrypt recipientId requestId pendingMessage) →
    pm_resolve pendingMessage = pm_reject pendingMessage ∧
    is_Some (promises s !! pm_reject pendingMessage) ∧
    (∀ requestId' pendingMessage',
       pendingMessages s !! requestId' = Some pendingMessage' →
       pm_reject pendingMessage' = pm_reject pendingMessage →
       requestId' = requestId);
  promise_bound : ∀ p o, promises s !! p = Some o → (p < next_handle s)%nat
}.

(** A promise that has been settled. *)
Definition settled (o : promise Cipher) : Prop := o ≠ Pending.

(** Promise [p] has been settled with outcome [o]. *)
Definition settled_with (p : nat) (o : promise Cipher) (s : state) : Prop :=
  (p < next_handle s)%nat ∧ promises s !! p = Some o ∧ settled o.

(** Between [s] and [s'] no bundle exchange was started or torn down. *)
Definition no_bundle_exchange (s s' : state) : Prop :=
  emitted s' = emitted s ∧
  pendingMessages s' = pendingMessages s ∧
  listeners s' = listeners s ∧
  timers s' = timers s.

(** Callbacks only park functions: everything but the table of parked
    functions, the engine log and the handle counter is left as it was. *)
Definition parked (n : nat) (s s' : state) : Prop :=
  signalManager s' = signalManager s ∧
  pendingMessages s' = pendingMessages s ∧
  listeners s' = listeners s ∧
  timers s' = timers s ∧
  promises s' = promises s ∧
  emitted s' = emitted s ∧
  dispatched s' = dispatched s ∧
  clock s' = clock s ∧
  next_handle s' = (next_handle s + n)%nat.

End Invariants.

(** ** Further properties of states *)

(** A string in which the character [-] does not occur. *)
Definition dash_free (s : string) : Prop :=
  ∀ pre post, s ≠ pre +:+ "-" +:+ post.

Section Bookkeeping.

Context {Content Bundle Cipher PublicKeys : Type}.

Abbreviation state := (state Content Bundle Cipher PublicKeys).

(** The module before [initializeEncryption] was ever called: nothing is
    stored, registered, parked or logged, and every promise handed out
    was rejected at line 79. *)
Definition uninitialized (s : state) : Prop :=
  signalManager s = None ∧
  pendingMessages s = ∅ ∧
  listeners s = [] ∧
  timers s = ∅ ∧
  suspended s = ∅ ∧
  emitted s = [] ∧
  dispatched s = [] ∧
  engine_calls s = [] ∧
  ∀ p o, promises s !! p = Some o → o = Rejected not_initialized.

(** Every entry of the registry is stored under the id built from its
    recipient and the time of a call (line 90), and a timer set at that
    time for that id (line 130) is still in the table. *)
Definition registry_timed (s : state) : Prop :=
  (∀ id tm, timers s !! id = Some tm → (id < next_handle s)%nat) ∧
  ∀ requestId pendingMessage,
    pendingMessages s !! requestId = Some pendingMessage →
    ∃ now id,
      now ≤ clock s ∧
      requestId = make_requestId (pm_recipientId pendingMessage) now ∧
      timers s !! id = Some (mkTimer (now + 10000) requestId).

(** The events of a start-up whose three awaits all succeed, for a
    module whose next free handle is [h]. *)
Definition startup_events (userId : string) (publicKeys : PublicKeys)
    (note : string) (h : nat) : list (event Content Bundle Cipher PublicKeys) :=
  [ CallInitializeEncryption userId;
    Resume h Returned;
    Resume (S h) (ReturnedKeys publicKeys);
    Resume (S (S h)) (Acknowledged true note) ].

(** The message ids of the [message-decrypted] frames among [fs], in the
    order they were emitted. *)
Definition acknowledged (fs : list (frame PublicKeys)) : list string :=
  omap (λ f, match f with
             | MessageDecrypted messageId => Some messageId
             | _ => None
             end) fs.

(** An event other than a call of [initializeEncryption]. *)
Definition not_a_startup (ev : event Content Bundle Cipher PublicKeys) : Prop :=
  match ev with
  | CallInitializeEncryption _ => False
  | _ => True
  end.


(** The event is a frame named [name] arriving on the socket. *)
Definition delivers (name : string)
    (ev : event Content Bundle Cipher PublicKeys) : Prop :=
  match ev with
  | Receive name' _ => name' = name
  | _ => False
  end.

(** Every one-shot listener carries an id built at line 90 and the
    recipient the id was built from. *)
Definition listeners_keyed (s : state) : Prop :=
  ∀ l, l ∈ listeners s →
    l = mkListener "new-pre-key-bundle" false OnNewPreKeyBundle ∨
    l = mkListener "encrypted-message" false OnEncryptedMessage ∨
    ∃ recipientId now,
      l = mkListener (bundle_event (make_requestId recipientId now)) true
            (OnPreKeyBundle recipientId (make_requestId recipientId now)).

End Bookkeeping.

(** ** A small instance to run the model on *)

Module Sample.

(** The three JSON literals.  Any other text is taken as a syntax error;
    the texts parsed below are ["null"] and ["{"]. *)
Inductive Json := JNull | JTrue | JFalse.

Definition stringify (j : Json) : string :=
  match j with
  | JNull => "null"
  | JTrue => "true"
  | JFalse => "false"
  end.

Definition parse (text : string) : option Json :=
  if bool_decide (text = "null") then Some JNull
  else if bool_decide (text = "true") then Some JTrue
  else if bool_decide (text = "false") then Some JFalse
  else None.

(** Bundles, ciphertexts and public keys are plain tokens here. *)
Definition State : Type := state Json string string string.
Definition Event : Type := event Json string string string.

(** The events of a completed [initializeEncryption("alice")]. *)
Definition startup : list Event :=
  [ CallInitializeEncryption "alice";
    Resume 0 Returned;
    Resume 1 (ReturnedKeys "alice-public-keys");
    Resume 2 (Acknowledged true "") ].

(** The state they lead to from [initial 0]. *)
Definition ready : State :=
  mkState (Some "alice") ∅
    [ mkListener "new-pre-key-bundle" false OnNewPreKeyBundle;
      mkListener "encrypted-message" false OnEncryptedMessage ]
    ∅ ∅ ∅
    [ RegisterPublicKeys "alice-public-keys" ] []
    [ InitializeIdentity; GetPublicKeys ] 0 3.

Definition no_session_error : Error := mkError "No session for bob".

(** An envelope from bob. *)
Definition envelope : payload string string :=
  EncryptedMessage "bob" "general" "ciphertext" "m1".

(** A call for bob that finds no session, and the timer that follows. *)
Definition bob_without_session : list Event :=
  [ CallEncryptMessage "bob" JNull;
    Resume 4 (Threw no_session_error) ].

Definition bob_times_out : list Event :=
  bob_without_session ++ [ Elapse 10000; TimerFires 5 ].

(** A stand-in for AES-GCM: every byte is written twice, and opening
    checks the two copies against each other. *)
Fixpoint seal_bytes (plain : list Byte.byte) : list Byte.byte :=
  match plain with
  | [] => []
  | b :: plain => b :: b :: seal_bytes plain
  end.

Fixpoint open_bytes (sealed : list Byte.byte) : option (list Byte.byte) :=
  match sealed with
  | [] => Some []
  | b :: b' :: sealed =>
      if Byte.eqb b b' then cons b <$> open_bytes sealed else None
  | _ => None
  end.

Definition seal (key iv plain : list Byte.byte) : list Byte.byte :=
  seal_bytes plain.

Definition open (key iv sealed : list Byte.byte) : option (list Byte.byte) :=
  open_bytes sealed.

Definition platform : Platform := mkPlatform (λ _, Byte.x2a) 0.

Definition report : File :=
  mkFile "report.txt" "text/plain" [Byte.x68; Byte.x69].

(** A module that was never started, after one rejected call and five
    milliseconds. *)
Definition early : State :=
  mkState None ∅ [] ∅ ∅ (<[0%nat := Rejected not_initialized]> ∅)
    [] [] [] 5 1.

(** The state after a start-up whose [initializeIdentity] threw. *)
Definition failed : State :=
  mkState (Some "alice") ∅ [] ∅ ∅ ∅ [] [] [ InitializeIdentity ] 0 1.

(** The state [bob_without_session] leads to from [ready]. *)
Definition waiting : State :=
  mkState (Some "alice")
    (<["bob-0" := mkPending "bob" JNull 3 3]> ∅)
    [ mkListener "new-pre-key-bundle" false OnNewPreKeyBundle;
      mkListener "encrypted-message" false OnEncryptedMessage;
      mkListener "pre-key-bundle-bob-0" true (OnPreKeyBundle "bob" "bob-0") ]
    (<[5%nat := mkTimer 10000 "bob-0"]> ∅) ∅ (<[3%nat := Pending]> ∅)
    [ RegisterPublicKeys "alice-public-keys";
      RequestPreKeyBundle "bob" (Some "bob-0") ] []
    [ InitializeIdentity; GetPublicKeys; EngineEncrypt "bob" "null" ] 0 6.

(** The state after [envelope] was received in [ready] and decrypted to
    ["null"]. *)
Definition received : State :=
  mkState (Some "alice") ∅
    [ mkListener "new-pre-key-bundle" false OnNewPreKeyBundle;
      mkListener "encrypted-message" false OnEncryptedMessage ]
    ∅ ∅ ∅
    [ RegisterPublicKeys "alice-public-keys"; MessageDecrypted "m1" ]
    [ mkDecryptEvent "m1" "bob" "general" JNull ]
    [ InitializeIdentity; GetPublicKeys; EngineDecrypt "bob" "ciphertext" ] 0 4.

(** A package with the sealed bytes of [report] under other metadata. *)
Definition relabelled : EncryptedFile :=
  mkEncryptedFile
    (mkBlob (seal [] [] [Byte.x68; Byte.x69]) "text/html")
    "index.html" "text/html" 0 [] (replicate 12 Byte.x2a) "elsewhere".

(** [ready], five milliseconds later. *)
Definition later : State :=
  mkState (Some "alice") ∅
    [ mkListener "new-pre-key-bundle" false OnNewPreKeyBundle;
      mkListener "encrypted-message" false OnEncryptedMessage ]
    ∅ ∅ ∅
    [ RegisterPublicKeys "alice-public-keys" ] []
    [ InitializeIdentity; GetPublicKeys ] 5 3.

End Sample.

(** ** The orchestrator: outgoing and incoming messages *)

Example includes_inside :
  includes "Error: No session for bob" "No session" = true.
Proof. reflexivity. Qed.

Example includes_absent : includes "Bad MAC" "No session" = false.
Proof. reflexivity. Qed.

Example includes_case_sensitive : includes "no session" "No session" = false.
Proof. reflexivity. Qed.

Example requestId_bob : make_requestId "bob" 1700000000000 = "bob-1700000000000".
Proof. vm_compute. reflexivity. Qed.

Example bundle_event_bob : bundle_event "bob-17" = "pre-key-bundle-bob-17".
Proof. reflexivity. Qed.

(** ** Strings: the substring test and the request id *)

Lemma prefix_append (needle hay : string) :
  String.prefix needle hay = true ↔ ∃ post, hay = needle +:+ post.
Proof.
  revert hay. induction needle as [|a needle IH]; intros hay.
  - destruct hay; cbn; split; eauto.
  - destruct hay as [|b hay]; cbn.
    + split; [done|]. by intros [post ?].
    + destruct (Ascii.ascii_dec a b) as [->|Hne].
      * rewrite IH. split; intros [post Hpost]; exists post; [by rewrite Hpost|].
        by injection Hpost.
      * split; [done|]. intros [post Hpost]. by injection Hpost as -> _.
Qed.

Lemma includes_append (hay needle : string) :
  includes hay needle = true ↔ ∃ pre post, hay = pre +:+ needle +:+ post.
Proof.
  induction hay as [|a hay IH]; cbn -[String.prefix].
  - rewrite orb_false_r, prefix_append. split.
    + intros [post Hpost]. by exists "", post.
    + intros (pre & post & Hpost). destruct pre; [by exists post|done].
  - rewrite orb_true_iff, prefix_append, IH. split.
    + intros [[post Hpost]|(pre & post & Hpost)].
      * by exists "", post.
      * exists (String a pre), post. cbn. by rewrite Hpost.
    + intros (pre & post & Hpost). destruct pre as [|b pre]; cbn in Hpost.
      * left. by exists post.
      * right. injection Hpost as _ ->. by exists pre, post.
Qed.

Lemma dash_free_cons (a : Ascii.ascii) (s : string) :
  String a "" ≠ "-" → dash_free s → dash_free (String a s).
Proof.
  intros Ha Hs pre post Heq. destruct pre as [|b pre]; cbn in Heq.
  - injection Heq as -> _. by apply Ha.
  - injection Heq as _ Heq. by apply (Hs pre post).
Qed.

Lemma pretty_N_go_dash_free (x : N) (s : string) :
  dash_free s → dash_free (pretty_N_go x s).
Proof.
  revert s. induction (N.lt_wf_0 x) as [x _ IH]; intros s Hs.
  assert (x = 0 ∨ 0 < x) as [->|Hx] by lia.
  - by rewrite pretty_N_go_0.
  - rewrite pretty_N_go_step by done. apply IH; [by apply N.div_lt|].
    apply dash_free_cons; [|done].
    unfold pretty_N_char. by repeat case_match.
Qed.

Lemma pretty_N_dash_free (x : N) : dash_free (pretty x).
Proof.
  assert (dash_free "") as Hnil by (intros [|? ?] ? ?; discriminate).
  unfold pretty, pretty_N. case_decide.
  - by apply dash_free_cons.
  - by apply pretty_N_go_dash_free.
Qed.

(** A string is split at its last [-] in one way only. *)
Lemma append_dash_inj (r1 r2 d1 d2 : string) :
  dash_free d1 → dash_free d2 →
  r1 +:+ "-" +:+ d1 = r2 +:+ "-" +:+ d2 → r1 = r2 ∧ d1 = d2.
Proof.
  intros Hd1 Hd2. revert r2.
  induction r1 as [|a r1 IH]; intros [|b r2] Heq; cbn in Heq.
  - by injection Heq.
  - injection Heq as _ Heq. by destruct (Hd1 r2 d2).
  - injection Heq as _ Heq. by destruct (Hd2 r1 d1).
  - injection Heq as -> Heq. destruct (IH _ Heq) as [-> ->]. done.
Qed.

Lemma make_requestId_inj (r1 r2 : string) (t1 t2 : N) :
  make_requestId r1 t1 = make_requestId r2 t2 → r1 = r2 ∧ t1 = t2.
Proof.
  unfold make_requestId. intros Heq.
  apply append_dash_inj in Heq as [-> Ht]; [|apply pretty_N_dash_free..].
  split; [done|]. by apply (inj pretty).
Qed.

Lemma bundle_event_inj (requestId requestId' : string) :
  bundle_event requestId = bundle_event requestId' → requestId = requestId'.
Proof. unfold bundle_event. intros H. by simplify_eq/=. Qed.

(** X1.  The test of line 88 holds exactly for the messages that contain the
    text ["No session"], with anything before and after it; it is
    sensitive to case. *)
Theorem no_session_substring (error : Error) :
  (no_session error = true ↔
   ∃ pre post, message error = pre +:+ "No session" +:+ post) ∧
  no_session (mkError "no session") = false ∧
  no_session (mkError "") = false.
Proof. split; [apply includes_append|done]. Qed.

(** X2.  Line 90 and line 104.  The request id determines the recipient and
    the time of the call, and the event name determines the request id:
    two calls wait for the same response frame only when they are for
    the same recipient in the same millisecond. *)
Theorem requestId_injective (recipientId recipientId' : string) (now now' : N) :
  (make_requestId recipientId now = make_requestId recipientId' now' ↔
   recipientId = recipientId' ∧ now = now') ∧
  (bundle_event (make_requestId recipientId now) =
     bundle_event (make_requestId recipientId' now') ↔
   recipientId = recipientId' ∧ now = now').
Proof.
  split; split.
  - apply make_requestId_inj.
  - by intros [-> ->].
  - intros H. by apply make_requestId_inj, bundle_event_inj.
  - by intros [-> ->].
Qed.

Section OrchestratorFacts.

Context {Content Bundle Cipher PublicKeys : Type}.
Variable JSON_stringify : Content → string.
Variable JSON_parse : string → option Content.

Abbreviation state := (state Content Bundle Cipher PublicKeys).
Abbreviation step := (step JSON_stringify JSON_parse).
Abbreviation run := (run JSON_stringify JSON_parse).

Lemma run_last (m : option state) : m ≫= (λ s', Some s') = m.
Proof. by destruct m. Qed.

Lemma run_cons (ev : event Content Bundle Cipher PublicKeys)
    (evs : list (event Content Bundle Cipher PublicKeys)) (s : state) :
  run (ev :: evs) s = step ev s ≫= run evs.
Proof. reflexivity. Qed.

Lemma run_one (ev : event Content Bundle Cipher PublicKeys) (s : state) :
  run [ev] s = step ev s.
Proof. apply run_last. Qed.

Lemma run_step (ev : event Content Bundle Cipher PublicKeys)
    (evs : list (event Content Bundle Cipher PublicKeys)) (s s1 : state) :
  step ev s = Some s1 → run (ev :: evs) s = run evs s1.
Proof. intros H. by rewrite run_cons, H. Qed.

Lemma step_resume (t : nat) (k : continuation Content)
    (r : awaited Cipher PublicKeys) (s : state) :
  suspended s !! t = Some k →
  step (Resume t r) s =
  resume JSON_stringify JSON_parse k r (set_suspended (delete t) s).
Proof. intros Hk. cbn. by rewrite Hk. Qed.

(** Resuming the function that was parked last. *)
Lemma step_resume_parked (k : continuation Content)
    (r : awaited Cipher PublicKeys) (s : state) :
  step (Resume (next_handle s) r) (suspend k s) =
  resume JSON_stringify JSON_parse k r
    (set_suspended (delete (next_handle s)) (suspend k s)).
Proof. apply step_resume. apply lookup_insert_eq. Qed.

Lemma settle_in_pending (p : nat) (o : promise Cipher)
    (ps : gmap nat (promise Cipher)) :
  ps !! p = Some Pending → settle_in p o ps !! p = Some o.
Proof. intros Hp. unfold settle_in. rewrite Hp. apply lookup_insert_eq. Qed.

Lemma settle_in_other (p q : nat) (o : promise Cipher)
    (ps : gmap nat (promise Cipher)) :
  p ≠ q → settle_in p o ps !! q = ps !! q.
Proof.
  intros Hpq. unfold settle_in.
  destruct (ps !! p) as [[]|]; by rewrite ?lookup_insert_ne.
Qed.

Lemma settle_in_settled (p q : nat) (o o' : promise Cipher)
    (ps : gmap nat (promise Cipher)) :
  ps !! q = Some o' → settled o' → settle_in p o ps !! q = Some o'.
Proof.
  intros Hq Ho'. destruct (decide (p = q)) as [->|Hne].
  - unfold settle_in. rewrite Hq. by destruct o'.
  - by rewrite settle_in_other.
Qed.

Lemma settle_in_is_Some (p q : nat) (o : promise Cipher)
    (ps : gmap nat (promise Cipher)) :
  is_Some (settle_in p o ps !! q) ↔ is_Some (ps !! q).
Proof.
  destruct (decide (p = q)) as [->|Hne]; [|by rewrite settle_in_other].
  unfold settle_in. destruct (ps !! q) as [[]|] eqn:Hq;
    rewrite ?lookup_insert_eq, ?Hq; split; eauto.
Qed.

Lemma encryptMessage_initialized (s : state) (manager recipientId : string)
    (content : Content) :
  signalManager s = Some manager →
  encryptMessage JSON_stringify recipientId content s =
  suspend (KEncrypt recipientId content (next_handle s))
    (invoke (EngineEncrypt recipientId (JSON_stringify content))
       (fresh (set_promises (insert (next_handle s) Pending) s))).
Proof. intros Hm. unfold encryptMessage. cbn. by rewrite Hm. Qed.

(** The call of lines 77-84 followed by the engine's answer. *)
Lemma encrypt_then_answer (s : state) (manager recipientId : string)
    (content : Content) (r : awaited Cipher PublicKeys) :
  signalManager s = Some manager →
  run [CallEncryptMessage recipientId content; Resume (S (next_handle s)) r] s =
  resume JSON_stringify JSON_parse (KEncrypt recipientId content (next_handle s)) r
    (set_suspended (delete (S (next_handle s)))
       (encryptMessage JSON_stringify recipientId content s)).
Proof.
  intros Hm. cbn. unfold encryptMessage. cbn. rewrite Hm. cbn.
  rewrite lookup_insert_eq. cbn.
  apply run_last.
Qed.

(** C4.  An encryption that succeeds is returned as it is, and a failure
    whose message does not contain "No session" rejects the caller's
    promise with that very error: in both cases no frame is emitted and
    no registry entry, listener or timer is created.  Only a failure
    whose message contains "No session" stores a pending entry and emits
    the bundle request. *)
Theorem only_no_session_requests_bundle (s : state) (manager recipientId : string)
    (content : Content) :
  signalManager s = Some manager →
  (∀ c, ∃ s',
     run [CallEncryptMessage recipientId content;
          Resume (S (next_handle s)) (ReturnedCipher c)] s = Some s' ∧
     promises s' !! next_handle s = Some (Resolved c) ∧
     no_bundle_exchange s s') ∧
  (∀ error, ∃ s',
     run [CallEncryptMessage recipientId content;
          Resume (S (next_handle s)) (Threw error)] s = Some s' ∧
     if no_session error
     then emitted s' = emitted s ++
            [RequestPreKeyBundle recipientId
               (Some (make_requestId recipientId (clock s)))] ∧
          pendingMessages s' !! make_requestId recipientId (clock s) =
            Some (mkPending recipientId content (next_handle s) (next_handle s)) ∧
          promises s' !! next_handle s = Some Pending
     else promises s' !! next_handle s = Some (Rejected error) ∧
          no_bundle_exchange s s').
Proof.
  intros Hm. split.
  - intros c. rewrite (encrypt_then_answer _ _ _ _ _ Hm).
    rewrite (encryptMessage_initialized _ _ _ _ Hm). cbn.
    eexists. split; [reflexivity|]. cbn.
    by rewrite settle_in_pending by apply lookup_insert_eq.
  - intros error. rewrite (encrypt_then_answer _ _ _ _ _ Hm).
    rewrite (encryptMessage_initialized _ _ _ _ Hm). cbn.
    destruct (no_session error); (eexists; split; [reflexivity|]).
    + cbn. by rewrite !lookup_insert_eq.
    + cbn. by rewrite settle_in_pending by apply lookup_insert_eq.
Qed.

(** The callback of lines 27-51 followed by the engine's answer, when
    the frame reaches exactly that callback. *)
Lemma envelope_then_answer (s : state) (senderId channelId messageId : string)
    (encryptedMessage : Cipher) (r : awaited Cipher PublicKeys) :
  listeners_for "encrypted-message" s =
    [mkListener "encrypted-message" false OnEncryptedMessage] →
  run [Receive "encrypted-message"
         (EncryptedMessage senderId channelId encryptedMessage messageId);
       Resume (next_handle s) r] s =
  resume JSON_stringify JSON_parse (KDecrypt senderId channelId messageId) r
    (set_suspended (delete (next_handle s))
       (suspend (KDecrypt senderId channelId messageId)
          (invoke (EngineDecrypt senderId encryptedMessage)
             (drop_once "encrypted-message" s)))).
Proof.
  intros Hl. cbn. unfold receive. rewrite Hl. cbn.
  rewrite lookup_insert_eq. cbn.
  apply run_last.
Qed.

(** C10.  When [decryptMessage] succeeds but the plaintext is not valid
    JSON, the handler emits one bundle request for the sender, no
    acknowledgement, and dispatches nothing; the resulting state is the
    one a decryption failure leads to. *)
Theorem unparseable_plaintext_requests_bundle (s : state)
    (senderId channelId messageId : string) (encryptedMessage : Cipher)
    (decryptedContent : string) :
  listeners_for "encrypted-message" s =
    [mkListener "encrypted-message" false OnEncryptedMessage] →
  JSON_parse decryptedContent = None →
  ∃ s',
    run [Receive "encrypted-message"
           (EncryptedMessage senderId channelId encryptedMessage messageId);
         Resume (next_handle s) (ReturnedText decryptedContent)] s = Some s' ∧
    emitted s' = emitted s ++ [RequestPreKeyBundle senderId None] ∧
    dispatched s' = dispatched s ∧
    ∀ error,
      run [Receive "encrypted-message"
             (EncryptedMessage senderId channelId encryptedMessage messageId);
           Resume (next_handle s) (Threw error)] s = Some s'.
Proof.
  intros Hl Hparse.
  pose proof (envelope_then_answer s senderId channelId messageId
                encryptedMessage) as Hrun.
  eexists. split; [|split; [|split]].
  - rewrite Hrun by done. cbn. rewrite Hparse. reflexivity.
  - reflexivity.
  - reflexivity.
  - intros error. by rewrite Hrun.
Qed.

(** *** Case analysis on a step *)

Ltac resume_cases H :=
  match type of H with
  | resume _ _ ?k ?r _ = Some _ =>
      destruct k, r; cbn in H; try discriminate H;
      unfold reject_pending in H; cbn in H;
      repeat match type of H with
        | context [JSON_parse ?x] => destruct (JSON_parse x) eqn:?
        | context [no_session ?e] => destruct (no_session e) eqn:?
        | context [pendingMessages ?s !! ?k] =>
            destruct (pendingMessages s !! k) eqn:?
        | context [if ?b then _ else _] => destruct b eqn:?
        end;
      cbn in H; try discriminate H; injection H as <-
  end.

(** What a socket callback does before its first [await]: one engine
    call, and one parked function that holds no promise. *)
Lemma handle_inv (h : handler) (d : payload Bundle Cipher) (s s' : state) :
  handle h d s = Some s' →
  ∃ k c, s' = suspend k (invoke c s) ∧ ∀ p, ¬ holds k p.
Proof.
  destruct h, d; cbn; intros H; try discriminate H; injection H as <-;
    do 2 eexists; (split; [reflexivity|]); intros p; cbn; tauto.
Qed.

Lemma call_listeners_inv (P : state → Prop) (ls : list listener)
    (d : payload Bundle Cipher) (s s' : state) :
  (∀ k c s1, (∀ p, ¬ holds k p) → P s1 → P (suspend k (invoke c s1))) →
  P s → call_listeners ls d s = Some s' → P s'.
Proof.
  intros Hstep. revert s. induction ls as [|l ls IH]; cbn; intros s Hs H.
  - by injection H as <-.
  - destruct (handle (l_handler l) d s) as [s1|] eqn:Hh; [|done]. cbn in H.
    apply handle_inv in Hh as (k & c & -> & Hk). eapply IH; [|done]. by apply Hstep.
Qed.

(** *** The listener table *)

Lemma step_listeners_ok (ev : event Content Bundle Cipher PublicKeys) (s s' : state) :
  listeners_ok s → step ev s = Some s' → listeners_ok s'.
Proof.
  intros Hs H. destruct ev as [userId|recipientId content|t r|name d|id|ms];
    cbn in H.
  - by injection H as <-.
  - injection H as <-. unfold encryptMessage. cbn.
    by destruct (signalManager s).
  - destruct (suspended s !! t) as [k|]; [|done]. cbn in H.
    resume_cases H; unfold listeners_ok; cbn; try exact Hs;
      intros l Hl; rewrite ?elem_of_app, ?list_elem_of_singleton in Hl;
      destruct_or?; subst; try (by apply Hs);
      unfold registered_by_module; eauto 6.
  - unfold receive in H.
    eapply (call_listeners_inv listeners_ok); [| |exact H].
    + by intros k c s1 _ Hs1.
    + intros l. cbn. rewrite list_elem_of_filter. intros [_ Hl]. by apply Hs.
  - unfold fire in H. destruct (timers s !! id) as [tm|]; [|done]. cbn in H.
    case_decide; [|done]. injection H as <-. unfold reject_pending. cbn.
    by destruct (pendingMessages s !! _).
  - by injection H as <-.
Qed.

Lemma run_invariant (P : state → Prop) :
  (∀ ev s s', P s → step ev s = Some s' → P s') →
  ∀ evs s s', P s → run evs s = Some s' → P s'.
Proof.
  intros Hstep evs. induction evs as [|ev evs IH]; cbn; intros s s' Hs H.
  - by injection H as <-.
  - destruct (step ev s) as [s1|] eqn:Hev; [|done]. cbn in H. eauto.
Qed.

Lemma run_app (evs1 evs2 : list (event Content Bundle Cipher PublicKeys))
    (s : state) :
  run (evs1 ++ evs2) s = run evs1 s ≫= run evs2.
Proof.
  revert s. induction evs1 as [|ev evs1 IH]; intros s; cbn; [done|].
  destruct (step ev s); cbn; [apply IH|done].
Qed.

Lemma reachable_run (evs : list (event Content Bundle Cipher PublicKeys))
    (s s' : state) :
  reachable JSON_stringify JSON_parse s → run evs s = Some s' →
  reachable JSON_stringify JSON_parse s'.
Proof.
  intros (t0 & evs0 & H0) H. exists t0, (evs0 ++ evs).
  rewrite run_app, H0. exact H.
Qed.

Lemma reachable_invariant (P : state → Prop) :
  (∀ t0, P (initial t0)) →
  (∀ ev s s', P s → step ev s = Some s' → P s') →
  ∀ s, reachable JSON_stringify JSON_parse s → P s.
Proof.
  intros Hinit Hstep s (t0 & evs & Hrun).
  eapply run_invariant; [exact Hstep|apply Hinit|exact Hrun].
Qed.

Lemma reachable_listeners_ok (s : state) :
  reachable JSON_stringify JSON_parse s → listeners_ok s.
Proof.
  apply reachable_invariant.
  - intros t0 l. cbn. by rewrite elem_of_nil.
  - apply step_listeners_ok.
Qed.

(** *** No-session recovery *)

Lemma filter_listens_snoc (name : string) (l : listener) (ls : list listener) :
  l_event l = name →
  filter (λ l, listens_to name l = true) (ls ++ [l]) =
  filter (λ l, listens_to name l = true) ls ++ [l].
Proof.
  intros Hname. rewrite filter_app. f_equal.
  rewrite filter_cons_True by (by apply bool_decide_eq_true_2). done.
Qed.

Lemma call_listeners_app (ls1 ls2 : list listener) (d : payload Bundle Cipher)
    (s : state) :
  call_listeners (ls1 ++ ls2) d s =
  call_listeners ls1 d s ≫= call_listeners ls2 d.
Proof.
  revert s. induction ls1 as [|l ls1 IH]; intros s; cbn; [done|].
  destruct (handle (l_handler l) d s); cbn; [apply IH|done].
Qed.

Lemma bundle_event_registered (l : listener) (requestId : string) :
  registered_by_module l → l_event l = bundle_event requestId →
  ∃ recipientId requestId', l_handler l = OnPreKeyBundle recipientId requestId'.
Proof.
  intros [->|[->|(recipientId & requestId' & ->)]] Hname; cbn in Hname;
    try discriminate Hname.
  by exists recipientId, requestId'.
Qed.

Lemma call_bundle_listeners (ls : list listener) (bundle : Bundle) (s : state) :
  (∀ l, l ∈ ls → ∃ recipientId requestId,
     l_handler l = OnPreKeyBundle recipientId requestId) →
  ∃ s', call_listeners ls (BundleResponse bundle) s = Some s' ∧
        parked (length ls) s s'.
Proof.
  revert s. induction ls as [|l ls IH]; intros s Hls; cbn.
  - exists s. unfold parked. by rewrite Nat.add_0_r.
  - destruct (Hls l) as (recipientId & requestId & ->); [apply elem_of_cons; by left|].
    cbn.
    destruct (IH (suspend (KBundleProcessed recipientId requestId)
                    (invoke (ProcessPreKeyBundle recipientId bundle) s)))
      as (s' & -> & Hs').
    { intros l' Hl'. apply Hls, elem_of_cons. by right. }
    exists s'. split; [done|]. unfold parked in *. cbn in Hs'.
    destruct Hs' as (?&?&?&?&?&?&?&?&->). repeat split; try done.
Qed.

(** The state after a call whose encryption failed with "No session". *)
Lemma enqueue_after_call (s : state) (manager recipientId : string)
    (content : Content) (error : Error) :
  signalManager s = Some manager →
  no_session error = true →
  run [CallEncryptMessage recipientId content;
       Resume (S (next_handle s)) (Threw error)] s =
  Some (enqueue recipientId content (next_handle s)
          (set_suspended (delete (S (next_handle s)))
             (suspend (KEncrypt recipientId content (next_handle s))
                (invoke (EngineEncrypt recipientId (JSON_stringify content))
                   (fresh (set_promises (insert (next_handle s) Pending) s)))))).
Proof.
  intros Hm Herr. rewrite (encrypt_then_answer _ _ _ _ _ Hm).
  rewrite (encryptMessage_initialized _ _ _ _ Hm). cbn. by rewrite Herr.
Qed.

(** A bundle response reaching the listener registered last. *)
Lemma receive_bundle_snoc (recipientId requestId : string) (bundle : Bundle)
    (ls : list listener) (s sm : state) :
  listeners_for (bundle_event requestId) s =
    ls ++ [mkListener (bundle_event requestId) true
             (OnPreKeyBundle recipientId requestId)] →
  call_listeners ls (BundleResponse bundle)
    (drop_once (bundle_event requestId) s) = Some sm →
  step (Receive (bundle_event requestId) (BundleResponse bundle)) s =
  Some (suspend (KBundleProcessed recipientId requestId)
          (invoke (ProcessPreKeyBundle recipientId bundle) sm)).
Proof.
  intros Hls Hcall. cbn -[listeners_for drop_once]. unfold receive.
  by rewrite Hls, call_listeners_app, Hcall.
Qed.

(** Lines 107-114, when the registry still holds the entry. *)
Lemma resume_bundle_processed (recipientId requestId : string)
    (pendingMessage : PendingMessage Content) (s : state) :
  pendingMessages s !! requestId = Some pendingMessage →
  resume JSON_stringify JSON_parse
    (KBundleProcessed recipientId requestId) Returned s =
  Some (suspend (KRetryEncrypt recipientId requestId pendingMessage)
          (invoke (EngineEncrypt recipientId
                     (JSON_stringify (pm_content pendingMessage))) s)).
Proof. intros Hpm. cbn. by rewrite Hpm. Qed.

(** Every listener the frame reaches parks its callback. *)
Lemma call_bundle_listeners_spawn (ls : list listener) (bundle : Bundle)
    (s : state) :
  (∀ l, l ∈ ls → ∃ recipientId requestId,
     l_handler l = OnPreKeyBundle recipientId requestId) →
  ∃ s', call_listeners ls (BundleResponse bundle) s = Some s' ∧
        parked (length ls) s s' ∧
        (∀ t, (t < next_handle s)%nat → suspended s' !! t = suspended s !! t) ∧
        (∀ c, c ∈ engine_calls s → c ∈ engine_calls s') ∧
        (∀ l recipientId requestId,
           l ∈ ls → l_handler l = OnPreKeyBundle recipientId requestId →
           ProcessPreKeyBundle recipientId bundle ∈ engine_calls s' ∧
           ∃ t, suspended s' !! t = Some (KBundleProcessed recipientId requestId)).
Proof.
  revert s. induction ls as [|l ls IH]; intros s Hls; cbn.
  - exists s. split; [done|]. split; [|split; [done|split; [done|]]].
    + unfold parked. by rewrite Nat.add_0_r.
    + intros l recipientId requestId Hl. by apply elem_of_nil in Hl.
  - destruct (Hls l) as (recipientId & requestId & Hl); [apply elem_of_cons; by left|].
    rewrite Hl. cbn.
    destruct (IH (suspend (KBundleProcessed recipientId requestId)
                    (invoke (ProcessPreKeyBundle recipientId bundle) s)))
      as (s' & -> & Hparked & Hkeep & Hcalls & Hspawn).
    { intros l' Hl'. apply Hls, elem_of_cons. by right. }
    exists s'. split; [done|]. cbn in Hkeep, Hcalls.
    split; [|split; [|split]].
    + unfold parked in *. cbn in Hparked.
      destruct Hparked as (?&?&?&?&?&?&?&?&->). repeat split; try done.
    + intros t Ht. rewrite Hkeep by lia. by rewrite lookup_insert_ne by lia.
    + intros c Hc. apply Hcalls, elem_of_app. by left.
    + intros l' recipientId' requestId' [->|Hl']%elem_of_cons Hh.
      * rewrite Hl in Hh. injection Hh as <- <-. split.
        -- apply Hcalls, elem_of_app. right. by apply list_elem_of_singleton.
        -- exists (next_handle s). rewrite Hkeep by lia. apply lookup_insert_eq.
      * by apply Hspawn with l'.
Qed.

(** No-session recovery with its events in sequence and nothing in
    between: the call fails with "No session" and emits its one frame,
    the frame [pre-key-bundle-<requestId>] arrives, [processPreKeyBundle]
    succeeds, and so does the second encryption, whose ciphertext
    resolves the promise of the call. *)
Lemma no_session_recovery_in_sequence (s : state) (manager recipientId : string)
    (content : Content) (error : Error) (bundle : Bundle)
    (encryptedMessage : Cipher) :
  reachable JSON_stringify JSON_parse s →
  signalManager s = Some manager →
  no_session error = true →
  let p := next_handle s in
  let requestId := make_requestId recipientId (clock s) in
  let t := (p + 3 + length (listeners_for (bundle_event requestId) s))%nat in
  ∃ s2 s5,
    run [CallEncryptMessage recipientId content;
         Resume (S p) (Threw error)] s = Some s2 ∧
    emitted s2 = emitted s ++
      [RequestPreKeyBundle recipientId (Some requestId)] ∧
    run [Receive (bundle_event requestId) (BundleResponse bundle);
         Resume t Returned;
         Resume (S t) (ReturnedCipher encryptedMessage)] s2 = Some s5 ∧
    last (engine_calls s5) =
      Some (EngineEncrypt recipientId (JSON_stringify content)) ∧
    promises s5 !! p = Some (Resolved encryptedMessage) ∧
    pendingMessages s5 !! requestId = None ∧
    emitted s5 = emitted s2.
Proof.
  intros Hreach Hm Herr p requestId t. subst p requestId t.
  apply reachable_listeners_ok in Hreach.
  pose proof (enqueue_after_call s manager recipientId content error Hm Herr)
    as Hrun2.
  match type of Hrun2 with _ = Some ?x => set (s2 := x) in * end.
  destruct (call_bundle_listeners
              (listeners_for (bundle_event (make_requestId recipientId (clock s))) s)
              bundle
              (drop_once (bundle_event (make_requestId recipientId (clock s))) s2))
    as (sm & Hcall & Hsm).
  { intros l [Hname Hl]%list_elem_of_filter.
    apply bool_decide_eq_true_1 in Hname.
    eapply bundle_event_registered; [by apply Hreach|done]. }
  destruct Hsm as (_ & Hpending & _ & _ & Hpromises & Hemitted & _ & _ & Hnext).
  assert (next_handle sm =
          next_handle s + 3 +
          length (listeners_for
                    (bundle_event (make_requestId recipientId (clock s))) s))%nat
    as Ht by (rewrite Hnext; cbn; lia).
  assert (pendingMessages sm !! make_requestId recipientId (clock s) =
          Some (mkPending recipientId content (next_handle s) (next_handle s)))
    as Hentry by (rewrite Hpending; apply lookup_insert_eq).
  assert (promises sm !! next_handle s = Some Pending) as Hp
    by (rewrite Hpromises; apply lookup_insert_eq).
  assert (step (Receive (bundle_event (make_requestId recipientId (clock s)))
                  (BundleResponse bundle)) s2 =
          Some (suspend (KBundleProcessed recipientId
                           (make_requestId recipientId (clock s)))
                  (invoke (ProcessPreKeyBundle recipientId bundle) sm)))
    as Hrecv.
  { apply (receive_bundle_snoc recipientId _ bundle
             (listeners_for
                (bundle_event (make_requestId recipientId (clock s))) s) s2 sm);
      [|exact Hcall].
    unfold listeners_for. cbn. by apply filter_listens_snoc. }
  rewrite <- Ht.
  exists s2. eexists. split; [exact Hrun2|]. split; [reflexivity|]. split.
  { rewrite (run_step _ _ _ _ Hrecv).
    erewrite run_step;
      [|rewrite (step_resume_parked _ _ (invoke _ sm));
        by apply resume_bundle_processed].
    rewrite run_one. etransitivity; [apply step_resume_parked|reflexivity]. }
  split; [|split; [|split]].
  - cbn. by rewrite last_snoc.
  - cbn. by apply settle_in_pending.
  - cbn. apply lookup_delete_eq.
  - cbn. exact Hemitted.
Qed.

(** *** Promises nobody can settle *)

Ltac lookup_cases :=
  repeat match goal with
    | H : <[_:=_]> _ !! _ = Some _ |- _ =>
        apply lookup_insert_Some in H as [[? ?]|[? H]]; simplify_eq
    | H : delete _ _ !! _ = Some _ |- _ =>
        apply lookup_delete_Some in H as [? H]
    end.

Lemma step_orphaned (p : nat) (ev : event Content Bundle Cipher PublicKeys)
    (s s' : state) :
  orphaned p s → step ev s = Some s' → orphaned p s'.
Proof.
  intros (Hlt & Hp & Hreg & Hheld) H.
  assert (∀ requestId pendingMessage o,
            pendingMessages s !! requestId = Some pendingMessage →
            settle_in (pm_reject pendingMessage) o (promises s) !! p = Some Pending)
    as Hrej.
  { intros requestId pm o Hpm. rewrite settle_in_other; [done|].
    by apply (Hreg _ _ Hpm). }
  destruct ev as [userId|recipientId content|t r|name d|id|ms]; cbn in H.
  - injection H as <-. split; [|split; [|split]]; cbn; [lia|done|done|].
    intros t k Hk. lookup_cases; cbn; eauto.
  - injection H as <-. unfold encryptMessage. cbn.
    destruct (signalManager s); (split; [|split; [|split]]); cbn;
      try lia; try done.
    + by rewrite lookup_insert_ne by lia.
    + intros t k Hk. lookup_cases; cbn; eauto. lia.
    + rewrite settle_in_other by lia. by rewrite lookup_insert_ne by lia.
  - destruct (suspended s !! t) as [k|] eqn:Hk; [|done]. cbn in H.
    pose proof (Hheld _ _ Hk) as Hkp.
    resume_cases H; cbn in Hkp; (split; [|split; [|split]]); cbn;
      try lia; try done.
    all: try (by eapply Hrej).
    all: try (by rewrite settle_in_other by tauto).
    all: intros ? ? Hin; lookup_cases; cbn; eauto; try tauto.
    all: match goal with
         | Hpm : pendingMessages _ !! _ = Some _ |- _ =>
             destruct (Hreg _ _ Hpm); tauto
         end.
  - eapply (call_listeners_inv (orphaned p)); [| |exact H].
    + intros k c s1 Hk (Hlt1 & Hp1 & Hreg1 & Hheld1).
      split; [|split; [|split]]; cbn; [lia|done|done|].
      intros t k' Hk'. lookup_cases; cbn; eauto.
    + by split; [|split; [|split]].
  - unfold fire in H. destruct (timers s !! id) as [tm|]; [|done]. cbn in H.
    case_decide; [|done]. injection H as <-. unfold reject_pending. cbn.
    destruct (pendingMessages s !! _) eqn:Hpm;
      (split; [|split; [|split]]); cbn; try done.
    + by eapply Hrej.
    + intros ? ? ?; lookup_cases; eauto.
  - injection H as <-. by split; [|split; [|split]].
Qed.

(** *** The registry invariant *)

Ltac split3 := split; [|split].

Lemma registry_entry_bound (s : state) :
  registry_ok s →
  ∀ requestId pendingMessage,
    pendingMessages s !! requestId = Some pendingMessage →
    (pm_reject pendingMessage < next_handle s)%nat.
Proof.
  intros Hs requestId pm Hpm. destruct (entry_pending _ Hs _ _ Hpm) as [_ Hp].
  by apply (promise_bound _ Hs _ _ Hp).
Qed.

Lemma registry_held_bound (s : state) :
  registry_ok s →
  ∀ t k p, suspended s !! t = Some k → holds k p → (p < next_handle s)%nat.
Proof.
  intros Hs t k p Hk Hp. destruct k; cbn in Hp; try done.
  - subst. destruct (encrypt_exclusive _ Hs _ _ _ _ Hk) as [Hq _].
    by apply (promise_bound _ Hs _ _ Hq).
  - destruct (retry_entry _ Hs _ _ _ _ Hk) as (Heq & [o Ho] & _).
    assert (pm_reject pendingMessage = p) as <- by (destruct Hp; congruence).
    by apply (promise_bound _ Hs _ _ Ho).
Qed.

Lemma initial_registry_ok (t0 : N) : registry_ok (initial t0 : state).
Proof. by constructor. Qed.

(** Steps that leave the registry and the promises alone, and only
    remove parked functions or park ones that hold no promise. *)
Lemma registry_ok_weaken (s s' : state) :
  registry_ok s →
  pendingMessages s' = pendingMessages s →
  promises s' = promises s →
  (next_handle s ≤ next_handle s')%nat →
  (∀ t k, suspended s' !! t = Some k →
          suspended s !! t = Some k ∨ ∀ p, ¬ holds k p) →
  registry_ok s'.
Proof.
  intros [Hpend Huniq Hexcl Hretry Hbound] Hpm Hpr Hnext Hheld.
  constructor; rewrite ?Hpm, ?Hpr; try done.
  - intros t recipientId content p Hk.
    destruct (Hheld _ _ Hk) as [Hk'|Hno]; [|by destruct (Hno p)].
    destruct (Hexcl _ _ _ _ Hk') as (? & ? & Hothers).
    split3; [done|done|]. intros t' k Hkt' Hne.
    destruct (Hheld _ _ Hkt') as [?|Hno]; [eauto|apply Hno].
  - intros t recipientId requestId pm Hk.
    destruct (Hheld _ _ Hk) as [Hk'|Hno]; [eauto|].
    destruct (Hno (pm_resolve pm)). cbn. by left.
  - intros p o Hp. apply Hbound in Hp. lia.
Qed.

Lemma registry_ok_finish (s : state) (t : nat) :
  registry_ok s → registry_ok (set_suspended (delete t) s).
Proof.
  intros Hs. apply (registry_ok_weaken s); try done.
  intros t' k Hk. cbn in Hk. lookup_cases. by left.
Qed.

Lemma registry_ok_park (s : state) (k : continuation Content) :
  registry_ok s → (∀ p, ¬ holds k p) → registry_ok (suspend k s).
Proof.
  intros Hs Hk. apply (registry_ok_weaken s); try done; cbn; [lia|].
  intros t' k' Hk'. lookup_cases; [by right|by left].
Qed.

(** Lines 121-125 and 131-135. *)
Lemma registry_ok_reject_pending (s : state) (requestId : string) (error : Error) :
  registry_ok s → registry_ok (reject_pending requestId error s).
Proof.
  intros Hs. unfold reject_pending.
  destruct (pendingMessages s !! requestId) as [pm|] eqn:Hpm; [|done].
  destruct Hs as [Hpend Huniq Hexcl Hretry Hbound]. constructor; cbn.
  - intros requestId' pm' Hpm'. lookup_cases.
    destruct (Hpend _ _ Hpm') as [? ?]. split; [done|].
    rewrite settle_in_other; [done|]. intros Heq.
    by destruct (Huniq _ _ _ _ Hpm Hpm' Heq).
  - intros requestId1 requestId2 pm1 pm2 H1 H2. lookup_cases. eauto.
  - intros t recipientId content p Hk.
    destruct (Hexcl _ _ _ _ Hk) as (Hp & Hno & Hothers).
    split3; [|..|done].
    + rewrite settle_in_other; [done|]. by apply (Hno _ _ Hpm).
    + intros requestId' pm' Hpm'. lookup_cases. eauto.
  - intros t recipientId requestId' pm' Hk.
    destruct (Hretry _ _ _ _ Hk) as (? & ? & Hat).
    split3; [done|by apply settle_in_is_Some|].
    intros requestId2 pm2 H2. lookup_cases. eauto.
  - intros p o Hp. apply mk_is_Some, settle_in_is_Some in Hp as [o' Hp]. eauto.
Qed.

(** Line 85 and line 140: the call settles its own promise. *)
Lemma registry_ok_settle_call (s : state) (t : nat) (recipientId : string)
    (content : Content) (p : nat) (o : promise Cipher) :
  registry_ok s →
  suspended s !! t = Some (KEncrypt recipientId content p) →
  registry_ok (settle p o (set_suspended (delete t) s)).
Proof.
  intros [Hpend Huniq Hexcl Hretry Hbound] Hk.
  destruct (Hexcl _ _ _ _ Hk) as (Hp & Hno & Hothers). constructor; cbn.
  - intros requestId pm Hpm. destruct (Hpend _ _ Hpm) as [? ?].
    split; [done|]. rewrite settle_in_other; [done|].
    intros Heq. by apply (Hno _ _ Hpm).
  - done.
  - intros t' recipientId' content' p' Hk'. lookup_cases.
    destruct (Hexcl _ _ _ _ Hk') as (Hp' & Hno' & Hothers').
    split3; [|done|].
    + rewrite settle_in_other; [done|]. intros <-.
      by apply (Hothers _ _ Hk').
    + intros t2 k2 Hk2 Hne. lookup_cases. eauto.
  - intros t' recipientId' requestId pm Hk'. lookup_cases.
    destruct (Hretry _ _ _ _ Hk') as (? & ? & ?).
    split3; [done|by apply settle_in_is_Some|done].
  - intros q o' Hq. apply mk_is_Some, settle_in_is_Some in Hq as [o2 Hq]. eauto.
Qed.

(** Lines 89-137. *)
Lemma registry_ok_enqueue (s : state) (t : nat) (recipientId : string)
    (content : Content) (p : nat) :
  registry_ok s →
  suspended s !! t = Some (KEncrypt recipientId content p) →
  registry_ok (enqueue recipientId content p (set_suspended (delete t) s)).
Proof.
  intros [Hpend Huniq Hexcl Hretry Hbound] Hk.
  destruct (Hexcl _ _ _ _ Hk) as (Hp & Hno & Hothers). constructor; cbn.
  - intros requestId pm Hpm. lookup_cases; cbn; eauto.
  - intros requestId1 requestId2 pm1 pm2 H1 H2 Heq. lookup_cases; cbn in *;
      try done; eauto.
    + by destruct (Hno _ _ H1).
    + by destruct (Hno _ _ H2).
  - intros t' recipientId' content' p' Hk'. lookup_cases.
    destruct (Hexcl _ _ _ _ Hk') as (Hp' & Hno' & Hothers').
    split3; [done| |].
    + intros requestId pm Hpm. lookup_cases; cbn; eauto.
      intros ->. by apply (Hothers _ _ Hk').
    + intros t2 k2 Hk2 Hne. lookup_cases. eauto.
  - intros t' recipientId' requestId pm Hk'. lookup_cases.
    destruct (Hretry _ _ _ _ Hk') as (Heq & ? & Hat).
    split3; [done|done|].
    intros requestId2 pm2 H2 Heq2. lookup_cases; cbn in *; eauto.
    destruct (Hothers _ _ Hk'); [done|]. cbn. by right.
  - intros q o Hq. apply Hbound in Hq. lia.
Qed.

(** Lines 110-114: the callback takes the entry out of the registry
    and parks on the second encryption. *)
Lemma registry_ok_retry (s : state) (recipientId requestId : string)
    (pendingMessage : PendingMessage Content) :
  registry_ok s →
  pendingMessages s !! requestId = Some pendingMessage →
  registry_ok (suspend (KRetryEncrypt recipientId requestId pendingMessage) s).
Proof.
  intros [Hpend Huniq Hexcl Hretry Hbound] Hpm.
  destruct (Hpend _ _ Hpm) as [Heq Hp]. constructor; cbn; try done.
  - intros t' recipientId' content' p' Hk'. lookup_cases.
    destruct (Hexcl _ _ _ _ Hk') as (Hp' & Hno' & Hothers').
    split3; [done|done|].
    intros t2 k2 Hk2 Hne. lookup_cases; eauto. cbn.
    intros [?|?]; apply (Hno' _ _ Hpm); congruence.
  - intros t' recipientId' requestId' pm' Hk'. lookup_cases; eauto.
  - intros q o Hq. apply Hbound in Hq. lia.
Qed.

(** Lines 117-118. *)
Lemma registry_ok_resolve (s : state) (t : nat) (recipientId requestId : string)
    (pendingMessage : PendingMessage Content) (o : promise Cipher) :
  registry_ok s →
  suspended s !! t = Some (KRetryEncrypt recipientId requestId pendingMessage) →
  registry_ok (set_pendingMessages (delete requestId)
                 (settle (pm_resolve pendingMessage) o
                    (set_suspended (delete t) s))).
Proof.
  intros [Hpend Huniq Hexcl Hretry Hbound] Hk.
  destruct (Hretry _ _ _ _ Hk) as (Heq & Hsome & Hat). constructor; cbn.
  - intros requestId' pm' Hpm'. lookup_cases.
    destruct (Hpend _ _ Hpm') as [? ?]. split; [done|].
    rewrite settle_in_other; [done|]. rewrite Heq. intros Heq'.
    by destruct (Hat _ _ Hpm').
  - intros requestId1 requestId2 pm1 pm2 H1 H2. lookup_cases. eauto.
  - intros t' recipientId' content' p' Hk'. lookup_cases.
    destruct (Hexcl _ _ _ _ Hk') as (Hp' & Hno' & Hothers').
    split3.
    + rewrite settle_in_other; [done|]. intros <-.
      apply (Hothers' _ _ Hk); [done|]. cbn. by left.
    + intros requestId' pm' Hpm'. lookup_cases. eauto.
    + intros t2 k2 Hk2 Hne. lookup_cases. eauto.
  - intros t' recipientId' requestId' pm' Hk'. lookup_cases.
    destruct (Hretry _ _ _ _ Hk') as (? & ? & Hat').
    split3; [done|by apply settle_in_is_Some|].
    intros requestId2 pm2 H2. lookup_cases. eauto.
  - intros q o' Hq. apply mk_is_Some, settle_in_is_Some in Hq as [o2 Hq]. eauto.
Qed.

(** Lines 78-84. *)
Lemma registry_ok_call (s : state) (recipientId : string) (content : Content) :
  registry_ok s →
  registry_ok (encryptMessage JSON_stringify recipientId content s).
Proof.
  intros Hs.
  pose proof (registry_entry_bound s Hs) as Hentry.
  pose proof (registry_held_bound s Hs) as Hheld.
  destruct Hs as [Hpend Huniq Hexcl Hretry Hbound].
  unfold encryptMessage. cbn.
  destruct (signalManager s); constructor; cbn; try done.
  - intros requestId pm Hpm. destruct (Hpend _ _ Hpm) as [? ?].
    split; [done|]. rewrite lookup_insert_ne; [done|].
    apply Hentry in Hpm. lia.
  - intros t recipientId' content' p Hk. lookup_cases.
    + rewrite lookup_insert_eq. split3; [done| |].
      * intros requestId pm Hpm. apply Hentry in Hpm. lia.
      * intros t' k Hk' Hne Hh. lookup_cases.
         apply (Hheld _ _ _ Hk') in Hh. lia.
    + destruct (Hexcl _ _ _ _ Hk) as (Hp & ? & Hothers).
      split3; [|done|].
      * rewrite lookup_insert_ne; [done|]. apply Hbound in Hp. lia.
      * intros t' k Hk' Hne. lookup_cases; eauto. cbn.
         apply Hbound in Hp. lia.
  - intros t recipientId' requestId pm Hk. lookup_cases.
    destruct (Hretry _ _ _ _ Hk) as (? & [o Ho] & ?).
    split3; [done| |done]. rewrite lookup_insert_ne; [eauto|].
    apply Hbound in Ho. lia.
  - intros p o Hp. lookup_cases; [lia|]. apply Hbound in Hp. lia.
  - intros requestId pm Hpm. destruct (Hpend _ _ Hpm) as [? ?].
    split; [done|]. apply Hentry in Hpm.
    rewrite settle_in_other by lia. rewrite lookup_insert_ne by lia. done.
  - intros t recipientId' content' p Hk.
    destruct (Hexcl _ _ _ _ Hk) as (Hp & ? & Hothers).
    split3; [|done|done]. apply Hbound in Hp as Hlt.
    rewrite settle_in_other by lia. by rewrite lookup_insert_ne by lia.
  - intros t recipientId' requestId pm Hk.
    destruct (Hretry _ _ _ _ Hk) as (? & Ho & ?).
    split3; [done| |done]. apply settle_in_is_Some.
    destruct Ho as [o Ho]. apply Hbound in Ho as Hlt.
    rewrite lookup_insert_ne by lia. eauto.
  - intros p o Hp. apply mk_is_Some, settle_in_is_Some in Hp as [o' Hp].
    lookup_cases; [lia|]. apply Hbound in Hp. lia.
Qed.

Ltac registry_frame :=
  first
    [ assumption
    | apply registry_ok_park; [registry_frame|by intros ?; cbn; tauto]
    | eapply registry_ok_weaken;
        [eassumption|reflexivity|reflexivity|cbn; lia|by intros ? ? ?; left] ].

Lemma step_registry_ok (ev : event Content Bundle Cipher PublicKeys) (s s' : state) :
  registry_ok s → step ev s = Some s' → registry_ok s'.
Proof.
  intros Hs H.
  destruct ev as [userId|recipientId content|t r|name d|id|ms]; cbn in H.
  - injection H as <-. unfold initializeEncryption. registry_frame.
  - injection H as <-. by apply registry_ok_call.
  - destruct (suspended s !! t) as [k|] eqn:Hk; [|done]. cbn in H.
    pose proof (registry_ok_finish s t Hs) as Hs'.
    destruct k, r; cbn in H; try discriminate H;
      repeat match type of H with
        | context [JSON_parse ?x] => destruct (JSON_parse x) eqn:?
        | context [no_session ?e] => destruct (no_session e) eqn:?
        | context [if ?b then _ else _] => destruct b eqn:?
        | context [match pendingMessages ?s !! ?k with _ => _ end] =>
            destruct (pendingMessages s !! k) eqn:?
        end;
      injection H as <-;
      eauto using registry_ok_reject_pending, registry_ok_settle_call,
        registry_ok_enqueue, registry_ok_resolve;
      try registry_frame.
    apply registry_ok_retry; [registry_frame|done].
  - eapply (call_listeners_inv registry_ok); [| |exact H].
    + intros k c s1 Hk Hs1. apply registry_ok_park; [registry_frame|done].
    + unfold drop_once. registry_frame.
  - unfold fire in H. destruct (timers s !! id) as [tm|]; [|done]. cbn in H.
    case_decide; [|done]. injection H as <-.
    apply registry_ok_reject_pending. registry_frame.
  - injection H as <-. registry_frame.
Qed.

Lemma reachable_registry_ok (s : state) :
  reachable JSON_stringify JSON_parse s → registry_ok s.
Proof.
  apply reachable_invariant; [apply initial_registry_ok|apply step_registry_ok].
Qed.
(** *** Colliding request ids *)

(** C2.  Two calls for the same recipient whose encryptions both fail
    with a "No session" error in the same millisecond build the same
    [requestId]: the second entry replaces the first in the registry,
    and from then on, whatever happens, the promise returned by the
    first call stays pending. *)
Theorem colliding_request_never_settles (s : state) (manager recipientId : string)
    (content content' : Content) (error error' : Error) :
  reachable JSON_stringify JSON_parse s →
  signalManager s = Some manager →
  no_session error = true →
  no_session error' = true →
  let p := next_handle s in
  ∃ s4,
    run [CallEncryptMessage recipientId content;
         Resume (S p) (Threw error);
         CallEncryptMessage recipientId content';
         Resume (p + 4) (Threw error')] s = Some s4 ∧
    pendingMessages s4 !! make_requestId recipientId (clock s) =
      Some (mkPending recipientId content' (p + 3) (p + 3)) ∧
    ∀ evs s', run evs s4 = Some s' → promises s' !! p = Some Pending.
Proof.
  intros Hreach Hm Herr Herr' p. subst p.
  apply reachable_registry_ok in Hreach as Hs.
  pose proof (registry_entry_bound s Hs) as Hentry.
  pose proof (registry_held_bound s Hs) as Hheld.
  pose proof (enqueue_after_call s manager recipientId content error Hm Herr)
    as Hrun.
  match type of Hrun with _ = Some ?x => set (s2 := x) in * end.
  pose proof (enqueue_after_call s2 manager recipientId content' error' Hm Herr')
    as Hrun'.
  match type of Hrun' with _ = Some ?x => set (s4 := x) in * end.
  exists s4. split; [|split].
  - pose proof (run_app
                  [CallEncryptMessage recipientId content;
                   Resume (S (next_handle s)) (Threw error)]
                  [CallEncryptMessage recipientId content';
                   Resume (next_handle s + 4) (Threw error')] s) as Happ.
    simpl app in Happ. rewrite Happ. clear Happ.
    rewrite Hrun. cbn [mbind option_bind].
    replace (next_handle s + 4)%nat with (S (next_handle s2)) by (cbn; lia).
    exact Hrun'.
  - cbn. replace (S (S (S (next_handle s)))) with (next_handle s + 3)%nat by lia.
    apply lookup_insert_eq.
  - intros evs s' Hevs.
    assert (orphaned (next_handle s) s4) as Horph.
    { split; [|split; [|split]]; cbn.
      - lia.
      - rewrite lookup_insert_ne by lia. apply lookup_insert_eq.
      - intros requestId pm Hpm. lookup_cases; cbn; [lia|].
        destruct (entry_pending _ Hs _ _ Hpm) as [-> _].
        apply Hentry in Hpm. lia.
      - intros t k Hk Hh. lookup_cases. apply (Hheld _ _ _ Hk) in Hh.
        lia. }
    by destruct (run_invariant _ (step_orphaned (next_handle s)) evs s4 s' Horph Hevs)
      as (_ & ? & _).
Qed.

(** *** Listeners and late responses *)

(** A settled promise keeps its outcome. *)
Lemma step_settled_with (p : nat) (o : promise Cipher)
    (ev : event Content Bundle Cipher PublicKeys) (s s' : state) :
  settled_with p o s → step ev s = Some s' → settled_with p o s'.
Proof.
  intros (Hp & Ho & Hset) H.
  assert (∀ q o', settle_in q o' (promises s) !! p = Some o) as Hkeep.
  { intros q o'. by apply settle_in_settled. }
  destruct ev as [userId|recipientId content|t r|name d|id|ms]; cbn in H.
  - injection H as <-. split; [|split]; cbn; [lia|done|done].
  - injection H as <-. unfold encryptMessage. cbn.
    destruct (signalManager s); (split; [|split]); cbn; try lia; try done.
    + by rewrite lookup_insert_ne by lia.
    + apply settle_in_settled; [|done]. by rewrite lookup_insert_ne by lia.
  - destruct (suspended s !! t) as [k|] eqn:Hk; [|done]. cbn in H.
    resume_cases H; (split; [|split]); cbn; try lia; done.
  - eapply (call_listeners_inv (settled_with p o)); [| |exact H].
    + intros k c s1 Hk (Hp1 & Ho1 & _). split; [|split]; cbn; [lia|done|done].
    + by split; [|split].
  - unfold fire in H. destruct (timers s !! id) as [tm|]; [|done]. cbn in H.
    case_decide; [|done]. injection H as <-. unfold reject_pending. cbn.
    destruct (pendingMessages s !! _); (split; [|split]); cbn; done.
  - injection H as <-. by split; [|split].
Qed.

(** Which listeners a frame leaves in the table. *)
Lemma receive_listeners (name : string) (d : payload Bundle Cipher) (s s' : state) :
  receive name d s = Some s' →
  listeners s' =
  filter (λ l, (listens_to name l && l_once l) = false) (listeners s).
Proof.
  unfold receive. intros H.
  eapply (call_listeners_inv
            (λ s1, listeners s1 =
                   filter (λ l, (listens_to name l && l_once l) = false)
                     (listeners s))); [| |exact H].
  - by intros k c s1 _ Hs1.
  - done.
Qed.

Lemma filter_unheard (name : string) (ls : list listener) :
  filter (λ l, listens_to name l = true) ls = [] →
  filter (λ l, (listens_to name l && l_once l) = false) ls = ls.
Proof.
  induction ls as [|l ls IH]; [done|]. rewrite !filter_cons.
  destruct (decide (listens_to name l = true)) as [|Hl]; [done|].
  intros Hnone. rewrite decide_True.
  - f_equal. by apply IH.
  - by destruct (listens_to name l).
Qed.

(** A frame that no listener is registered for changes nothing. *)
Lemma receive_unheard (name : string) (d : payload Bundle Cipher) (s : state) :
  listeners_for name s = [] → receive name d s = Some s.
Proof.
  intros Hnone. unfold receive. rewrite Hnone. cbn. f_equal.
  unfold drop_once, set_listeners. rewrite filter_unheard by done.
  by destruct s.
Qed.

(** After a bundle response was delivered, no listener is left for it. *)
Lemma bundle_listeners_dropped (requestId : string) (d : payload Bundle Cipher)
    (s s' : state) :
  listeners_ok s →
  receive (bundle_event requestId) d s = Some s' →
  listeners_for (bundle_event requestId) s' = [].
Proof.
  intros Hok H. apply receive_listeners in H. unfold listeners_for.
  rewrite H. clear H. apply elem_of_nil_inv. intros l.
  rewrite !list_elem_of_filter. intros (Hname & Hkeep & Hl).
  apply bool_decide_eq_true_1 in Hname as Hevent.
  destruct (Hok l Hl) as [->|[->|(recipientId & requestId' & ->)]];
    cbn in Hevent; try discriminate Hevent.
  rewrite Hname in Hkeep. discriminate Hkeep.
Qed.


Lemma receive_bundle_response (requestId : string) (bundle : Bundle) (s : state) :
  listeners_ok s →
  ∃ s', receive (bundle_event requestId) (BundleResponse bundle) s = Some s' ∧
        parked (length (listeners_for (bundle_event requestId) s))
          (drop_once (bundle_event requestId) s) s'.
Proof.
  intros Hok. apply call_bundle_listeners.
  intros l [Hname Hl]%list_elem_of_filter.
  apply bool_decide_eq_true_1 in Hname.
  eapply bundle_event_registered; [by apply Hok|done].
Qed.

Lemma fire_due (id : nat) (tm : timer) (s : state) :
  timers s !! id = Some tm → t_due tm ≤ clock s →
  fire id s =
  Some (reject_pending (t_requestId tm) timeout_error
          (set_timers (delete id) s)).
Proof. intros Htm Hdue. unfold fire. rewrite Htm. cbn. by rewrite decide_True. Qed.

Lemma reject_pending_entry (requestId : string) (error : Error)
    (pendingMessage : PendingMessage Content) (s : state) :
  pendingMessages s !! requestId = Some pendingMessage →
  reject_pending requestId error s =
  set_pendingMessages (delete requestId)
    (settle (pm_reject pendingMessage) (Rejected error) s).
Proof. intros Hpm. unfold reject_pending. by rewrite Hpm. Qed.

(** A due timer firing while the registry still holds its entry. *)
Lemma timeout_fires (id : nat) (due ms : N) (requestId : string)
    (pendingMessage : PendingMessage Content) (s : state) :
  timers s !! id = Some (mkTimer due requestId) →
  pendingMessages s !! requestId = Some pendingMessage →
  promises s !! pm_reject pendingMessage = Some Pending →
  due ≤ clock s + ms →
  ∃ s4,
    run [Elapse ms; TimerFires id] s = Some s4 ∧
    listeners s4 = listeners s ∧
    pendingMessages s4 !! requestId = None ∧
    promises s4 !! pm_reject pendingMessage = Some (Rejected timeout_error) ∧
    next_handle s4 = next_handle s.
Proof.
  intros Htm Hpm Hp Hdue. eexists. split.
  { erewrite run_step; [|reflexivity]. rewrite run_one.
    etransitivity; [by apply (fire_due _ _ (advance ms s) Htm)|].
    cbn [t_requestId].
    by rewrite (reject_pending_entry _ _ pendingMessage) by exact Hpm. }
  cbn. split; [done|]. split; [apply lookup_delete_eq|].
  split; [by apply settle_in_pending|done].
Qed.

(** What lines 89-137 leave behind. *)
Lemma enqueue_facts (recipientId : string) (content : Content) (p : nat)
    (s : state) :
  let requestId := make_requestId recipientId (clock s) in
  let s2 := enqueue recipientId content p s in
  timers s2 !! next_handle s = Some (mkTimer (clock s + 10000) requestId) ∧
  pendingMessages s2 !! requestId =
    Some (mkPending recipientId content p p) ∧
  listeners s2 = listeners s ++
    [mkListener (bundle_event requestId) true
       (OnPreKeyBundle recipientId requestId)] ∧
  promises s2 = promises s ∧
  clock s2 = clock s ∧
  next_handle s2 = S (next_handle s).
Proof. cbn. by rewrite !lookup_insert_eq. Qed.

(** The state after a call whose encryption failed with "No session",
    once its timer has fired. *)
Lemma timeout_after_call (s : state) (manager recipientId : string)
    (content : Content) (error : Error) (ms : N) :
  signalManager s = Some manager →
  no_session error = true →
  10000 ≤ ms →
  ∃ s2 s4,
    run [CallEncryptMessage recipientId content;
         Resume (S (next_handle s)) (Threw error)] s = Some s2 ∧
    run [Elapse ms; TimerFires (next_handle s + 2)] s2 = Some s4 ∧
    listeners s2 = listeners s ++
      [mkListener (bundle_event (make_requestId recipientId (clock s))) true
         (OnPreKeyBundle recipientId (make_requestId recipientId (clock s)))] ∧
    listeners s4 = listeners s2 ∧
    pendingMessages s4 !! make_requestId recipientId (clock s) = None ∧
    promises s4 !! next_handle s = Some (Rejected timeout_error) ∧
    (next_handle s < next_handle s4)%nat.
Proof.
  intros Hm Herr Hms.
  replace (next_handle s + 2)%nat with (S (S (next_handle s))) by lia.
  pose proof (enqueue_after_call s manager recipientId content error Hm Herr)
    as Hrun.
  match type of Hrun with
  | _ = Some (enqueue _ _ _ ?x) => set (s0 := x) in *
  end.
  destruct (enqueue_facts recipientId content (next_handle s) s0)
    as (Htm & Hpm & Hls & Hps & Hclock & Hnext).
  destruct (timeout_fires (S (S (next_handle s))) (clock s + 10000) ms
              (make_requestId recipientId (clock s))
              (mkPending recipientId content (next_handle s) (next_handle s))
              (enqueue recipientId content (next_handle s) s0))
    as (s4 & Hfire & Hls4 & Hgone & Hp & Hnext4).
  - exact Htm.
  - exact Hpm.
  - rewrite Hps. apply lookup_insert_eq.
  - rewrite Hclock. apply N.add_le_mono_l. exact Hms.
  - exists (enqueue recipientId content (next_handle s) s0), s4.
    split; [exact Hrun|]. split; [exact Hfire|]. split; [exact Hls|].
    split; [exact Hls4|]. split; [exact Hgone|]. split; [exact Hp|].
    rewrite Hnext4, Hnext. cbn. lia.
Qed.



(** *** Before and after initialisation *)

Lemma step_uninitialized (ev : event Content Bundle Cipher PublicKeys)
    (s s' : state) :
  not_a_startup ev → uninitialized s → step ev s = Some s' → uninitialized s'.
Proof.
  intros Hev (Hm & Hpm & Hls & Htm & Hsus & Hem & Hdis & Hcalls & Hps) H.
  destruct ev as [userId|recipientId content|t r|name d|id|ms]; cbn in H.
  - done.
  - injection H as <-. unfold encryptMessage. cbn. rewrite Hm. cbn.
    repeat split; try done.
    intros p o. cbn. unfold settle_in. rewrite lookup_insert_eq.
    intros Hp. apply lookup_insert_Some in Hp as [[_ Hp]|[Hne Hp]]; [done|].
    rewrite lookup_insert_ne in Hp by done. by eapply Hps.
  - rewrite Hsus, lookup_empty in H. discriminate H.
  - unfold receive, listeners_for, drop_once in H. rewrite Hls in H. cbn in H.
    injection H as <-. repeat split; cbn; rewrite ?Hls; done.
  - unfold fire in H. rewrite Htm, lookup_empty in H. discriminate H.
  - injection H as <-. by repeat split.
Qed.

Lemma run_uninitialized (evs : list (event Content Bundle Cipher PublicKeys))
    (s s' : state) :
  Forall not_a_startup evs → uninitialized s → run evs s = Some s' →
  uninitialized s'.
Proof.
  intros Hevs. revert s. induction Hevs as [|ev evs Hev _ IH]; intros s Hs H.
  - by injection H as <-.
  - rewrite run_cons in H. destruct (step ev s) as [s1|] eqn:Hstep; [|done].
    cbn in H. eapply IH; [|exact H]. by eapply step_uninitialized.
Qed.

(** X3.  Lines 78-80.  As long as [initializeEncryption] has not been
    called, every call of [encryptMessage] is rejected with the error
    "Encryption not initialized", and the module has asked nothing of the
    engine, emitted and dispatched nothing, and stored nothing: no
    registry entry, no listener, no timer, no parked function. *)
Theorem encrypt_before_initialization (t0 : N)
    (evs : list (event Content Bundle Cipher PublicKeys)) (s : state)
    (recipientId : string) (content : Content) :
  Forall not_a_startup evs →
  run evs (initial t0) = Some s →
  (∀ p o, promises s !! p = Some o → o = Rejected not_initialized) ∧
  engine_calls s = [] ∧
  emitted s = [] ∧
  dispatched s = [] ∧
  pendingMessages s = ∅ ∧
  listeners s = [] ∧
  timers s = ∅ ∧
  suspended s = ∅ ∧
  ∃ s',
    step (CallEncryptMessage recipientId content) s = Some s' ∧
    promises s' !! next_handle s = Some (Rejected not_initialized) ∧
    engine_calls s' = [] ∧
    emitted s' = [] ∧
    dispatched s' = [] ∧
    pendingMessages s' = ∅ ∧
    listeners s' = [] ∧
    timers s' = ∅ ∧
    suspended s' = ∅.
Proof.
  intros Hevs Hrun.
  assert (uninitialized s) as (Hm & Hpm & Hls & Htm & Hsus & Hem & Hdis & Hcalls & Hps).
  { eapply run_uninitialized; [exact Hevs| |exact Hrun]. by repeat split. }
  do 8 (split; [done|]).
  eexists. split; [reflexivity|]. unfold encryptMessage. cbn. rewrite Hm. cbn.
  split; [|done].
  apply settle_in_pending, lookup_insert_eq.
Qed.

Lemma step_initialized (ev : event Content Bundle Cipher PublicKeys)
    (s s' : state) :
  is_Some (signalManager s) → step ev s = Some s' → is_Some (signalManager s').
Proof.
  intros Hs H. destruct ev as [userId|recipientId content|t r|name d|id|ms];
    cbn in H.
  - injection H as <-. by eexists.
  - injection H as <-. unfold encryptMessage. cbn.
    destruct Hs as [manager Hm]. rewrite Hm. cbn. by eexists.
  - destruct (suspended s !! t) as [k|]; [|done]. cbn in H.
    resume_cases H; exact Hs.
  - unfold receive in H.
    eapply (call_listeners_inv (λ s1, is_Some (signalManager s1))); [| |exact H].
    + by intros k c s1 _ Hs1.
    + exact Hs.
  - unfold fire in H. destruct (timers s !! id) as [tm|]; [|done]. cbn in H.
    case_decide; [|done]. injection H as <-. unfold reject_pending. cbn.
    by destruct (pendingMessages s !! _).
  - by injection H as <-.
Qed.

(** X4.  Line 15 and lines 78-84.  [signalManager] is assigned before the
    first [await] of [initializeEncryption] and nothing resets it: once
    [initializeEncryption] has been called, whatever happened since (the
    start-up may still be running, or may have failed), a call of
    [encryptMessage] is not rejected as "not initialized" but goes to the
    engine. *)
Theorem initialized_for_good (userId recipientId : string) (content : Content)
    (evs : list (event Content Bundle Cipher PublicKeys)) (s s' : state) :
  run (CallInitializeEncryption userId :: evs) s = Some s' →
  is_Some (signalManager s') ∧
  ∃ s'',
    step (CallEncryptMessage recipientId content) s' = Some s'' ∧
    promises s'' !! next_handle s' = Some Pending ∧
    engine_calls s'' =
      engine_calls s' ++ [EngineEncrypt recipientId (JSON_stringify content)] ∧
    suspended s'' !! S (next_handle s') =
      Some (KEncrypt recipientId content (next_handle s')).
Proof.
  intros Hrun. rewrite run_cons in Hrun. cbn [step] in Hrun.
  assert (is_Some (signalManager s')) as [manager Hm].
  { eapply (run_invariant (λ s1, is_Some (signalManager s1)));
      [apply step_initialized| |exact Hrun].
    by eexists. }
  split; [by eexists|].
  eexists. split; [reflexivity|].
  rewrite (encryptMessage_initialized _ _ _ _ Hm). cbn.
  by rewrite !lookup_insert_eq.
Qed.

(** *** Start-up *)

(** The three awaits of lines 16, 19 and 20, each with the state it
    leaves. *)
Lemma startup_steps (s : state) (userId : string) (publicKeys : PublicKeys) :
  let s1 := initializeEncryption userId s in
  let s2 := suspend KInitKeys
              (invoke GetPublicKeys
                 (set_suspended (delete (next_handle s)) s1)) in
  let s3 := registerPublicKeys publicKeys
              (set_suspended (delete (S (next_handle s))) s2) in
  step (CallInitializeEncryption userId) s = Some s1 ∧
  suspended s1 !! next_handle s = Some KInitIdentity ∧
  step (Resume (next_handle s) Returned) s1 = Some s2 ∧
  suspended s2 !! S (next_handle s) = Some KInitKeys ∧
  step (Resume (S (next_handle s)) (ReturnedKeys publicKeys)) s2 = Some s3 ∧
  suspended s3 !! S (S (next_handle s)) = Some KInitRegister.
Proof.
  intros s1 s2 s3.
  assert (suspended s1 !! next_handle s = Some KInitIdentity) as H1
    by apply lookup_insert_eq.
  assert (suspended s2 !! S (next_handle s) = Some KInitKeys) as H2
    by apply lookup_insert_eq.
  assert (suspended s3 !! S (S (next_handle s)) = Some KInitRegister) as H3
    by apply lookup_insert_eq.
  split; [reflexivity|]. split; [exact H1|].
  split; [by rewrite (step_resume _ _ _ _ H1)|]. split; [exact H2|].
  split; [by rewrite (step_resume _ _ _ _ H2)|]. exact H3.
Qed.

(** What a whole start-up leaves in the listener table. *)
Lemma startup_listeners (s : state) (userId : string)
    (publicKeys : PublicKeys) (note : string) :
  ∃ s4,
    run (startup_events userId publicKeys note (next_handle s)) s = Some s4 ∧
    listeners s4 = listeners s ++
      [mkListener "new-pre-key-bundle" false OnNewPreKeyBundle;
       mkListener "encrypted-message" false OnEncryptedMessage].
Proof.
  destruct (startup_steps s userId publicKeys) as (H1 & _ & H2 & _ & H3 & H4).
  eexists. split.
  { unfold startup_events.
    rewrite (run_step _ _ _ _ H1), (run_step _ _ _ _ H2), (run_step _ _ _ _ H3).
    rewrite run_one, (step_resume _ _ _ _ H4). reflexivity. }
  cbn. by rewrite <- app_assoc.
Qed.

(** X5.  Lines 14-52 and 59-69.  A start-up asks the engine for its identity
    and its public keys, emits the keys in one [register-public-keys]
    frame, and waits for the server's acknowledgement; until then no
    listener is registered.  A positive acknowledgement registers the two
    permanent listeners, after the ones that were there.  Nothing is
    stored in the registry, and no promise or timer is touched. *)
Theorem startup_registers_listeners (s : state) (userId : string)
    (publicKeys : PublicKeys) (note : string) :
  ∃ s3 s4,
    run [CallInitializeEncryption userId;
         Resume (next_handle s) Returned;
         Resume (S (next_handle s)) (ReturnedKeys publicKeys)] s = Some s3 ∧
    listeners s3 = listeners s ∧
    emitted s3 = emitted s ++ [RegisterPublicKeys publicKeys] ∧
    engine_calls s3 = engine_calls s ++ [InitializeIdentity; GetPublicKeys] ∧
    step (Resume (S (S (next_handle s))) (Acknowledged true note)) s3 = Some s4 ∧
    signalManager s4 = Some userId ∧
    listeners s4 = listeners s ++
      [mkListener "new-pre-key-bundle" false OnNewPreKeyBundle;
       mkListener "encrypted-message" false OnEncryptedMessage] ∧
    emitted s4 = emitted s3 ∧
    engine_calls s4 = engine_calls s3 ∧
    pendingMessages s4 = pendingMessages s ∧
    promises s4 = promises s ∧
    timers s4 = timers s.
Proof.
  destruct (startup_steps s userId publicKeys) as (H1 & _ & H2 & _ & H3 & H4).
  do 2 eexists. split.
  { rewrite (run_step _ _ _ _ H1), (run_step _ _ _ _ H2), run_one. exact H3. }
  split; [reflexivity|]. split; [reflexivity|].
  split; [cbn; by rewrite <- app_assoc|]. split.
  { rewrite (step_resume _ _ _ _ H4). reflexivity. }
  cbn. rewrite <- app_assoc. repeat split; reflexivity.
Qed.

(** X6.  Lines 16, 19-20 and 62-66.  When the engine fails to set up its
    identity or to give its public keys, or when the server refuses the
    keys, the start-up ends there: no listener is registered, and only in
    the last case was a frame emitted.  [signalManager] stays assigned
    all the same. *)
Theorem failed_startup_registers_nothing (s : state) (userId : string)
    (publicKeys : PublicKeys) :
  (∀ error, ∃ s',
     run [CallInitializeEncryption userId;
          Resume (next_handle s) (Threw error)] s = Some s' ∧
     listeners s' = listeners s ∧
     emitted s' = emitted s ∧
     engine_calls s' = engine_calls s ++ [InitializeIdentity] ∧
     signalManager s' = Some userId) ∧
  (∀ error, ∃ s',
     run [CallInitializeEncryption userId;
          Resume (next_handle s) Returned;
          Resume (S (next_handle s)) (Threw error)] s = Some s' ∧
     listeners s' = listeners s ∧
     emitted s' = emitted s ∧
     engine_calls s' = engine_calls s ++ [InitializeIdentity; GetPublicKeys] ∧
     signalManager s' = Some userId) ∧
  (∀ note, ∃ s',
     run [CallInitializeEncryption userId;
          Resume (next_handle s) Returned;
          Resume (S (next_handle s)) (ReturnedKeys publicKeys);
          Resume (S (S (next_handle s))) (Acknowledged false note)] s = Some s' ∧
     listeners s' = listeners s ∧
     emitted s' = emitted s ++ [RegisterPublicKeys publicKeys] ∧
     engine_calls s' = engine_calls s ++ [InitializeIdentity; GetPublicKeys] ∧
     signalManager s' = Some userId).
Proof.
  destruct (startup_steps s userId publicKeys)
    as (H1 & Hk1 & H2 & Hk2 & H3 & Hk3).
  split3.
  - intros error. eexists. split.
    { rewrite (run_step _ _ _ _ H1), run_one, (step_resume _ _ _ _ Hk1).
      reflexivity. }
    cbn. repeat split; reflexivity.
  - intros error. eexists. split.
    { rewrite (run_step _ _ _ _ H1), (run_step _ _ _ _ H2), run_one.
      rewrite (step_resume _ _ _ _ Hk2). reflexivity. }
    cbn. rewrite <- app_assoc. repeat split; reflexivity.
  - intros note. eexists. split.
    { rewrite (run_step _ _ _ _ H1), (run_step _ _ _ _ H2), (run_step _ _ _ _ H3).
      rewrite run_one, (step_resume _ _ _ _ Hk3). reflexivity. }
    cbn. rewrite <- app_assoc. repeat split; reflexivity.
Qed.

(** *** Frames for the permanent listeners *)

Lemma filter_all {A} (P : A → Prop) `{∀ x, Decision (P x)} (l : list A) :
  (∀ x, x ∈ l → P x) → filter P l = l.
Proof.
  induction l as [|x l IH]; intros Hl; [done|].
  rewrite filter_cons_True by (apply Hl, elem_of_cons; by left).
  f_equal. apply IH. intros y Hy. apply Hl, elem_of_cons. by right.
Qed.

(** A frame whose name is not that of a bundle response removes no
    listener. *)
Lemma drop_once_permanent (name : string) (s : state) :
  listeners_ok s →
  (∀ requestId, name ≠ bundle_event requestId) →
  drop_once name s = s.
Proof.
  intros Hok Hname. unfold drop_once, set_listeners.
  rewrite filter_all; [by destruct s|].
  intros l Hl.
  destruct (Hok l Hl) as [->|[->|(recipientId & requestId & ->)]]; cbn.
  - apply andb_false_r.
  - apply andb_false_r.
  - rewrite andb_true_r. apply bool_decide_eq_false_2. cbn. intros Heq.
    by apply (Hname requestId).
Qed.

Lemma call_same_handler (h : handler) (d : payload Bundle Cipher)
    (k : continuation Content) (c : engine_call Bundle Cipher)
    (ls : list listener) (s : state) :
  (∀ s0 : state, handle h d s0 = Some (suspend k (invoke c s0))) →
  (∀ l, l ∈ ls → l_handler l = h) →
  ∃ s', call_listeners ls d s = Some s' ∧
    parked (length ls) s s' ∧
    engine_calls s' = engine_calls s ++ replicate (length ls) c ∧
    (∀ t, (t < next_handle s)%nat → suspended s' !! t = suspended s !! t) ∧
    (∀ i, (i < length ls)%nat →
       suspended s' !! (next_handle s + i)%nat = Some k).
Proof.
  intros Hh. revert s. induction ls as [|l ls IH]; intros s Hls; cbn.
  - exists s. split; [done|]. split; [|split; [|split]].
    + unfold parked. by rewrite Nat.add_0_r.
    + by rewrite app_nil_r.
    + done.
    + intros i Hi. lia.
  - rewrite (Hls l) by (apply elem_of_cons; by left). rewrite Hh. cbn.
    destruct (IH (suspend k (invoke c s))) as (s' & -> & Hparked & Hcalls & Hkeep & Hnew).
    { intros l' Hl'. apply Hls, elem_of_cons. by right. }
    exists s'. split; [done|]. cbn in Hcalls, Hkeep, Hnew.
    split; [|split; [|split]].
    + unfold parked in *. cbn in Hparked.
      destruct Hparked as (?&?&?&?&?&?&?&?&->). repeat split; try done.
    + rewrite Hcalls, <- app_assoc. done.
    + intros t Ht. rewrite Hkeep by lia. by rewrite lookup_insert_ne by lia.
    + intros [|i] Hi.
      * rewrite Nat.add_0_r, Hkeep by lia. apply lookup_insert_eq.
      * replace (next_handle s + S i)%nat with (S (next_handle s) + i)%nat by lia.
        apply Hnew. lia.
Qed.

Lemma listeners_for_encrypted (s : state) (l : listener) :
  listeners_ok s → l ∈ listeners_for "encrypted-message" s →
  l_handler l = OnEncryptedMessage.
Proof.
  intros Hok [Hname Hl]%list_elem_of_filter.
  apply bool_decide_eq_true_1 in Hname.
  by destruct (Hok l Hl) as [->|[->|(recipientId & requestId & ->)]].
Qed.

Lemma listeners_for_pushed (s : state) (l : listener) :
  listeners_ok s → l ∈ listeners_for "new-pre-key-bundle" s →
  l_handler l = OnNewPreKeyBundle.
Proof.
  intros Hok [Hname Hl]%list_elem_of_filter.
  apply bool_decide_eq_true_1 in Hname.
  by destruct (Hok l Hl) as [->|[->|(recipientId & requestId & ->)]].
Qed.

(** The parked callbacks of lines 27-51 resumed one after the other with
    a plaintext that parses. *)
Lemma deliver_all (senderId channelId messageId decryptedContent : string)
    (content : Content) (n h : nat) (s : state) :
  JSON_parse decryptedContent = Some content →
  (∀ i, (i < n)%nat →
     suspended s !! (h + i)%nat = Some (KDecrypt senderId channelId messageId)) →
  ∃ s',
    run ((λ t, Resume t (ReturnedText decryptedContent)) <$> seq h n) s = Some s' ∧
    dispatched s' = dispatched s ++
      replicate n (mkDecryptEvent messageId senderId channelId content) ∧
    emitted s' = emitted s ++ replicate n (MessageDecrypted messageId) ∧
    engine_calls s' = engine_calls s ∧
    listeners s' = listeners s.
Proof.
  intros Hparse. revert h s. induction n as [|n IH]; intros h s Hparked.
  - exists s. by rewrite !app_nil_r.
  - cbn [seq fmap list_fmap].
    assert (step (Resume h (ReturnedText decryptedContent)) s =
            Some (emit (MessageDecrypted messageId)
                    (dispatchEvent
                       (mkDecryptEvent messageId senderId channelId content)
                       (set_suspended (delete h) s)))) as Hstep.
    { rewrite (step_resume _ (KDecrypt senderId channelId messageId)).
      - cbn. by rewrite Hparse.
      - rewrite <- (Nat.add_0_r h). apply Hparked. lia. }
    rewrite (run_step _ _ _ _ Hstep).
    edestruct (IH (S h)) as (s' & Hrun & Hdis & Hem & Hcalls & Hls);
      [|exists s'; split; [exact Hrun|]].
    + intros i Hi. cbn. rewrite lookup_delete_ne by lia.
      replace (S (h + i)) with (h + S i)%nat by lia. apply Hparked. lia.
    + cbn in Hdis, Hem, Hcalls, Hls. rewrite Hdis, Hem, <- !app_assoc. done.
Qed.

(** X7.  Lines 27-51.  An incoming message is handed to the engine once for
    every ['encrypted-message'] listener on the socket, and when the
    engine returns a plaintext that parses, it is dispatched and
    acknowledged once for every such listener.  The listeners stay
    registered, and every acknowledged start-up adds one: after a second
    start-up each message is delivered twice. *)
Theorem message_delivered_per_listener (s : state)
    (senderId channelId messageId decryptedContent : string)
    (encryptedMessage : Cipher) (content : Content) :
  reachable JSON_stringify JSON_parse s →
  JSON_parse decryptedContent = Some content →
  let n := length (listeners_for "encrypted-message" s) in
  ∃ s1 s2,
    step (Receive "encrypted-message"
            (EncryptedMessage senderId channelId encryptedMessage messageId)) s =
      Some s1 ∧
    engine_calls s1 = engine_calls s ++
      replicate n (EngineDecrypt senderId encryptedMessage) ∧
    listeners s1 = listeners s ∧
    run ((λ t, Resume t (ReturnedText decryptedContent)) <$>
           seq (next_handle s) n) s1 = Some s2 ∧
    dispatched s2 = dispatched s ++
      replicate n (mkDecryptEvent messageId senderId channelId content) ∧
    emitted s2 = emitted s ++ replicate n (MessageDecrypted messageId) ∧
    ∀ userId publicKeys note, ∃ s4,
      run (startup_events userId publicKeys note (next_handle s)) s = Some s4 ∧
      length (listeners_for "encrypted-message" s4) = S n.
Proof.
  intros Hreach Hparse n. subst n.
  apply reachable_listeners_ok in Hreach as Hok.
  destruct (call_same_handler OnEncryptedMessage
              (EncryptedMessage senderId channelId encryptedMessage messageId)
              (KDecrypt senderId channelId messageId)
              (EngineDecrypt senderId encryptedMessage)
              (listeners_for "encrypted-message" s) s)
    as (s1 & Hcall & Hparked & Hcalls & _ & Hnew).
  { done. }
  { intros l Hl. by apply listeners_for_encrypted with s. }
  destruct Hparked as (_ & _ & Hls & _ & _ & Hem & Hdis & _).
  destruct (deliver_all senderId channelId messageId decryptedContent content
              (length (listeners_for "encrypted-message" s)) (next_handle s) s1
              Hparse Hnew)
    as (s2 & Hrun & Hdis2 & Hem2 & _ & _).
  exists s1, s2. split.
  { cbn [step]. unfold receive. rewrite drop_once_permanent; [exact Hcall|exact Hok|].
    intros requestId. discriminate. }
  split; [exact Hcalls|]. split; [exact Hls|]. split; [exact Hrun|].
  split; [by rewrite Hdis2, Hdis|]. split; [by rewrite Hem2, Hem|].
  intros userId publicKeys note.
  destruct (startup_listeners s userId publicKeys note) as (s4 & Hrun4 & Hls4).
  exists s4. split; [exact Hrun4|].
  unfold listeners_for. rewrite Hls4, filter_app, length_app.
  rewrite filter_cons_False by (by intros ?%bool_decide_eq_true_1).
  rewrite filter_cons_True by (by apply bool_decide_eq_true_2).
  cbn. lia.
Qed.

(** X8.  Lines 23-25.  A pushed bundle is handed to the engine once for
    every ['new-pre-key-bundle'] listener, and the module does nothing
    else with it: whether [processPreKeyBundle] returns or throws, the
    module has emitted, stored and settled nothing when the callback is
    over, and its state is the same in both cases.  The callback has no
    [try]: a throw rejects the promise of the callback itself, which
    belongs to the runtime and is not part of this state. *)
Theorem pushed_bundle_outcome_ignored (s : state) (userId : string)
    (bundle : Bundle) :
  reachable JSON_stringify JSON_parse s →
  let n := length (listeners_for "new-pre-key-bundle" s) in
  ∃ s1,
    step (Receive "new-pre-key-bundle" (NewPreKeyBundle userId bundle)) s =
      Some s1 ∧
    engine_calls s1 = engine_calls s ++
      replicate n (ProcessPreKeyBundle userId bundle) ∧
    parked n s s1 ∧
    ∀ i, (i < n)%nat →
      step (Resume (next_handle s + i) Returned) s1 =
        Some (set_suspended (delete (next_handle s + i)%nat) s1) ∧
      ∀ error,
        step (Resume (next_handle s + i) (Threw error)) s1 =
          Some (set_suspended (delete (next_handle s + i)%nat) s1).
Proof.
  intros Hreach n. subst n.
  apply reachable_listeners_ok in Hreach as Hok.
  destruct (call_same_handler OnNewPreKeyBundle
              (NewPreKeyBundle userId bundle) KNewBundle
              (ProcessPreKeyBundle userId bundle)
              (listeners_for "new-pre-key-bundle" s) s)
    as (s1 & Hcall & Hparked & Hcalls & _ & Hnew).
  { done. }
  { intros l Hl. by apply listeners_for_pushed with s. }
  exists s1. split.
  { cbn [step]. unfold receive. rewrite drop_once_permanent; [exact Hcall|exact Hok|].
    intros requestId. discriminate. }
  split; [exact Hcalls|]. split; [exact Hparked|].
  intros i Hi. split; [|intros error];
    by rewrite (step_resume _ KNewBundle) by by apply Hnew.
Qed.

(** *** What the registry holds *)

(** X9.  Lines 93-98, 117-118, 123-124 and 133-134.  In every state the
    module can be in, an entry of the registry belongs to a promise that
    is still pending: its [resolve] and [reject] are those of one
    promise, no other entry shares that promise, and every path that
    settles it removes the entry in the same turn. *)
Theorem registry_entries_pending (s : state) (requestId : string)
    (pendingMessage : PendingMessage Content) :
  reachable JSON_stringify JSON_parse s →
  pendingMessages s !! requestId = Some pendingMessage →
  pm_resolve pendingMessage = pm_reject pendingMessage ∧
  promises s !! pm_resolve pendingMessage = Some Pending ∧
  ∀ requestId' pendingMessage',
    pendingMessages s !! requestId' = Some pendingMessage' →
    pm_resolve pendingMessage' = pm_resolve pendingMessage →
    requestId' = requestId.
Proof.
  intros Hreach Hpm. apply reachable_registry_ok in Hreach as Hok.
  destruct (entry_pending _ Hok _ _ Hpm) as [Heq Hp].
  split; [exact Heq|]. split; [by rewrite Heq|].
  intros requestId' pm' Hpm' Hsame.
  destruct (entry_pending _ Hok _ _ Hpm') as [Heq' _].
  apply (entry_unique _ Hok _ _ _ _ Hpm' Hpm). congruence.
Qed.

Lemma initial_registry_timed (t0 : N) : registry_timed (initial t0 : state).
Proof. split; intros ? ? H; cbn in H; by rewrite lookup_empty in H. Qed.

(** Steps that add no entry and leave the timers alone. *)
Lemma registry_timed_weaken (s s' : state) :
  registry_timed s →
  timers s' = timers s →
  clock s ≤ clock s' →
  (next_handle s ≤ next_handle s')%nat →
  (∀ requestId pendingMessage,
     pendingMessages s' !! requestId = Some pendingMessage →
     pendingMessages s !! requestId = Some pendingMessage) →
  registry_timed s'.
Proof.
  intros [Hbound Hs] Htm Hclock Hnext Hsub. split.
  - intros id tm. rewrite Htm. intros H. apply Hbound in H. lia.
  - intros requestId pm Hpm.
    destruct (Hs _ _ (Hsub _ _ Hpm)) as (now & id & Hnow & Hid & Htimer).
    exists now, id. rewrite Htm. split; [lia|done].
Qed.

(** Lines 89-137. *)
Lemma registry_timed_enqueue (recipientId : string) (content : Content)
    (p : nat) (s : state) :
  registry_timed s → registry_timed (enqueue recipientId content p s).
Proof.
  intros [Hbound Hs]. split.
  - intros id tm. cbn. intros [[<- _]|[_ H]]%lookup_insert_Some; [lia|].
    apply Hbound in H. lia.
  - intros requestId pm. cbn.
    intros [[<- <-]|[Hne Hpm]]%lookup_insert_Some.
    + exists (clock s), (next_handle s). split; [lia|]. split; [done|].
      cbn. apply lookup_insert_eq.
    + destruct (Hs _ _ Hpm) as (now & id & Hnow & Hid & Htimer).
      exists now, id. split; [done|]. split; [done|].
      rewrite lookup_insert_ne; [done|]. apply Hbound in Htimer. lia.
Qed.

(** Lines 121-125: an entry is removed, the timers stay. *)
Lemma registry_timed_reject_pending (requestId : string) (error : Error)
    (s : state) :
  registry_timed s → registry_timed (reject_pending requestId error s).
Proof.
  intros Hs. unfold reject_pending.
  destruct (pendingMessages s !! requestId); [|done].
  apply (registry_timed_weaken s); cbn; try done; try lia.
  intros ? ? [_ ?]%lookup_delete_Some. done.
Qed.

Lemma step_registry_timed (ev : event Content Bundle Cipher PublicKeys)
    (s s' : state) :
  registry_timed s → step ev s = Some s' → registry_timed s'.
Proof.
  intros Hs H. destruct ev as [userId|recipientId content|t r|name d|id|ms];
    cbn in H.
  - injection H as <-. apply (registry_timed_weaken s); cbn; try done; lia.
  - injection H as <-. unfold encryptMessage. cbn.
    destruct (signalManager s);
      apply (registry_timed_weaken s); cbn; try done; lia.
  - destruct (suspended s !! t) as [k|] eqn:Hk; [|done]. cbn [mbind option_bind] in H.
    assert (registry_timed (set_suspended (delete t) s)) as Hs0
      by (apply (registry_timed_weaken s); cbn; try done; lia).
    destruct k, r; cbn [resume] in H; try discriminate H;
      repeat match type of H with
        | context [JSON_parse ?x] => destruct (JSON_parse x)
        | context [no_session ?e] => destruct (no_session e)
        | context [pendingMessages ?s0 !! ?k] =>
            destruct (pendingMessages s0 !! k)
        | context [if ?b then _ else _] => destruct b
        end;
      try discriminate H; injection H as <-.
    all: first
      [ by apply registry_timed_enqueue
      | by apply registry_timed_reject_pending
      | apply (registry_timed_weaken s); cbn; try done; try lia ].
    intros ? ? [_ ?]%lookup_delete_Some. done.
  - unfold receive in H.
    eapply (call_listeners_inv registry_timed); [| |exact H].
    + intros k c s1 _ Hs1.
      apply (registry_timed_weaken s1); cbn; try done; lia.
    + apply (registry_timed_weaken s); cbn; try done; lia.
  - unfold fire in H. destruct (timers s !! id) as [tm|] eqn:Htm; [|done].
    cbn in H. case_decide; [|done]. injection H as <-.
    destruct Hs as [Hbound Hs]. unfold reject_pending. cbn.
    destruct (pendingMessages s !! t_requestId tm) eqn:Hpm; split; cbn.
    + intros id' tm' [_ H']%lookup_delete_Some. by apply Hbound in H'.
    + intros requestId pm [Hne Hpm']%lookup_delete_Some.
      destruct (Hs _ _ Hpm') as (now & id' & Hnow & Hid & Htimer).
      exists now, id'. split; [done|]. split; [done|].
      rewrite lookup_delete_ne; [done|]. intros <-.
      rewrite Htm in Htimer. injection Htimer as ->. by cbn in Hne.
    + intros id' tm' [_ H']%lookup_delete_Some. by apply Hbound in H'.
    + intros requestId pm Hpm'.
      destruct (Hs _ _ Hpm') as (now & id' & Hnow & Hid & Htimer).
      exists now, id'. split; [done|]. split; [done|].
      rewrite lookup_delete_ne; [done|]. intros <-.
      rewrite Htm in Htimer. injection Htimer as ->. cbn in Hpm.
      by rewrite Hpm in Hpm'.
  - injection H as <-. apply (registry_timed_weaken s); cbn; try done; lia.
Qed.

(** X10.  Lines 90-98 and 130-136.  In every state the module can be in, an
    entry of the registry is stored under the id built from its
    recipient and the time of a call, and a timer set by such a call, due
    ten seconds after it, is still in the table.  When that timer fires,
    the entry is removed and its promise is rejected with the timeout
    error: no entry outlives its ten seconds once the timers run. *)
Theorem registry_entries_timed (s : state) (requestId : string)
    (pendingMessage : PendingMessage Content) :
  reachable JSON_stringify JSON_parse s →
  pendingMessages s !! requestId = Some pendingMessage →
  ∃ now id,
    now ≤ clock s ∧
    requestId = make_requestId (pm_recipientId pendingMessage) now ∧
    timers s !! id = Some (mkTimer (now + 10000) requestId) ∧
    ∀ ms, now + 10000 ≤ clock s + ms →
      ∃ s',
        run [Elapse ms; TimerFires id] s = Some s' ∧
        pendingMessages s' !! requestId = None ∧
        promises s' !! pm_reject pendingMessage = Some (Rejected timeout_error).
Proof.
  intros Hreach Hpm.
  assert (registry_timed s) as [_ Hs].
  { revert Hreach. apply reachable_invariant.
    - apply initial_registry_timed.
    - apply step_registry_timed. }
  apply reachable_registry_ok in Hreach as Hok.
  destruct (entry_pending _ Hok _ _ Hpm) as [_ Hp].
  destruct (Hs _ _ Hpm) as (now & id & Hnow & Hid & Htimer).
  exists now, id. split; [done|]. split; [done|]. split; [done|].
  intros ms Hms.
  destruct (timeout_fires id (now + 10000) ms requestId pendingMessage s
              Htimer Hpm Hp Hms) as (s' & Hrun & _ & Hgone & Hrej & _).
  by exists s'.
Qed.

(** *** How a bundle exchange ends *)

Lemma reject_pending_absent (requestId : string) (error : Error) (s : state) :
  pendingMessages s !! requestId = None → reject_pending requestId error s = s.
Proof. intros Hpm. unfold reject_pending. by rewrite Hpm. Qed.

(** The steps of lines 104-127 for a request whose listener was
    registered last under its event name, with the states they lead to. *)
Lemma exchange_steps (recipientId requestId : string) (bundle : Bundle)
    (ls : list listener) (pendingMessage : PendingMessage Content) (s : state) :
  listeners_ok s →
  listeners_for (bundle_event requestId) s =
    ls ++ [mkListener (bundle_event requestId) true
             (OnPreKeyBundle recipientId requestId)] →
  pendingMessages s !! requestId = Some pendingMessage →
  ∃ sm,
    parked (length ls) (drop_once (bundle_event requestId) s) sm ∧
    let t := next_handle sm in
    let s1 := suspend (KBundleProcessed recipientId requestId)
                (invoke (ProcessPreKeyBundle recipientId bundle) sm) in
    let s2 := suspend (KRetryEncrypt recipientId requestId pendingMessage)
                (invoke (EngineEncrypt recipientId
                           (JSON_stringify (pm_content pendingMessage)))
                   (set_suspended (delete t) s1)) in
    step (Receive (bundle_event requestId) (BundleResponse bundle)) s = Some s1 ∧
    step (Resume t Returned) s1 = Some s2 ∧
    (∀ error,
       step (Resume t (Threw error)) s1 =
       Some (set_pendingMessages (delete requestId)
               (settle (pm_reject pendingMessage) (Rejected error)
                  (set_suspended (delete t) s1)))) ∧
    (∀ encryptedMessage,
       step (Resume (S t) (ReturnedCipher encryptedMessage)) s2 =
       Some (set_pendingMessages (delete requestId)
               (settle (pm_resolve pendingMessage) (Resolved encryptedMessage)
                  (set_suspended (delete (S t)) s2)))) ∧
    (∀ error,
       step (Resume (S t) (Threw error)) s2 =
       Some (set_pendingMessages (delete requestId)
               (settle (pm_reject pendingMessage) (Rejected error)
                  (set_suspended (delete (S t)) s2)))).
Proof.
  intros Hok Hls Hpm.
  destruct (call_bundle_listeners ls bundle
              (drop_once (bundle_event requestId) s)) as (sm & Hcall & Hparked).
  { intros l Hl.
    assert (l ∈ listeners_for (bundle_event requestId) s) as Hin
      by (rewrite Hls; apply elem_of_app; by left).
    apply list_elem_of_filter in Hin as [Hname Hin].
    apply bool_decide_eq_true_1 in Hname.
    eapply bundle_event_registered; [by apply Hok|done]. }
  exists sm. split; [exact Hparked|]. intros t s1 s2.
  assert (pendingMessages sm !! requestId = Some pendingMessage) as Hpm'.
  { destruct Hparked as (_ & -> & _). exact Hpm. }
  split; [by apply (receive_bundle_snoc recipientId requestId bundle ls s sm)|].
  split.
  { unfold s1, t.
    etransitivity; [apply (step_resume_parked _ _ (invoke _ sm))|].
    by apply resume_bundle_processed. }
  split.
  { intros error. unfold s1, t.
    etransitivity; [apply (step_resume_parked _ _ (invoke _ sm))|].
    cbn [resume]. by rewrite (reject_pending_entry _ _ pendingMessage). }
  split.
  { intros encryptedMessage. unfold s2.
    etransitivity;
      [apply (step_resume_parked _ _ (invoke _ (set_suspended (delete t) s1)))|].
    reflexivity. }
  intros error. unfold s2.
  etransitivity;
    [apply (step_resume_parked _ _ (invoke _ (set_suspended (delete t) s1)))|].
  cbn [resume]. by rewrite (reject_pending_entry _ _ pendingMessage).
Qed.







(** *** Requests that do not collide *)

(** What a call that failed with "No session" has changed. *)
Lemma call_enqueues (s : state) (manager recipientId : string)
    (content : Content) (error : Error) :
  signalManager s = Some manager →
  no_session error = true →
  let p := next_handle s in
  let requestId := make_requestId recipientId (clock s) in
  ∃ s2,
    run [CallEncryptMessage recipientId content;
         Resume (S p) (Threw error)] s = Some s2 ∧
    signalManager s2 = Some manager ∧
    clock s2 = clock s ∧
    next_handle s2 = S (S (S p)) ∧
    listeners s2 = listeners s ++
      [mkListener (bundle_event requestId) true
         (OnPreKeyBundle recipientId requestId)] ∧
    pendingMessages s2 =
      <[requestId := mkPending recipientId content p p]> (pendingMessages s) ∧
    promises s2 = <[p := Pending]> (promises s) ∧
    timers s2 =
      <[S (S p) := mkTimer (clock s + 10000) requestId]> (timers s) ∧
    emitted s2 = emitted s ++ [RequestPreKeyBundle recipientId (Some requestId)].
Proof.
  intros Hm Herr p requestId. subst p requestId.
  eexists. split; [by apply (enqueue_after_call s manager)|].
  cbn. by rewrite Hm.
Qed.

Lemma filter_other_name (name name' : string) (ls : list listener) :
  name ≠ name' →
  filter (λ l, listens_to name' l = true)
    (filter (λ l, (listens_to name l && l_once l) = false) ls) =
  filter (λ l, listens_to name' l = true) ls.
Proof.
  intros Hne. induction ls as [|l ls IH]; [done|].
  rewrite !filter_cons.
  destruct (decide (listens_to name' l = true)) as [Hl|Hl].
  - rewrite decide_True.
    + rewrite filter_cons_True by done. by rewrite IH.
    + apply bool_decide_eq_true_1 in Hl. apply andb_false_iff. left.
      apply bool_decide_eq_false_2. congruence.
  - destruct (decide _); [|done]. by rewrite filter_cons_False.
Qed.

(** Lines 104-118 in sequence, for a request whose listener was
    registered last under its event name. *)
Lemma exchange_completes (recipientId requestId : string) (bundle : Bundle)
    (encryptedMessage : Cipher) (ls : list listener)
    (pendingMessage : PendingMessage Content) (s : state) :
  listeners_ok s →
  listeners_for (bundle_event requestId) s =
    ls ++ [mkListener (bundle_event requestId) true
             (OnPreKeyBundle recipientId requestId)] →
  pendingMessages s !! requestId = Some pendingMessage →
  promises s !! pm_resolve pendingMessage = Some Pending →
  let t := (next_handle s + length ls)%nat in
  ∃ s',
    run [Receive (bundle_event requestId) (BundleResponse bundle);
         Resume t Returned;
         Resume (S t) (ReturnedCipher encryptedMessage)] s = Some s' ∧
    promises s' !! pm_resolve pendingMessage = Some (Resolved encryptedMessage) ∧
    (∀ q, q ≠ pm_resolve pendingMessage → promises s' !! q = promises s !! q) ∧
    pendingMessages s' = delete requestId (pendingMessages s) ∧
    listeners s' =
      filter (λ l, (listens_to (bundle_event requestId) l && l_once l) = false)
        (listeners s) ∧
    timers s' = timers s ∧
    emitted s' = emitted s ∧
    next_handle s' = S (S t) ∧
    last (engine_calls s') =
      Some (EngineEncrypt recipientId
              (JSON_stringify (pm_content pendingMessage))).
Proof.
  intros Hok Hls Hpm Hp t. subst t.
  destruct (exchange_steps recipientId requestId bundle ls pendingMessage s
              Hok Hls Hpm) as (sm & Hparked & Hsteps).
  cbv zeta in Hsteps. destruct Hsteps as (Hrecv & Hret & _ & Hcipher & _).
  destruct Hparked
    as (_ & Hpending & Hlisteners & Htimers & Hpromises & Hemitted & _ & _ & Hnext).
  cbn [drop_once set_listeners pendingMessages timers promises emitted
       listeners next_handle] in *.
  rewrite <- Hnext.
  eexists. split.
  { rewrite (run_step _ _ _ _ Hrecv), (run_step _ _ _ _ Hret), run_one.
    apply Hcipher. }
  cbn. rewrite Hpromises, Hpending, Hlisteners, Htimers, Hemitted.
  split; [by apply settle_in_pending|].
  split; [intros q Hq; by apply settle_in_other|].
  do 5 (split; [done|]). by rewrite last_snoc.
Qed.

(** X14.  Lines 89-137 for two calls at once.  Two calls for different
    recipients whose encryptions both fail with "No session" are stored
    under different ids, also in the same millisecond, and each is
    answered by its own response: the first response resolves the first
    promise with the encryption of the first content and leaves the
    second request pending, and the second response then resolves the
    second promise with the encryption of the second content. *)
Theorem distinct_requests_both_resolve (s : state)
    (manager recipientId recipientId' : string) (content content' : Content)
    (error error' : Error) (bundle bundle' : Bundle)
    (encryptedMessage encryptedMessage' : Cipher) :
  reachable JSON_stringify JSON_parse s →
  signalManager s = Some manager →
  no_session error = true →
  no_session error' = true →
  recipientId ≠ recipientId' →
  let p := next_handle s in
  let requestId := make_requestId recipientId (clock s) in
  let requestId' := make_requestId recipientId' (clock s) in
  let t := (p + 6 + length (listeners_for (bundle_event requestId) s))%nat in
  let t' := (t + 2 + length (listeners_for (bundle_event requestId') s))%nat in
  ∃ s4 s7 s10,
    run [CallEncryptMessage recipientId content;
         Resume (p + 1) (Threw error);
         CallEncryptMessage recipientId' content';
         Resume (p + 4) (Threw error')] s = Some s4 ∧
    pendingMessages s4 !! requestId = Some (mkPending recipientId content p p) ∧
    pendingMessages s4 !! requestId' =
      Some (mkPending recipientId' content' (p + 3) (p + 3)) ∧
    run [Receive (bundle_event requestId) (BundleResponse bundle);
         Resume t Returned;
         Resume (S t) (ReturnedCipher encryptedMessage)] s4 = Some s7 ∧
    last (engine_calls s7) =
      Some (EngineEncrypt recipientId (JSON_stringify content)) ∧
    promises s7 !! p = Some (Resolved encryptedMessage) ∧
    promises s7 !! (p + 3)%nat = Some Pending ∧
    pendingMessages s7 !! requestId' =
      Some (mkPending recipientId' content' (p + 3) (p + 3)) ∧
    run [Receive (bundle_event requestId') (BundleResponse bundle');
         Resume t' Returned;
         Resume (S t') (ReturnedCipher encryptedMessage')] s7 = Some s10 ∧
    last (engine_calls s10) =
      Some (EngineEncrypt recipientId' (JSON_stringify content')) ∧
    promises s10 !! p = Some (Resolved encryptedMessage) ∧
    promises s10 !! (p + 3)%nat = Some (Resolved encryptedMessage') ∧
    pendingMessages s10 !! requestId = None ∧
    pendingMessages s10 !! requestId' = None.
Proof.
  intros Hreach Hm Herr Herr' Hne p requestId requestId' t t'.
  subst t t'.
  set (n := length (listeners_for (bundle_event requestId) s)).
  set (n' := length (listeners_for (bundle_event requestId') s)).
  replace (p + 1)%nat with (S p) by lia.
  replace (p + 3)%nat with (S (S (S p))) by lia.
  replace (p + 4)%nat with (S (S (S (S p)))) by lia.
  replace (p + 6 + n + 2 + n')%nat
    with (S (S (S (S (S (S (S (S p))))) + n)) + n')%nat by lia.
  replace (p + 6 + n)%nat with (S (S (S (S (S (S p))))) + n)%nat by lia.
  subst p n n'.
  apply reachable_listeners_ok in Hreach as Hok.
  assert (requestId ≠ requestId') as Hrid.
  { intros [? _]%make_requestId_inj. done. }
  assert (bundle_event requestId ≠ bundle_event requestId') as Hname.
  { intros ?%bundle_event_inj. done. }
  pose proof (call_enqueues s manager recipientId content error Hm Herr) as H2.
  cbv zeta in H2. fold requestId in H2.
  destruct H2 as (s2 & Hrun2 & Hm2 & Hclock2 & Hnext2 & Hls2 & Hpm2 & Hps2 & _).
  pose proof (call_enqueues s2 manager recipientId' content' error' Hm2 Herr')
    as H4.
  cbv zeta in H4. rewrite Hclock2, Hnext2 in H4. fold requestId' in H4.
  destruct H4 as (s4 & Hrun4 & _ & _ & Hnext4 & Hls4 & Hpm4 & Hps4 & _).
  rewrite Hls2 in Hls4. rewrite Hpm2 in Hpm4. rewrite Hps2 in Hps4.
  clear Hls2 Hpm2 Hps2 Hm2 Hclock2 Hnext2.
  assert (listeners_ok s4) as Hok4.
  { intros l. rewrite Hls4, !elem_of_app, !list_elem_of_singleton.
    intros [[Hl| ->]| ->]; [by apply Hok|right; right; by eexists _, _..]. }
  assert (listeners_for (bundle_event requestId) s4 =
          listeners_for (bundle_event requestId) s ++
          [mkListener (bundle_event requestId) true
             (OnPreKeyBundle recipientId requestId)]) as Hfor.
  { unfold listeners_for. rewrite Hls4, !filter_app.
    rewrite (filter_cons_True _ (mkListener (bundle_event requestId) _ _))
      by (by apply bool_decide_eq_true_2).
    rewrite filter_cons_False
      by (intros ?%bool_decide_eq_true_1; by apply Hname).
    by rewrite !filter_nil, app_nil_r. }
  destruct (exchange_completes recipientId requestId bundle encryptedMessage
              (listeners_for (bundle_event requestId) s)
              (mkPending recipientId content (next_handle s) (next_handle s))
              s4 Hok4 Hfor)
    as (s7 & Hrun7 & Hres7 & Hother7 & Hpm7 & Hls7 & _ & _ & Hnext7 & Hlast7).
  { rewrite Hpm4, lookup_insert_ne by done. apply lookup_insert_eq. }
  { rewrite Hps4. cbn. rewrite lookup_insert_ne by lia. apply lookup_insert_eq. }
  rewrite Hnext4 in Hrun7, Hnext7. cbn [pm_resolve pm_content] in *.
  assert (listeners_ok s7) as Hok7.
  { intros l. rewrite Hls7. intros [_ Hl]%list_elem_of_filter. by apply Hok4. }
  assert (listeners_for (bundle_event requestId') s7 =
          listeners_for (bundle_event requestId') s ++
          [mkListener (bundle_event requestId') true
             (OnPreKeyBundle recipientId' requestId')]) as Hfor'.
  { unfold listeners_for. rewrite Hls7, filter_other_name by done.
    rewrite Hls4, !filter_app.
    rewrite filter_cons_False
      by (intros ?%bool_decide_eq_true_1; by apply Hname).
    rewrite filter_cons_True by (by apply bool_decide_eq_true_2).
    by rewrite !filter_nil, app_nil_r. }
  destruct (exchange_completes recipientId' requestId' bundle' encryptedMessage'
              (listeners_for (bundle_event requestId') s)
              (mkPending recipientId' content'
                 (S (S (S (next_handle s)))) (S (S (S (next_handle s)))))
              s7 Hok7 Hfor')
    as (s10 & Hrun10 & Hres10 & Hother10 & Hpm10 & _ & _ & _ & _ & Hlast10).
  { rewrite Hpm7, lookup_delete_ne by done. rewrite Hpm4. apply lookup_insert_eq. }
  { cbn. rewrite Hother7 by lia. rewrite Hps4. apply lookup_insert_eq. }
  rewrite Hnext7 in Hrun10. cbn [pm_resolve pm_content] in *.
  exists s4, s7, s10. split.
  { match goal with
    | |- run (?a :: ?b :: ?rest) s = _ =>
        change (a :: b :: rest) with ([a; b] ++ rest)
    end.
    rewrite run_app, Hrun2. exact Hrun4. }
  split; [rewrite Hpm4, lookup_insert_ne by done; apply lookup_insert_eq|].
  split; [rewrite Hpm4; apply lookup_insert_eq|].
  split; [exact Hrun7|]. split; [exact Hlast7|]. split; [exact Hres7|].
  split; [rewrite Hother7 by lia; rewrite Hps4; apply lookup_insert_eq|].
  split.
  { rewrite Hpm7, lookup_delete_ne by done. rewrite Hpm4. apply lookup_insert_eq. }
  split; [exact Hrun10|]. split; [exact Hlast10|].
  split; [rewrite Hother10 by lia; exact Hres7|]. split; [exact Hres10|].
  split.
  - rewrite Hpm10, lookup_delete_ne by done. rewrite Hpm7. apply lookup_delete_eq.
  - rewrite Hpm10. apply lookup_delete_eq.
Qed.

(** *** Acknowledgements *)

Lemma step_acknowledged (ev : event Content Bundle Cipher PublicKeys)
    (s s' : state) :
  acknowledged (emitted s) = de_messageId Content <$> dispatched s →
  step ev s = Some s' →
  acknowledged (emitted s') = de_messageId Content <$> dispatched s'.
Proof.
  intros Hs H. destruct ev as [userId|recipientId content|t r|name d|id|ms];
    cbn in H.
  - by injection H as <-.
  - injection H as <-. unfold encryptMessage. cbn. by destruct (signalManager s).
  - destruct (suspended s !! t) as [k|]; [|done]. cbn in H.
    resume_cases H; cbn; try exact Hs;
      unfold acknowledged in *; rewrite ?omap_app, ?fmap_app; cbn;
      rewrite ?app_nil_r; congruence.
  - unfold receive in H.
    eapply (call_listeners_inv
              (λ s1, acknowledged (emitted s1) = de_messageId Content <$> dispatched s1));
      [| |exact H].
    + by intros k c s1 _ Hs1.
    + exact Hs.
  - unfold fire in H. destruct (timers s !! id) as [tm|]; [|done]. cbn in H.
    case_decide; [|done]. injection H as <-. unfold reject_pending. cbn.
    by destruct (pendingMessages s !! _).
  - by injection H as <-.
Qed.

(** X15.  Lines 42-45.  In every state the module can be in, the
    [message-decrypted] frames it has emitted carry the ids of the
    messages it has dispatched to the window, one frame for each
    dispatched event and in the same order: nothing is acknowledged that
    was not dispatched, and nothing is dispatched without being
    acknowledged. *)
Theorem acknowledged_as_dispatched (s : state) :
  reachable JSON_stringify JSON_parse s →
  acknowledged (emitted s) = de_messageId Content <$> dispatched s.
Proof.
  revert s.
  apply (reachable_invariant
           (λ s, acknowledged (emitted s) = de_messageId Content <$> dispatched s)).
  - done.
  - apply step_acknowledged.
Qed.

(** *** What stays as it is between two events *)

Lemma step_listeners_keyed (ev : event Content Bundle Cipher PublicKeys)
    (s s' : state) :
  listeners_keyed s → step ev s = Some s' → listeners_keyed s'.
Proof.
  intros Hs H. destruct ev as [userId|recipientId content|t r|name d|id|ms];
    cbn in H.
  - by injection H as <-.
  - injection H as <-. unfold encryptMessage. cbn.
    by destruct (signalManager s).
  - destruct (suspended s !! t) as [k|]; [|done]. cbn in H.
    resume_cases H; unfold listeners_keyed; cbn; try exact Hs;
      intros l Hl; rewrite ?elem_of_app, ?list_elem_of_singleton in Hl;
      destruct_or?; subst; try (by apply Hs); eauto 6.
  - unfold receive in H.
    eapply (call_listeners_inv listeners_keyed); [| |exact H].
    + by intros k c s1 _ Hs1.
    + intros l. cbn. rewrite list_elem_of_filter. intros [_ Hl]. by apply Hs.
  - unfold fire in H. destruct (timers s !! id) as [tm|]; [|done]. cbn in H.
    case_decide; [|done]. injection H as <-. unfold reject_pending. cbn.
    by destruct (pendingMessages s !! _).
  - by injection H as <-.
Qed.

Lemma reachable_listeners_keyed (s : state) :
  reachable JSON_stringify JSON_parse s → listeners_keyed s.
Proof.
  apply reachable_invariant.
  - intros t0 l. cbn. by rewrite elem_of_nil.
  - apply step_listeners_keyed.
Qed.

(** The listeners of a request id are those of its calls. *)
Lemma listeners_for_request (recipientId : string) (now : N) (l : listener)
    (s : state) :
  listeners_keyed s →
  l ∈ listeners_for (bundle_event (make_requestId recipientId now)) s →
  l = mkListener (bundle_event (make_requestId recipientId now)) true
        (OnPreKeyBundle recipientId (make_requestId recipientId now)).
Proof.
  intros Hs [Hname Hl]%list_elem_of_filter.
  apply bool_decide_eq_true_1 in Hname.
  destruct (Hs l Hl) as [->|[->|(recipientId' & now' & ->)]];
    cbn in Hname; try discriminate Hname.
  apply bundle_event_inj, make_requestId_inj in Hname as [-> ->]. done.
Qed.



(** A listener stays registered until a frame with its name arrives. *)
Lemma step_listening (l : listener)
    (ev : event Content Bundle Cipher PublicKeys) (s s' : state) :
  ¬ delivers (l_event l) ev →
  l ∈ listeners s → step ev s = Some s' → l ∈ listeners s'.
Proof.
  intros Hev Hl H.
  destruct ev as [userId|recipientId content|t r|name d|id|ms]; cbn in H.
  - by injection H as <-.
  - injection H as <-. unfold encryptMessage. cbn. by destruct (signalManager s).
  - destruct (suspended s !! t) as [k|]; [|done]. cbn in H.
    resume_cases H; cbn; rewrite ?elem_of_app; tauto.
  - cbn in Hev. unfold receive in H.
    eapply (call_listeners_inv (λ s1, l ∈ listeners s1)); [| |exact H].
    + by intros k c s1 _ Hs1.
    + cbn. apply list_elem_of_filter. split; [|done].
      apply andb_false_iff. left. apply bool_decide_eq_false_2. congruence.
  - unfold fire in H. destruct (timers s !! id) as [tm|]; [|done]. cbn in H.
    case_decide; [|done]. injection H as <-. unfold reject_pending. cbn.
    by destruct (pendingMessages s !! _).
  - by injection H as <-.
Qed.

Lemma listening_until_delivered (l : listener)
    (evs : list (event Content Bundle Cipher PublicKeys)) (s s' : state) :
  Forall (λ ev, ¬ delivers (l_event l) ev) evs →
  l ∈ listeners s → run evs s = Some s' → l ∈ listeners s'.
Proof.
  intros Hevs. revert s. induction Hevs as [|ev evs Hev _ IH]; intros s Hl H.
  - by injection H as <-.
  - rewrite run_cons in H. destruct (step ev s) as [s1|] eqn:Hstep; [|done].
    cbn in H. eapply IH; [|exact H]. by eapply step_listening.
Qed.

(** Once the clock has passed the millisecond of a request id, no
    listener is registered under it any more. *)
Lemma step_unheard (recipientId : string) (now : N)
    (ev : event Content Bundle Cipher PublicKeys) (s s' : state) :
  now < clock s ∧
  listeners_for (bundle_event (make_requestId recipientId now)) s = [] →
  step ev s = Some s' →
  now < clock s' ∧
  listeners_for (bundle_event (make_requestId recipientId now)) s' = [].
Proof.
  intros [Hnow Hnone] H.
  destruct ev as [userId|recipient content|t r|name d|id|ms]; cbn in H.
  - by injection H as <-.
  - injection H as <-. unfold encryptMessage. cbn. by destruct (signalManager s).
  - destruct (suspended s !! t) as [k|]; [|done]. cbn in H.
    resume_cases H; (split; [exact Hnow|]); try exact Hnone.
    all: unfold listeners_for in *; cbn -[filter];
      rewrite !filter_app, Hnone.
    all: rewrite !filter_cons_False, !filter_nil; [done|..].
    all: intros Heq%bool_decide_eq_true_1; cbn in Heq.
    all: try discriminate Heq.
    apply bundle_event_inj, make_requestId_inj in Heq as [_ Heq]. lia.
  - unfold receive in H.
    eapply (call_listeners_inv
              (λ s1, now < clock s1 ∧
                     listeners_for
                       (bundle_event (make_requestId recipientId now)) s1 = []));
      [| |exact H].
    + by intros k c s1 _ Hs1.
    + split; [exact Hnow|]. unfold listeners_for in *. cbn.
      apply elem_of_nil_inv. intros l [Hl [_ Hin]%list_elem_of_filter]%list_elem_of_filter.
      assert (l ∈ filter
                (λ l, listens_to (bundle_event (make_requestId recipientId now)) l
                      = true) (listeners s)) as Hl'
        by by apply list_elem_of_filter.
      rewrite Hnone in Hl'. by apply elem_of_nil in Hl'.
  - unfold fire in H. destruct (timers s !! id) as [tm|]; [|done]. cbn in H.
    case_decide; [|done]. injection H as <-. unfold reject_pending. cbn.
    by destruct (pendingMessages s !! _).
  - injection H as <-. split; [cbn; lia|exact Hnone].
Qed.

(** *** Incoming messages, one handler run per listener *)


(** *** Frames after the first response *)

Lemma step_clock (ev : event Content Bundle Cipher PublicKeys) (s s' : state) :
  step ev s = Some s' → clock s ≤ clock s'.
Proof.
  intros H. destruct ev as [userId|recipientId content|t r|name d|id|ms];
    cbn in H.
  - by injection H as <-.
  - injection H as <-. unfold encryptMessage. cbn. by destruct (signalManager s).
  - destruct (suspended s !! t) as [k|]; [|done]. cbn in H.
    resume_cases H; done.
  - unfold receive in H.
    eapply (call_listeners_inv (λ s1, clock s ≤ clock s1)); [| |exact H].
    + by intros k c s1 _ Hs1.
    + done.
  - unfold fire in H. destruct (timers s !! id) as [tm|]; [|done]. cbn in H.
    case_decide; [|done]. injection H as <-. unfold reject_pending. cbn.
    by destruct (pendingMessages s !! _).
  - injection H as <-. cbn. lia.
Qed.

Lemma run_clock (evs : list (event Content Bundle Cipher PublicKeys))
    (s s' : state) :
  run evs s = Some s' → clock s ≤ clock s'.
Proof.
  revert s. induction evs as [|ev evs IH]; intros s H.
  - by injection H as <-.
  - rewrite run_cons in H. destruct (step ev s) as [s1|] eqn:Hstep; [|done].
    cbn in H. apply step_clock in Hstep. apply IH in H. lia.
Qed.

(** No frame named after a request id has an effect once no listener is
    registered under it and the clock has passed its millisecond. *)
Lemma unheard_for_good (recipientId : string) (now : N)
    (evs : list (event Content Bundle Cipher PublicKeys))
    (d : payload Bundle Cipher) (s s' : state) :
  listeners_for (bundle_event (make_requestId recipientId now)) s = [] →
  now < clock s →
  run evs s = Some s' →
  step (Receive (bundle_event (make_requestId recipientId now)) d) s' = Some s'.
Proof.
  intros Hnone Hnow Hrun. apply (receive_unheard _ d).
  eapply (run_invariant _ (step_unheard recipientId now)); [|exact Hrun].
  done.
Qed.

(** C7, amended.  A response frame is delivered to the listeners
    registered under its name and removes them: right after it no
    listener is left under that name, and a further frame with that name
    changes nothing.  Once no listener is registered under the name of a
    request id and the clock has passed the millisecond of that id, this
    holds for good.

    After the timer of a request has fired, its promise is rejected with
    the timeout error and keeps that outcome whatever happens
    afterwards.  The listener of the request stays registered until a
    frame with its name arrives.  A response frame that arrives while it
    is registered is delivered to it: the module calls
    [processPreKeyBundle] with the bundle, and the promise stays as it
    was.  After that delivery no frame with that name changes anything
    any more. *)
Theorem late_response_effect (s : state) (manager recipientId : string)
    (content : Content) (error : Error) (ms : N) (bundle : Bundle)
    (recipientId' : string) (now : N) (bundle' : Bundle) :
  reachable JSON_stringify JSON_parse s →
  (∃ s1,
     step (Receive (bundle_event (make_requestId recipientId' now))
             (BundleResponse bundle')) s = Some s1 ∧
     listeners_for (bundle_event (make_requestId recipientId' now)) s1 = [] ∧
     ∀ d, step (Receive (bundle_event (make_requestId recipientId' now)) d) s1 =
          Some s1) ∧
  (listeners_for (bundle_event (make_requestId recipientId' now)) s = [] →
   now < clock s →
   ∀ evs s2 d,
     run evs s = Some s2 →
     step (Receive (bundle_event (make_requestId recipientId' now)) d) s2 =
       Some s2) ∧
  (signalManager s = Some manager →
   no_session error = true →
   10000 ≤ ms →
   let p := next_handle s in
   let requestId := make_requestId recipientId (clock s) in
   let l := mkListener (bundle_event requestId) true
              (OnPreKeyBundle recipientId requestId) in
   ∃ s4,
     run [CallEncryptMessage recipientId content;
          Resume (S p) (Threw error);
          Elapse ms;
          TimerFires (p + 2)] s = Some s4 ∧
     promises s4 !! p = Some (Rejected timeout_error) ∧
     l ∈ listeners s4 ∧
     ∀ evs s5,
       run evs s4 = Some s5 →
       promises s5 !! p = Some (Rejected timeout_error) ∧
       (Forall (λ ev, ¬ delivers (bundle_event requestId) ev) evs →
        l ∈ listeners s5) ∧
       (l ∈ listeners s5 →
        ∃ s6,
          step (Receive (bundle_event requestId) (BundleResponse bundle)) s5 =
            Some s6 ∧
          ProcessPreKeyBundle recipientId bundle ∈ engine_calls s6 ∧
          promises s6 !! p = Some (Rejected timeout_error) ∧
          (∀ d, step (Receive (bundle_event requestId) d) s6 = Some s6) ∧
          ∀ evs' s7 d,
            run evs' s6 = Some s7 →
            step (Receive (bundle_event requestId) d) s7 = Some s7 ∧
            promises s7 !! p = Some (Rejected timeout_error))).
Proof.
  intros Hreach. split3.
  - apply reachable_listeners_ok in Hreach as Hok.
    destruct (receive_bundle_response (make_requestId recipientId' now)
                bundle' s Hok) as (s1 & Hrecv & _).
    exists s1. split; [exact Hrecv|].
    assert (listeners_for (bundle_event (make_requestId recipientId' now)) s1 = [])
      as Hnone by by eapply bundle_listeners_dropped.
    split; [exact Hnone|]. intros d. by apply (receive_unheard _ d).
  - intros Hnone Hnow evs s2 d Hrun. by eapply unheard_for_good.
  - intros Hm Herr Hms p requestId l. subst p requestId l.
    destruct (timeout_after_call s manager recipientId content error ms Hm Herr Hms)
      as (s2 & s4 & Hrun & Hfire & Hls2 & Hls4 & Hgone & Hp & Hnext).
    assert (run [CallEncryptMessage recipientId content;
                 Resume (S (next_handle s)) (Threw error);
                 Elapse ms;
                 TimerFires (next_handle s + 2)] s = Some s4) as Hrun4.
    { pose proof (run_app
                    [CallEncryptMessage recipientId content;
                     Resume (S (next_handle s)) (Threw error)]
                    [Elapse ms; TimerFires (next_handle s + 2)] s) as Happ.
      simpl app in Happ. rewrite Happ, Hrun. exact Hfire. }
    assert (clock s + 10000 ≤ clock s4) as Hclock4.
    { apply run_clock in Hrun. rewrite run_cons in Hfire. cbn [step] in Hfire.
      cbn [mbind option_bind] in Hfire. apply run_clock in Hfire.
      cbn in Hfire. lia. }
    assert (mkListener (bundle_event (make_requestId recipientId (clock s))) true
              (OnPreKeyBundle recipientId (make_requestId recipientId (clock s)))
            ∈ listeners s4) as Hl4.
    { rewrite Hls4, Hls2. apply elem_of_app. right.
      by apply list_elem_of_singleton. }
    exists s4. split; [exact Hrun4|]. split; [exact Hp|]. split; [exact Hl4|].
    intros evs s5 Hevs.
    assert (settled_with (next_handle s) (Rejected timeout_error) s5) as Hset.
    { apply (run_invariant _ (step_settled_with _ _) evs s4 s5); [|exact Hevs].
      by split; [|split]. }
    split; [by destruct Hset as (_ & ? & _)|].
    split.
    { intros Hquiet. eapply listening_until_delivered; [|exact Hl4|exact Hevs].
      exact Hquiet. }
    intros Hl.
    assert (reachable JSON_stringify JSON_parse s5) as Hreach5.
    { eapply reachable_run; [|exact Hevs]. by eapply reachable_run. }
    apply reachable_listeners_ok in Hreach5 as Hok.
    destruct (call_bundle_listeners_spawn
                (listeners_for (bundle_event (make_requestId recipientId (clock s))) s5)
                bundle
                (drop_once (bundle_event (make_requestId recipientId (clock s))) s5))
      as (s6 & Hrecv & Hparked & _ & _ & Hspawn).
    { intros l [Hname Hin]%list_elem_of_filter.
      apply bool_decide_eq_true_1 in Hname.
      eapply bundle_event_registered; [by apply Hok|done]. }
    destruct (Hspawn
                (mkListener (bundle_event (make_requestId recipientId (clock s)))
                   true
                   (OnPreKeyBundle recipientId
                      (make_requestId recipientId (clock s))))
                recipientId (make_requestId recipientId (clock s)))
      as (Hcalled & _); [|done|].
    { apply list_elem_of_filter. split; [by apply bool_decide_eq_true_2|done]. }
    assert (listeners_for (bundle_event (make_requestId recipientId (clock s))) s6
            = []) as Hnone
      by by apply (bundle_listeners_dropped _ (BundleResponse bundle) s5).
    assert (settled_with (next_handle s) (Rejected timeout_error) s6) as Hset6.
    { apply (step_settled_with _ _
               (Receive (bundle_event (make_requestId recipientId (clock s)))
                  (BundleResponse bundle)) s5); [exact Hset|exact Hrecv]. }
    assert (clock s < clock s6) as Hclock6.
    { apply run_clock in Hevs.
      destruct Hparked as (_ & _ & _ & _ & _ & _ & _ & Hclock & _).
      cbn in Hclock. lia. }
    exists s6. split; [exact Hrecv|]. split; [exact Hcalled|].
    split; [by destruct Hset6 as (_ & ? & _)|].
    split; [intros d; by apply (receive_unheard _ d)|].
    intros evs' s7 d Hevs'. split.
    + by eapply unheard_for_good.
    + assert (settled_with (next_handle s) (Rejected timeout_error) s7) as Hset7.
      { by apply (run_invariant _ (step_settled_with _ _) evs' s6 s7). }
      by destruct Hset7 as (_ & ? & _).
Qed.

(** *** A request whose entry was overwritten *)

(** A call that failed with "No session" has parked nothing. *)
Lemma call_enqueues_suspended (s : state) (manager recipientId : string)
    (content : Content) (error : Error) :
  signalManager s = Some manager →
  no_session error = true →
  ∃ s2,
    run [CallEncryptMessage recipientId content;
         Resume (S (next_handle s)) (Threw error)] s = Some s2 ∧
    ∀ t k, suspended s2 !! t = Some k → suspended s !! t = Some k.
Proof.
  intros Hm Herr.
  eexists. split; [by apply (enqueue_after_call s manager)|].
  cbn. intros t k Hk. by lookup_cases.
Qed.

(** Two calls for one recipient in one millisecond, both failing with
    "No session": what they leave behind. *)
Lemma colliding_calls (s : state) (manager recipientId : string)
    (content content' : Content) (error error' : Error) :
  reachable JSON_stringify JSON_parse s →
  signalManager s = Some manager →
  no_session error = true →
  no_session error' = true →
  let p := next_handle s in
  let requestId := make_requestId recipientId (clock s) in
  let l := mkListener (bundle_event requestId) true
             (OnPreKeyBundle recipientId requestId) in
  ∃ s4,
    run [CallEncryptMessage recipientId content;
         Resume (S p) (Threw error);
         CallEncryptMessage recipientId content';
         Resume (S (S (S (S p)))) (Threw error')] s = Some s4 ∧
    clock s4 = clock s ∧
    next_handle s4 = S (S (S (S (S (S p))))) ∧
    listeners s4 = (listeners s ++ [l]) ++ [l] ∧
    pendingMessages s4 !! requestId =
      Some (mkPending recipientId content' (S (S (S p))) (S (S (S p)))) ∧
    promises s4 !! S (S (S p)) = Some Pending ∧
    timers s4 !! S (S p) = Some (mkTimer (clock s + 10000) requestId) ∧
    timers s4 !! S (S (S (S (S p)))) =
      Some (mkTimer (clock s + 10000) requestId) ∧
    emitted s4 = (emitted s ++ [RequestPreKeyBundle recipientId (Some requestId)])
                   ++ [RequestPreKeyBundle recipientId (Some requestId)] ∧
    orphaned p s4.
Proof.
  intros Hreach Hm Herr Herr' p requestId l. subst p requestId l.
  apply reachable_registry_ok in Hreach as Hs.
  pose proof (registry_entry_bound s Hs) as Hentry.
  pose proof (registry_held_bound s Hs) as Hheld.
  pose proof (call_enqueues s manager recipientId content error Hm Herr) as H2.
  cbv zeta in H2.
  destruct H2 as (s2 & Hrun2 & Hm2 & Hclock2 & Hnext2 & Hls2 & Hpm2 & Hps2 & Htm2 & Hem2).
  destruct (call_enqueues_suspended s manager recipientId content error Hm Herr)
    as (s2' & Hrun2' & Hsus2).
  rewrite Hrun2 in Hrun2'. injection Hrun2' as <-.
  pose proof (call_enqueues s2 manager recipientId content' error' Hm2 Herr')
    as H4.
  cbv zeta in H4. rewrite Hclock2, Hnext2 in H4.
  destruct H4 as (s4 & Hrun4 & _ & Hclock4 & Hnext4 & Hls4 & Hpm4 & Hps4 & Htm4 & Hem4).
  destruct (call_enqueues_suspended s2 manager recipientId content' error'
              Hm2 Herr') as (s4' & Hrun4' & Hsus4).
  rewrite Hnext2 in Hrun4'. rewrite Hrun4 in Hrun4'. injection Hrun4' as <-.
  exists s4. split.
  { match goal with
    | |- run (?a :: ?b :: ?rest) s = _ =>
        change (a :: b :: rest) with ([a; b] ++ rest)
    end.
    rewrite run_app, Hrun2. exact Hrun4. }
  split; [exact Hclock4|]. split; [exact Hnext4|].
  split; [by rewrite Hls4, Hls2|].
  split; [rewrite Hpm4; apply lookup_insert_eq|].
  split; [rewrite Hps4; apply lookup_insert_eq|].
  split.
  { rewrite Htm4, lookup_insert_ne by lia. rewrite Htm2. apply lookup_insert_eq. }
  split; [rewrite Htm4; apply lookup_insert_eq|].
  split; [by rewrite Hem4, Hem2|].
  split; [|split; [|split]].
  - rewrite Hnext4. lia.
  - rewrite Hps4, lookup_insert_ne by lia. rewrite Hps2. apply lookup_insert_eq.
  - intros requestId' pm. rewrite Hpm4, Hpm2. intros Hpm. lookup_cases; cbn.
    + lia.
    + destruct (entry_pending _ Hs _ _ Hpm) as [-> _].
      apply Hentry in Hpm. lia.
  - intros t k Hk Hh. apply Hsus4, Hsus2 in Hk.
    apply (Hheld _ _ _ Hk) in Hh. lia.
Qed.

(** C3.  Two calls for the same recipient whose encryptions both fail
    with "No session" in the same millisecond each arm a timer for the
    one request id they share.  When no response arrives and both timers
    fire after the 10,000 ms, the promise of the second call is rejected
    with the timeout error and the registry holds no entry under the id,
    but the promise of the first call is not rejected: it is still
    pending, and stays pending whatever happens afterwards. *)
Theorem overwritten_request_never_rejected (s : state)
    (manager recipientId : string) (content content' : Content)
    (error error' : Error) (ms : N) :
  reachable JSON_stringify JSON_parse s →
  signalManager s = Some manager →
  no_session error = true →
  no_session error' = true →
  10000 ≤ ms →
  let p := next_handle s in
  let requestId := make_requestId recipientId (clock s) in
  ∃ s4 s7,
    run [CallEncryptMessage recipientId content;
         Resume (p + 1) (Threw error);
         CallEncryptMessage recipientId content';
         Resume (p + 4) (Threw error')] s = Some s4 ∧
    timers s4 !! (p + 2)%nat = Some (mkTimer (clock s + 10000) requestId) ∧
    timers s4 !! (p + 5)%nat = Some (mkTimer (clock s + 10000) requestId) ∧
    promises s4 !! p = Some Pending ∧
    promises s4 !! (p + 3)%nat = Some Pending ∧
    run [Elapse ms; TimerFires (p + 2); TimerFires (p + 5)] s4 = Some s7 ∧
    promises s7 !! p = Some Pending ∧
    promises s7 !! (p + 3)%nat = Some (Rejected timeout_error) ∧
    pendingMessages s7 !! requestId = None ∧
    timers s7 !! (p + 2)%nat = None ∧
    timers s7 !! (p + 5)%nat = None ∧
    ∀ evs s', run evs s7 = Some s' → promises s' !! p = Some Pending.
Proof.
  intros Hreach Hm Herr Herr' Hms p requestId. subst p.
  replace (next_handle s + 1)%nat with (S (next_handle s)) by lia.
  replace (next_handle s + 2)%nat with (S (S (next_handle s))) by lia.
  replace (next_handle s + 3)%nat with (S (S (S (next_handle s)))) by lia.
  replace (next_handle s + 4)%nat with (S (S (S (S (next_handle s))))) by lia.
  replace (next_handle s + 5)%nat
    with (S (S (S (S (S (next_handle s)))))) by lia.
  pose proof (colliding_calls s manager recipientId content content' error error'
                Hreach Hm Herr Herr') as H4.
  cbv zeta in H4. fold requestId in H4.
  destruct H4
    as (s4 & Hrun4 & Hclock & Hnext & _ & Hpm & Hp' & Htm & Htm' & _ & Horph).
  clearbody requestId. set (p := next_handle s) in *. clearbody p.
  set (tm := mkTimer (clock s + 10000) requestId) in *.
  set (pm := mkPending recipientId content' (S (S (S p))) (S (S (S p)))) in *.
  set (s5 := advance ms s4).
  set (s6 := set_pendingMessages (delete requestId)
               (settle (S (S (S p))) (Rejected timeout_error)
                  (set_timers (delete (S (S p))) s5))).
  set (s7 := set_timers (delete (S (S (S (S (S p)))))) s6).
  assert (step (TimerFires (S (S p))) s5 = Some s6) as Hfire.
  { cbn [step]. rewrite (fire_due _ tm).
    - cbn [t_requestId tm]. by rewrite (reject_pending_entry _ _ pm).
    - exact Htm.
    - cbn. rewrite Hclock. by apply N.add_le_mono_l. }
  assert (step (TimerFires (S (S (S (S (S p)))))) s6 = Some s7) as Hfire'.
  { cbn [step]. rewrite (fire_due _ tm).
    - cbn [t_requestId tm]. rewrite reject_pending_absent; [done|].
      apply lookup_delete_eq.
    - cbn. rewrite lookup_delete_ne by lia. exact Htm'.
    - cbn. rewrite Hclock. by apply N.add_le_mono_l. }
  assert (run [Elapse ms; TimerFires (S (S p)); TimerFires (S (S (S (S (S p)))))]
            s4 = Some s7) as Hrun7.
  { erewrite run_step; [|reflexivity]. fold s5.
    by rewrite (run_step _ _ _ _ Hfire), run_one. }
  assert (orphaned p s7) as Horph7
    by exact (run_invariant _ (step_orphaned p) _ s4 s7 Horph Hrun7).
  exists s4, s7. split; [exact Hrun4|]. split; [exact Htm|]. split; [exact Htm'|].
  split; [by destruct Horph as (_ & ? & _)|]. split; [exact Hp'|].
  split; [exact Hrun7|]. split; [by destruct Horph7 as (_ & ? & _)|].
  split; [cbn; by apply settle_in_pending|].
  split; [apply lookup_delete_eq|].
  split; [cbn; rewrite lookup_delete_ne by lia; apply lookup_delete_eq|].
  split; [apply lookup_delete_eq|].
  intros evs s' Hevs.
  by destruct (run_invariant _ (step_orphaned p) evs s7 s' Horph7 Hevs)
    as (_ & ? & _).
Qed.

(** C1.  Two calls for the same recipient whose encryptions both fail
    with "No session" in the same millisecond each emit one
    [request-pre-key-bundle] frame, with the one request id they share.
    When the response for that id arrives, [processPreKeyBundle] succeeds
    for both listeners and both re-encryptions succeed, the engine was
    asked to encrypt the content of the second call twice and the
    content of the first call not at all: the promise of the second call
    is resolved with a ciphertext of its content, the entry is gone, and
    the promise of the first call is not resolved.  It is still pending,
    and stays pending whatever happens afterwards. *)
Theorem overwritten_request_not_recovered (s : state)
    (manager recipientId : string) (content content' : Content)
    (error error' : Error) (bundle : Bundle)
    (encryptedMessage encryptedMessage' : Cipher) :
  reachable JSON_stringify JSON_parse s →
  signalManager s = Some manager →
  no_session error = true →
  no_session error' = true →
  let p := next_handle s in
  let requestId := make_requestId recipientId (clock s) in
  let n := length (listeners_for (bundle_event requestId) s) in
  let t := (p + 6 + n)%nat in
  ∃ s4 s9,
    run [CallEncryptMessage recipientId content;
         Resume (p + 1) (Threw error);
         CallEncryptMessage recipientId content';
         Resume (p + 4) (Threw error')] s = Some s4 ∧
    emitted s4 = emitted s ++
      [RequestPreKeyBundle recipientId (Some requestId);
       RequestPreKeyBundle recipientId (Some requestId)] ∧
    pendingMessages s4 !! requestId =
      Some (mkPending recipientId content' (p + 3) (p + 3)) ∧
    run [Receive (bundle_event requestId) (BundleResponse bundle);
         Resume t Returned;
         Resume (t + 1) Returned;
         Resume (t + 2) (ReturnedCipher encryptedMessage);
         Resume (t + 3) (ReturnedCipher encryptedMessage')] s4 = Some s9 ∧
    engine_calls s9 = engine_calls s4 ++
      replicate (n + 2) (ProcessPreKeyBundle recipientId bundle) ++
      [EngineEncrypt recipientId (JSON_stringify content');
       EngineEncrypt recipientId (JSON_stringify content')] ∧
    emitted s9 = emitted s4 ∧
    promises s9 !! (p + 3)%nat = Some (Resolved encryptedMessage) ∧
    pendingMessages s9 !! requestId = None ∧
    promises s9 !! p = Some Pending ∧
    ∀ evs s', run evs s9 = Some s' → promises s' !! p = Some Pending.
Proof.
  intros Hreach Hm Herr Herr' p requestId n t. subst p t.
  replace (next_handle s + 1)%nat with (S (next_handle s)) by lia.
  replace (next_handle s + 3)%nat with (S (S (S (next_handle s)))) by lia.
  replace (next_handle s + 4)%nat with (S (S (S (S (next_handle s))))) by lia.
  pose proof (colliding_calls s manager recipientId content content' error error'
                Hreach Hm Herr Herr') as H4.
  cbv zeta in H4. fold requestId in H4.
  destruct H4
    as (s4 & Hrun4 & _ & Hnext & Hls & Hpm & Hp' & _ & _ & Hem & Horph).
  assert (reachable JSON_stringify JSON_parse s4) as Hreach4
    by by eapply reachable_run.
  apply reachable_listeners_keyed in Hreach4 as Hkeyed.
  assert (length (listeners_for (bundle_event requestId) s4) = (n + 2)%nat)
    as Hlen.
  { unfold listeners_for. rewrite Hls, !filter_app, !length_app.
    rewrite !filter_cons_True by (by apply bool_decide_eq_true_2).
    fold (listeners_for (bundle_event requestId) s). fold n. cbn. lia. }
  set (pm := mkPending recipientId content'
               (S (S (S (next_handle s)))) (S (S (S (next_handle s))))) in *.
  destruct (call_same_handler (OnPreKeyBundle recipientId requestId)
              (BundleResponse bundle)
              (KBundleProcessed recipientId requestId)
              (ProcessPreKeyBundle recipientId bundle)
              (listeners_for (bundle_event requestId) s4)
              (drop_once (bundle_event requestId) s4))
    as (s5 & Hcall & Hparked & Hcalls & _ & Hnew).
  { done. }
  { intros l Hl. by rewrite (listeners_for_request recipientId (clock s) l s4). }
  rewrite Hlen in Hparked, Hcalls, Hnew.
  destruct Hparked
    as (_ & Hpending & _ & _ & Hpromises & Hemitted & _ & _ & Hnext5).
  cbn [drop_once set_listeners pendingMessages promises emitted engine_calls
       next_handle] in Hpending, Hpromises, Hemitted, Hnext5, Hcalls, Hnew.
  assert (pm_content pm = content') as Hcontent by reflexivity.
  assert (pm_resolve pm = S (S (S (next_handle s)))) as Hresolve by reflexivity.
  clearbody requestId n pm.
  revert Hnext Hnext5 Hnew. generalize (next_handle s4). intros h Hnext Hnext5 Hnew.
  replace (next_handle s + 6 + n)%nat with (h + n)%nat by lia.
  replace (h + n + 1)%nat with (h + (n + 1))%nat by lia.
  replace (h + n + 2)%nat with (next_handle s5) by lia.
  replace (h + n + 3)%nat with (S (next_handle s5)) by lia.
  assert (step (Receive (bundle_event requestId) (BundleResponse bundle)) s4 =
          Some s5) as Hstep5 by exact Hcall.
  set (s6 := suspend (KRetryEncrypt recipientId requestId pm)
               (invoke (EngineEncrypt recipientId (JSON_stringify (pm_content pm)))
                  (set_suspended (delete (h + n)%nat) s5))).
  assert (step (Resume (h + n) Returned) s5 = Some s6) as Hstep6.
  { rewrite (step_resume _ (KBundleProcessed recipientId requestId))
      by (apply Hnew; lia).
    apply resume_bundle_processed. cbn. by rewrite Hpending. }
  set (s7 := suspend (KRetryEncrypt recipientId requestId pm)
               (invoke (EngineEncrypt recipientId (JSON_stringify (pm_content pm)))
                  (set_suspended (delete (h + (n + 1))%nat) s6))).
  assert (step (Resume (h + (n + 1)) Returned) s6 = Some s7) as Hstep7.
  { rewrite (step_resume _ (KBundleProcessed recipientId requestId)).
    - apply resume_bundle_processed. cbn. by rewrite Hpending.
    - cbn. rewrite lookup_insert_ne by lia. rewrite lookup_delete_ne by lia.
      apply Hnew. lia. }
  set (s8 := set_pendingMessages (delete requestId)
               (settle (pm_resolve pm) (Resolved encryptedMessage)
                  (set_suspended (delete (next_handle s5)) s7))).
  assert (step (Resume (next_handle s5) (ReturnedCipher encryptedMessage)) s7 =
          Some s8) as Hstep8.
  { rewrite (step_resume _ (KRetryEncrypt recipientId requestId pm)); [done|].
    cbn. rewrite lookup_insert_ne by lia. rewrite lookup_delete_ne by lia.
    apply lookup_insert_eq. }
  set (s9 := set_pendingMessages (delete requestId)
               (settle (pm_resolve pm) (Resolved encryptedMessage')
                  (set_suspended (delete (S (next_handle s5))) s8))).
  assert (step (Resume (S (next_handle s5)) (ReturnedCipher encryptedMessage')) s8 =
          Some s9) as Hstep9.
  { rewrite (step_resume _ (KRetryEncrypt recipientId requestId pm)); [done|].
    cbn. rewrite lookup_delete_ne by lia. apply lookup_insert_eq. }
  assert (run [Receive (bundle_event requestId) (BundleResponse bundle);
               Resume (h + n) Returned;
               Resume (h + (n + 1)) Returned;
               Resume (next_handle s5) (ReturnedCipher encryptedMessage);
               Resume (S (next_handle s5)) (ReturnedCipher encryptedMessage')]
            s4 = Some s9) as Hrun9.
  { rewrite (run_step _ _ _ _ Hstep5), (run_step _ _ _ _ Hstep6).
    by rewrite (run_step _ _ _ _ Hstep7), (run_step _ _ _ _ Hstep8), run_one. }
  assert (orphaned (next_handle s) s9) as Horph9
    by exact (run_invariant _ (step_orphaned (next_handle s)) _ s4 s9 Horph Hrun9).
  exists s4, s9. split; [exact Hrun4|].
  split; [by rewrite Hem, <- app_assoc|].
  split; [exact Hpm|]. split; [exact Hrun9|].
  split.
  { cbn [s9 s8 s7 s6 engine_calls set_pendingMessages settle set_promises
         set_suspended suspend fresh invoke]. rewrite Hcalls, Hcontent.
    by rewrite <- !app_assoc. }
  split; [exact Hemitted|].
  split.
  { cbn [s9 s8 s7 s6 promises set_pendingMessages settle set_promises
         set_suspended suspend fresh invoke].
    rewrite Hresolve.
    apply (settle_in_settled _ _ _ (Resolved encryptedMessage)); [|done].
    apply settle_in_pending. by rewrite Hpromises. }
  split; [apply lookup_delete_eq|].
  split; [by destruct Horph9 as (_ & ? & _)|].
  intros evs s' Hevs.
  by destruct (run_invariant _ (step_orphaned (next_handle s)) evs s9 s' Horph9 Hevs)
    as (_ & ? & _).
Qed.

End OrchestratorFacts.

(** ** The file cipher *)

Section FileCipherFacts.

Variable aes_gcm_seal : list Byte.byte → list Byte.byte → list Byte.byte → list Byte.byte.
Variable aes_gcm_open : list Byte.byte → list Byte.byte → list Byte.byte → option (list Byte.byte).

(** What [encryptFile] computes, in one equation. *)
Lemma encryptFile_eq (file : File) (channelId : string) (w : Platform) :
  encryptFile aes_gcm_seal file channelId w =
  (Fulfilled
     (mkEncryptedFile
        (mkBlob (aes_gcm_seal (entropy w <$> seq (drawn w) 32)
                   (entropy w <$> seq (drawn w + 32) 12)
                   (file_bytes file))
           "application/octet-stream")
        (file_name file) (file_type file) (file_size file)
        (entropy w <$> seq (drawn w) 32)
        (entropy w <$> seq (drawn w + 32) 12)
        channelId),
   mkPlatform (entropy w) (drawn w + 32 + 12)).
Proof. reflexivity. Qed.

(** C9.  A call of [encryptFile] draws 32 bytes (256 bits) for the key
    and then 12 bytes (96 bits) for the IV from the platform's random
    source, beyond everything drawn before, seals the file bytes with
    AES-GCM under that key and IV, and returns the sealed bytes with the
    raw key, the IV, the file's name, type and size, and the channel id.
    The next call draws its key and IV after these 44 bytes. *)
Theorem encryptFile_package (file file' : File) (channel channel' : string)
    (w : Platform) :
  ∃ package w' package' w'',
    encryptFile aes_gcm_seal file channel w = (Fulfilled package, w') ∧
    key package = entropy w <$> seq (drawn w) 32 ∧
    length (key package) = 32%nat ∧
    iv package = entropy w <$> seq (drawn w + 32) 12 ∧
    length (iv package) = 12%nat ∧
    encryptedFile package =
      mkBlob (aes_gcm_seal (key package) (iv package) (file_bytes file))
        "application/octet-stream" ∧
    fileName package = file_name file ∧
    fileType package = file_type file ∧
    fileSize package = length (file_bytes file) ∧
    channelId package = channel ∧
    encryptFile aes_gcm_seal file' channel' w' = (Fulfilled package', w'') ∧
    key package' = entropy w <$> seq (drawn w + 44) 32 ∧
    iv package' = entropy w <$> seq (drawn w + 76) 12.
Proof.
  do 4 eexists. split; [apply encryptFile_eq|].
  split; [reflexivity|].
  split; [cbn [key]; by rewrite length_fmap, length_seq|].
  split; [reflexivity|].
  split; [cbn [iv]; by rewrite length_fmap, length_seq|].
  do 5 (split; [reflexivity|]).
  split; [apply encryptFile_eq|]. cbn [key iv entropy drawn].
  replace (drawn w + 44)%nat with (drawn w + 32 + 12)%nat by lia.
  replace (drawn w + 76)%nat with (drawn w + 32 + 12 + 32)%nat by lia.
  done.
Qed.

Hypothesis aes_gcm_open_seal : ∀ key iv plain,
  aes_gcm_open key iv (aes_gcm_seal key iv plain) = Some plain.

Hypothesis aes_gcm_open_tampered : ∀ key iv plain i b b',
  aes_gcm_seal key iv plain !! i = Some b → b' ≠ b →
  aes_gcm_open key iv (<[i:=b']> (aes_gcm_seal key iv plain)) = None.

(** [decryptFile] on a 32-byte key. *)
Lemma decryptFile_eq (fileData : EncryptedFile) (decryptedKey : list Byte.byte)
    (w : Platform) :
  length decryptedKey = 32%nat →
  decryptFile aes_gcm_open fileData decryptedKey w =
  match aes_gcm_open decryptedKey (iv fileData)
          (blob_bytes (encryptedFile fileData)) with
  | Some plain => (Fulfilled (mkBlob plain (fileType fileData)), w)
  | None => (Failed OperationError, w)
  end.
Proof.
  intros Hlen. unfold decryptFile, importKey, bind. rewrite Hlen.
  change (aes_key_length (8 * 32)) with true. cbn. unfold subtle_decrypt.
  rewrite bool_decide_eq_true_2 by (cbn; apply list_elem_of_here).
  cbn. by destruct (aes_gcm_open _ _ _).
Qed.

(** C8.  Given that AES-GCM opens what it sealed and rejects a sealed
    text in which one byte was changed: decrypting the package of
    [encryptFile] with the package's key gives back the file bytes (as a
    blob of the file's type), and decrypting it after one byte of the
    ciphertext blob was replaced by a different byte fails with the
    platform's [OperationError]. *)
Theorem file_round_trip (file : File) (channelId : string) (w : Platform) :
  ∃ package w',
    encryptFile aes_gcm_seal file channelId w = (Fulfilled package, w') ∧
    decryptFile aes_gcm_open package (key package) w' =
      (Fulfilled (mkBlob (file_bytes file) (file_type file)), w') ∧
    ∀ i b b',
      blob_bytes (encryptedFile package) !! i = Some b → b' ≠ b →
      decryptFile aes_gcm_open (tamper i b' package) (key package) w' =
        (Failed OperationError, w').
Proof.
  do 2 eexists. split; [apply encryptFile_eq|]. split.
  - rewrite decryptFile_eq by (cbn [key]; by rewrite length_fmap, length_seq).
    cbn [iv key encryptedFile blob_bytes fileType].
    by rewrite aes_gcm_open_seal.
  - intros i b b' Hb Hne.
    rewrite decryptFile_eq by (cbn [key]; by rewrite length_fmap, length_seq).
    cbn [tamper iv key encryptedFile blob_bytes fileType] in *.
    by rewrite (aes_gcm_open_tampered _ _ _ _ _ _ Hb Hne).
Qed.

(** X16.  Lines 196-218.  [decryptFile] reads three things of the package: the
    sealed bytes, the IV and the file type.  The file name, the size, the
    channel id, the key field and the blob's own type are not looked at,
    and the file type is copied to the result unchecked: a package in
    which they were changed still decrypts to the file's bytes. *)
Theorem metadata_not_authenticated (file : File) (channel : string)
    (w : Platform) (fileData : EncryptedFile) :
  ∃ package w',
    encryptFile aes_gcm_seal file channel w = (Fulfilled package, w') ∧
    (blob_bytes (encryptedFile fileData) = blob_bytes (encryptedFile package) →
     iv fileData = iv package →
     decryptFile aes_gcm_open fileData (key package) w' =
       (Fulfilled (mkBlob (file_bytes file) (fileType fileData)), w')).
Proof.
  do 2 eexists. split; [apply encryptFile_eq|].
  cbn [encryptedFile blob_bytes iv key]. intros Hbytes Hiv.
  rewrite decryptFile_eq by (by rewrite length_fmap, length_seq).
  by rewrite Hbytes, Hiv, aes_gcm_open_seal.
Qed.

(** X17.  Lines 198-204.  The key handed to [decryptFile] is imported as a raw
    AES key before anything else: a key that is not 16, 24 or 32 bytes
    long makes [decryptFile] fail with the platform's [DataError], and
    the sealed bytes are never opened.  A key of one of these lengths is
    imported for decryption only, and the outcome is that of opening the
    sealed bytes under it. *)
Theorem decryptFile_key_length (fileData : EncryptedFile)
    (decryptedKey : list Byte.byte) (w : Platform) :
  (length decryptedKey ≠ 16%nat →
   length decryptedKey ≠ 24%nat →
   length decryptedKey ≠ 32%nat →
   decryptFile aes_gcm_open fileData decryptedKey w = (Failed DataError, w)) ∧
  (length decryptedKey = 16%nat ∨
   length decryptedKey = 24%nat ∨
   length decryptedKey = 32%nat →
   decryptFile aes_gcm_open fileData decryptedKey w =
   match aes_gcm_open decryptedKey (iv fileData)
           (blob_bytes (encryptedFile fileData)) with
   | Some plain => (Fulfilled (mkBlob plain (fileType fileData)), w)
   | None => (Failed OperationError, w)
   end).
Proof.
  split.
  - intros H16 H24 H32. unfold decryptFile, importKey, bind.
    assert (aes_key_length (8 * length decryptedKey) = false) as ->; [|done].
    unfold aes_key_length. rewrite !orb_false_iff, !Nat.eqb_neq. lia.
  - intros Hlen. unfold decryptFile, importKey, bind.
    assert (aes_key_length (8 * length decryptedKey) = true) as ->.
    { unfold aes_key_length. rewrite !orb_true_iff, !Nat.eqb_eq. lia. }
    cbn. unfold subtle_decrypt.
    rewrite bool_decide_eq_true_2 by (cbn; apply list_elem_of_here).
    cbn. by destruct (aes_gcm_open _ _ _).
Qed.

End FileCipherFacts.

(** ** The model on concrete inputs *)

Lemma ready_reachable : reachable Sample.stringify Sample.parse Sample.ready.
Proof. exists 0, Sample.startup. vm_compute. reflexivity. Qed.

Lemma byte_eqb_refl (b : Byte.byte) : Byte.eqb b b = true.
Proof. by apply Byte.byte_dec_lb. Qed.

Lemma sample_open_seal (key iv plain : list Byte.byte) :
  Sample.open key iv (Sample.seal key iv plain) = Some plain.
Proof.
  unfold Sample.open, Sample.seal. induction plain as [|b plain IH]; [done|].
  cbn. by rewrite byte_eqb_refl, IH.
Qed.

Lemma sample_open_tampered (key iv plain : list Byte.byte) (i : nat)
    (b b' : Byte.byte) :
  Sample.seal key iv plain !! i = Some b → b' ≠ b →
  Sample.open key iv (<[i:=b']> (Sample.seal key iv plain)) = None.
Proof.
  unfold Sample.open, Sample.seal. revert i.
  induction plain as [|a plain IH]; intros i Hb Hne; [done|].
  assert (∀ x y : Byte.byte, x ≠ y → Byte.eqb x y = false) as Hneq.
  { intros x y Hxy. destruct (Byte.eqb x y) eqn:E; [|done].
    by apply Byte.byte_dec_bl in E. }
  destruct i as [|[|i]]; cbn in *.
  - injection Hb as ->. by rewrite Hneq.
  - injection Hb as ->. by rewrite Hneq.
  - rewrite byte_eqb_refl. exact (f_equal (fmap (cons a)) (IH i Hb Hne)).
Qed.

(** C4 on a call for bob from the state after start-up. *)
Lemma only_no_session_requests_bundle_witness :
  signalManager Sample.ready = Some "alice" ∧
  ∃ s',
    run Sample.stringify Sample.parse
      [CallEncryptMessage "bob" Sample.JNull;
       Resume 4 (Threw (mkError "Bad MAC"))] Sample.ready = Some s' ∧
    promises s' !! 3%nat = Some (Rejected (mkError "Bad MAC")) ∧
    no_bundle_exchange Sample.ready s'.
Proof.
  split; [reflexivity|].
  destruct (only_no_session_requests_bundle Sample.stringify Sample.parse
              Sample.ready "alice" "bob" Sample.JNull eq_refl) as [_ Hfail].
  exact (Hfail (mkError "Bad MAC")).
Defined.

(** C10 on an envelope from bob whose plaintext is ["{"]. *)
Lemma unparseable_plaintext_requests_bundle_witness :
  listeners_for "encrypted-message" Sample.ready =
    [mkListener "encrypted-message" false OnEncryptedMessage] ∧
  Sample.parse "{" = None ∧
  ∃ s',
    run Sample.stringify Sample.parse
      [Receive "encrypted-message" Sample.envelope;
       Resume 3 (ReturnedText "{")] Sample.ready = Some s' ∧
    emitted s' = emitted Sample.ready ++ [RequestPreKeyBundle "bob" None] ∧
    dispatched s' = dispatched Sample.ready ∧
    ∀ error,
      run Sample.stringify Sample.parse
        [Receive "encrypted-message" Sample.envelope;
         Resume 3 (Threw error)] Sample.ready = Some s'.
Proof.
  split; [reflexivity|]. split; [reflexivity|].
  exact (unparseable_plaintext_requests_bundle Sample.stringify Sample.parse
           Sample.ready "bob" "general" "m1" "ciphertext" "{" eq_refl eq_refl).
Defined.


(** The whole exchange run in sequence for bob. *)
Example bob_recovers :
  ∃ s5,
    run Sample.stringify Sample.parse
      (Sample.bob_without_session ++
       [Receive "pre-key-bundle-bob-0" (BundleResponse "bundle");
        Resume 6 Returned;
        Resume 7 (ReturnedCipher "sealed")]) Sample.ready = Some s5 ∧
    promises s5 !! 3%nat = Some (Resolved "sealed") ∧
    pendingMessages s5 !! "bob-0" = None ∧
    emitted s5 = [RegisterPublicKeys "alice-public-keys";
                  RequestPreKeyBundle "bob" (Some "bob-0")] ∧
    engine_calls s5 = [InitializeIdentity; GetPublicKeys;
                       EngineEncrypt "bob" "null";
                       ProcessPreKeyBundle "bob" "bundle";
                       EngineEncrypt "bob" "null"].
Proof. eexists. split; [vm_compute; reflexivity|]. by repeat split. Qed.

(** C2 on two calls for bob in the same millisecond. *)
Lemma colliding_request_never_settles_witness :
  reachable Sample.stringify Sample.parse Sample.ready ∧
  signalManager Sample.ready = Some "alice" ∧
  no_session Sample.no_session_error = true ∧
  ∃ s4,
    run Sample.stringify Sample.parse
      [CallEncryptMessage "bob" Sample.JTrue;
       Resume 4 (Threw Sample.no_session_error);
       CallEncryptMessage "bob" Sample.JFalse;
       Resume 7 (Threw Sample.no_session_error)] Sample.ready = Some s4 ∧
    pendingMessages s4 !! "bob-0" = Some (mkPending "bob" Sample.JFalse 6 6) ∧
    ∀ evs s',
      run Sample.stringify Sample.parse evs s4 = Some s' →
      promises s' !! 3%nat = Some Pending.
Proof.
  split; [exact ready_reachable|]. split; [reflexivity|]. split; [reflexivity|].
  exact (colliding_request_never_settles Sample.stringify Sample.parse
           Sample.ready "alice" "bob" Sample.JTrue Sample.JFalse
           Sample.no_session_error Sample.no_session_error
           ready_reachable eq_refl eq_refl eq_refl).
Defined.

(** The collision run to its end for bob: both listeners answer the
    response with the second entry, the second promise is resolved, both
    timers fire, and the first promise is still pending. *)
Example bob_collides :
  ∃ s',
    run Sample.stringify Sample.parse
      [CallEncryptMessage "bob" Sample.JTrue;
       Resume 4 (Threw Sample.no_session_error);
       CallEncryptMessage "bob" Sample.JFalse;
       Resume 7 (Threw Sample.no_session_error);
       Receive "pre-key-bundle-bob-0" (BundleResponse "bundle");
       Resume 9 Returned;
       Resume 10 Returned;
       Resume 11 (ReturnedCipher "sealed");
       Resume 12 (ReturnedCipher "sealed again");
       Elapse 10000;
       TimerFires 5;
       TimerFires 8] Sample.ready = Some s' ∧
    promises s' !! 3%nat = Some Pending ∧
    promises s' !! 6%nat = Some (Resolved "sealed") ∧
    pendingMessages s' = ∅ ∧
    suspended s' = ∅ ∧
    timers s' = ∅ ∧
    listeners s' = listeners Sample.ready.
Proof. eexists. split; [vm_compute; reflexivity|]. by repeat split. Qed.



(** C7, as stated, fails: a response that arrives after the timeout of
    bob's request makes the module call [processPreKeyBundle]. *)
Lemma late_response_processes_bundle :
  ∃ s s',
    run Sample.stringify Sample.parse Sample.bob_times_out Sample.ready =
      Some s ∧
    promises s !! 3%nat = Some (Rejected timeout_error) ∧
    step Sample.stringify Sample.parse
      (Receive "pre-key-bundle-bob-0" (BundleResponse "late")) s = Some s' ∧
    engine_calls s' = engine_calls s ++ [ProcessPreKeyBundle "bob" "late"].
Proof.
  do 2 eexists. split; [vm_compute; reflexivity|].
  split; [vm_compute; reflexivity|]. split; [vm_compute; reflexivity|].
  reflexivity.
Qed.

(** C8 on a two-byte file, with the stand-in cipher. *)
Lemma file_round_trip_witness :
  (∀ key iv plain,
     Sample.open key iv (Sample.seal key iv plain) = Some plain) ∧
  (∀ key iv plain i b b',
     Sample.seal key iv plain !! i = Some b → b' ≠ b →
     Sample.open key iv (<[i:=b']> (Sample.seal key iv plain)) = None) ∧
  ∃ package w',
    encryptFile Sample.seal Sample.report "general" Sample.platform =
      (Fulfilled package, w') ∧
    decryptFile Sample.open package (key package) w' =
      (Fulfilled (mkBlob [Byte.x68; Byte.x69] "text/plain"), w') ∧
    ∀ i b b',
      blob_bytes (encryptedFile package) !! i = Some b → b' ≠ b →
      decryptFile Sample.open (tamper i b' package) (key package) w' =
        (Failed OperationError, w').
Proof.
  split; [exact sample_open_seal|]. split; [exact sample_open_tampered|].
  exact (file_round_trip Sample.seal Sample.open
           sample_open_seal sample_open_tampered
           Sample.report "general" Sample.platform).
Defined.

Lemma waiting_reachable : reachable Sample.stringify Sample.parse Sample.waiting.
Proof.
  exists 0, (Sample.startup ++ Sample.bob_without_session).
  vm_compute. reflexivity.
Qed.

Lemma received_reachable : reachable Sample.stringify Sample.parse Sample.received.
Proof.
  exists 0, (Sample.startup ++
             [Receive "encrypted-message" Sample.envelope;
              Resume 3 (ReturnedText "null")]).
  vm_compute. reflexivity.
Qed.

(** X4 on a start-up whose [initializeIdentity] threw. *)
Lemma initialized_for_good_witness :
  run Sample.stringify Sample.parse
    [CallInitializeEncryption "alice"; Resume 0 (Threw (mkError "no identity"))]
    (initial 0) = Some Sample.failed ∧
  is_Some (signalManager Sample.failed) ∧
  ∃ s'',
    step Sample.stringify Sample.parse
      (CallEncryptMessage "bob" Sample.JNull) Sample.failed = Some s'' ∧
    promises s'' !! 1%nat = Some Pending ∧
    engine_calls s'' = engine_calls Sample.failed ++ [EngineEncrypt "bob" "null"] ∧
    suspended s'' !! 2%nat = Some (KEncrypt "bob" Sample.JNull 1).
Proof.
  assert (run Sample.stringify Sample.parse
            [CallInitializeEncryption "alice";
             Resume 0 (Threw (mkError "no identity"))]
            (initial 0) = Some Sample.failed) as Hrun by (vm_compute; reflexivity).
  split; [exact Hrun|].
  exact (initialized_for_good Sample.stringify Sample.parse "alice" "bob"
           Sample.JNull [Resume 0 (Threw (mkError "no identity"))]
           (initial 0) Sample.failed Hrun).
Defined.

(** X7 on an envelope from bob, in the state after start-up. *)
Lemma message_delivered_per_listener_witness :
  reachable Sample.stringify Sample.parse Sample.ready ∧
  Sample.parse "null" = Some Sample.JNull ∧
  ∃ s1 s2,
    step Sample.stringify Sample.parse
      (Receive "encrypted-message" Sample.envelope) Sample.ready = Some s1 ∧
    engine_calls s1 = engine_calls Sample.ready ++
      replicate 1 (EngineDecrypt "bob" "ciphertext") ∧
    listeners s1 = listeners Sample.ready ∧
    run Sample.stringify Sample.parse
      ((λ t, Resume t (ReturnedText "null")) <$> seq 3 1) s1 = Some s2 ∧
    dispatched s2 = dispatched Sample.ready ++
      replicate 1 (mkDecryptEvent "m1" "bob" "general" Sample.JNull) ∧
    emitted s2 = emitted Sample.ready ++ replicate 1 (MessageDecrypted "m1") ∧
    ∀ userId publicKeys note, ∃ s4,
      run Sample.stringify Sample.parse
        (startup_events userId publicKeys note 3) Sample.ready = Some s4 ∧
      length (listeners_for "encrypted-message" s4) = 2%nat.
Proof.
  split; [exact ready_reachable|]. split; [reflexivity|].
  exact (message_delivered_per_listener Sample.stringify Sample.parse
           Sample.ready "bob" "general" "m1" "null" "ciphertext" Sample.JNull
           ready_reachable eq_refl).
Defined.

(** X8 on a bundle pushed for bob, in the state after start-up. *)
Lemma pushed_bundle_outcome_ignored_witness :
  reachable Sample.stringify Sample.parse Sample.ready ∧
  ∃ s1,
    step Sample.stringify Sample.parse
      (Receive "new-pre-key-bundle" (NewPreKeyBundle "bob" "bundle"))
      Sample.ready = Some s1 ∧
    engine_calls s1 = engine_calls Sample.ready ++
      replicate 1 (ProcessPreKeyBundle "bob" "bundle") ∧
    parked 1 Sample.ready s1 ∧
    ∀ i, (i < 1)%nat →
      step Sample.stringify Sample.parse (Resume (3 + i) Returned) s1 =
        Some (set_suspended (delete (3 + i)%nat) s1) ∧
      ∀ error,
        step Sample.stringify Sample.parse (Resume (3 + i) (Threw error)) s1 =
          Some (set_suspended (delete (3 + i)%nat) s1).
Proof.
  split; [exact ready_reachable|].
  exact (pushed_bundle_outcome_ignored Sample.stringify Sample.parse
           Sample.ready "bob" "bundle" ready_reachable).
Defined.

(** X9 on the entry of a call for bob. *)
Lemma registry_entries_pending_witness :
  reachable Sample.stringify Sample.parse Sample.waiting ∧
  pendingMessages Sample.waiting !! "bob-0" =
    Some (mkPending "bob" Sample.JNull 3 3) ∧
  promises Sample.waiting !! 3%nat = Some Pending ∧
  ∀ requestId' pendingMessage',
    pendingMessages Sample.waiting !! requestId' = Some pendingMessage' →
    pm_resolve pendingMessage' = 3%nat →
    requestId' = "bob-0".
Proof.
  assert (pendingMessages Sample.waiting !! "bob-0" =
          Some (mkPending "bob" Sample.JNull 3 3)) as Hpm
    by (vm_compute; reflexivity).
  split; [exact waiting_reachable|]. split; [exact Hpm|].
  exact (proj2 (registry_entries_pending Sample.stringify Sample.parse
                  Sample.waiting "bob-0" (mkPending "bob" Sample.JNull 3 3)
                  waiting_reachable Hpm)).
Defined.

(** X10 on the entry of a call for bob. *)
Lemma registry_entries_timed_witness :
  reachable Sample.stringify Sample.parse Sample.waiting ∧
  pendingMessages Sample.waiting !! "bob-0" =
    Some (mkPending "bob" Sample.JNull 3 3) ∧
  ∃ now id,
    now ≤ clock Sample.waiting ∧
    "bob-0" = make_requestId "bob" now ∧
    timers Sample.waiting !! id = Some (mkTimer (now + 10000) "bob-0") ∧
    ∀ ms, now + 10000 ≤ clock Sample.waiting + ms →
      ∃ s',
        run Sample.stringify Sample.parse [Elapse ms; TimerFires id]
          Sample.waiting = Some s' ∧
        pendingMessages s' !! "bob-0" = None ∧
        promises s' !! 3%nat = Some (Rejected timeout_error).
Proof.
  assert (pendingMessages Sample.waiting !! "bob-0" =
          Some (mkPending "bob" Sample.JNull 3 3)) as Hpm
    by (vm_compute; reflexivity).
  split; [exact waiting_reachable|]. split; [exact Hpm|].
  exact (registry_entries_timed Sample.stringify Sample.parse
           Sample.waiting "bob-0" (mkPending "bob" Sample.JNull 3 3)
           waiting_reachable Hpm).
Defined.





(** X14 on a call for bob and a call for carol in the same millisecond. *)
Lemma distinct_requests_both_resolve_witness :
  reachable Sample.stringify Sample.parse Sample.ready ∧
  signalManager Sample.ready = Some "alice" ∧
  no_session Sample.no_session_error = true ∧
  no_session (mkError "No session for carol") = true ∧
  "bob" ≠ "carol" ∧
  ∃ s4 s7 s10,
    run Sample.stringify Sample.parse
      [CallEncryptMessage "bob" Sample.JTrue;
       Resume 4 (Threw Sample.no_session_error);
       CallEncryptMessage "carol" Sample.JFalse;
       Resume 7 (Threw (mkError "No session for carol"))] Sample.ready =
      Some s4 ∧
    pendingMessages s4 !! "bob-0" = Some (mkPending "bob" Sample.JTrue 3 3) ∧
    pendingMessages s4 !! "carol-0" =
      Some (mkPending "carol" Sample.JFalse 6 6) ∧
    run Sample.stringify Sample.parse
      [Receive "pre-key-bundle-bob-0" (BundleResponse "bundle of bob");
       Resume 9 Returned;
       Resume 10 (ReturnedCipher "sealed for bob")] s4 = Some s7 ∧
    last (engine_calls s7) = Some (EngineEncrypt "bob" "true") ∧
    promises s7 !! 3%nat = Some (Resolved "sealed for bob") ∧
    promises s7 !! 6%nat = Some Pending ∧
    pendingMessages s7 !! "carol-0" =
      Some (mkPending "carol" Sample.JFalse 6 6) ∧
    run Sample.stringify Sample.parse
      [Receive "pre-key-bundle-carol-0" (BundleResponse "bundle of carol");
       Resume 11 Returned;
       Resume 12 (ReturnedCipher "sealed for carol")] s7 = Some s10 ∧
    last (engine_calls s10) = Some (EngineEncrypt "carol" "false") ∧
    promises s10 !! 3%nat = Some (Resolved "sealed for bob") ∧
    promises s10 !! 6%nat = Some (Resolved "sealed for carol") ∧
    pendingMessages s10 !! "bob-0" = None ∧
    pendingMessages s10 !! "carol-0" = None.
Proof.
  assert ("bob" ≠ "carol") as Hne by discriminate.
  split; [exact ready_reachable|]. split; [reflexivity|]. split; [reflexivity|].
  split; [reflexivity|]. split; [exact Hne|].
  exact (distinct_requests_both_resolve Sample.stringify Sample.parse
           Sample.ready "alice" "bob" "carol" Sample.JTrue Sample.JFalse
           Sample.no_session_error (mkError "No session for carol")
           "bundle of bob" "bundle of carol" "sealed for bob" "sealed for carol"
           ready_reachable eq_refl eq_refl eq_refl Hne).
Defined.

(** X15 on the state after one delivered message. *)
Lemma acknowledged_as_dispatched_witness :
  reachable Sample.stringify Sample.parse Sample.received ∧
  acknowledged (emitted Sample.received) =
    de_messageId Sample.Json <$> dispatched Sample.received.
Proof.
  split; [exact received_reachable|].
  exact (acknowledged_as_dispatched Sample.stringify Sample.parse
           Sample.received received_reachable).
Defined.

(** X16 on the sealed bytes of a two-byte file under other metadata,
    with the stand-in cipher. *)
Lemma metadata_not_authenticated_witness :
  (∀ key iv plain,
     Sample.open key iv (Sample.seal key iv plain) = Some plain) ∧
  ∃ package w',
    encryptFile Sample.seal Sample.report "general" Sample.platform =
      (Fulfilled package, w') ∧
    blob_bytes (encryptedFile Sample.relabelled) =
      blob_bytes (encryptedFile package) ∧
    iv Sample.relabelled = iv package ∧
    decryptFile Sample.open Sample.relabelled (key package) w' =
      (Fulfilled (mkBlob [Byte.x68; Byte.x69] "text/html"), w').
Proof.
  split; [exact sample_open_seal|].
  destruct (metadata_not_authenticated Sample.seal Sample.open sample_open_seal
              Sample.report "general" Sample.platform Sample.relabelled)
    as (package & w' & Henc & Hdec).
  exists package, w'. split; [exact Henc|].
  rewrite encryptFile_eq in Henc. injection Henc as <- <-.
  split; [reflexivity|]. split; [reflexivity|].
  apply Hdec; reflexivity.
Defined.

(** X17 on an empty key and on a key of 32 bytes, with the stand-in
    cipher. *)
Lemma decryptFile_key_length_witness :
  decryptFile Sample.open Sample.relabelled [] Sample.platform =
    (Failed DataError, Sample.platform) ∧
  decryptFile Sample.open Sample.relabelled (replicate 32 Byte.x00)
    Sample.platform =
    (Fulfilled (mkBlob [Byte.x68; Byte.x69] "text/html"), Sample.platform).
Proof.
  split.
  - apply (proj1 (decryptFile_key_length Sample.open Sample.relabelled []
                    Sample.platform)); discriminate.
  - apply (proj2 (decryptFile_key_length Sample.open Sample.relabelled
                    (replicate 32 Byte.x00) Sample.platform)).
    right. right. reflexivity.
Defined.

(** X3 on a module that was never started. *)
Lemma encrypt_before_initialization_witness :
  Forall not_a_startup
    ([CallEncryptMessage "bob" Sample.JNull; Elapse 5] : list Sample.Event) ∧
  run Sample.stringify Sample.parse
    [CallEncryptMessage "bob" Sample.JNull; Elapse 5] (initial 0) =
    Some Sample.early ∧
  (∀ p o, promises Sample.early !! p = Some o → o = Rejected not_initialized) ∧
  engine_calls Sample.early = [] ∧
  emitted Sample.early = [] ∧
  dispatched Sample.early = [] ∧
  pendingMessages Sample.early = ∅ ∧
  listeners Sample.early = [] ∧
  timers Sample.early = ∅ ∧
  suspended Sample.early = ∅ ∧
  ∃ s',
    step Sample.stringify Sample.parse
      (CallEncryptMessage "carol" Sample.JTrue) Sample.early = Some s' ∧
    promises s' !! 1%nat = Some (Rejected not_initialized) ∧
    engine_calls s' = [] ∧
    emitted s' = [] ∧
    dispatched s' = [] ∧
    pendingMessages s' = ∅ ∧
    listeners s' = [] ∧
    timers s' = ∅ ∧
    suspended s' = ∅.
Proof.
  assert (Forall not_a_startup
            ([CallEncryptMessage "bob" Sample.JNull; Elapse 5] : list Sample.Event))
    as Hevs by (repeat constructor).
  assert (run Sample.stringify Sample.parse
            [CallEncryptMessage "bob" Sample.JNull; Elapse 5] (initial 0) =
          Some Sample.early) as Hrun by (vm_compute; reflexivity).
  split; [exact Hevs|]. split; [exact Hrun|].
  exact (encrypt_before_initialization Sample.stringify Sample.parse 0
           [CallEncryptMessage "bob" Sample.JNull; Elapse 5] Sample.early
           "carol" Sample.JTrue Hevs Hrun).
Defined.

(** C1 on two calls for bob in the same millisecond, answered by one
    response. *)
Lemma overwritten_request_not_recovered_witness :
  reachable Sample.stringify Sample.parse Sample.ready ∧
  signalManager Sample.ready = Some "alice" ∧
  no_session Sample.no_session_error = true ∧
  ∃ s4 s9,
    run Sample.stringify Sample.parse
      [CallEncryptMessage "bob" Sample.JTrue;
       Resume 4 (Threw Sample.no_session_error);
       CallEncryptMessage "bob" Sample.JFalse;
       Resume 7 (Threw Sample.no_session_error)] Sample.ready = Some s4 ∧
    emitted s4 = emitted Sample.ready ++
      [RequestPreKeyBundle "bob" (Some "bob-0");
       RequestPreKeyBundle "bob" (Some "bob-0")] ∧
    pendingMessages s4 !! "bob-0" = Some (mkPending "bob" Sample.JFalse 6 6) ∧
    run Sample.stringify Sample.parse
      [Receive "pre-key-bundle-bob-0" (BundleResponse "bundle");
       Resume 9 Returned;
       Resume 10 Returned;
       Resume 11 (ReturnedCipher "sealed");
       Resume 12 (ReturnedCipher "sealed again")] s4 = Some s9 ∧
    engine_calls s9 = engine_calls s4 ++
      replicate 2 (ProcessPreKeyBundle "bob" "bundle") ++
      [EngineEncrypt "bob" "false"; EngineEncrypt "bob" "false"] ∧
    emitted s9 = emitted s4 ∧
    promises s9 !! 6%nat = Some (Resolved "sealed") ∧
    pendingMessages s9 !! "bob-0" = None ∧
    promises s9 !! 3%nat = Some Pending ∧
    ∀ evs s',
      run Sample.stringify Sample.parse evs s9 = Some s' →
      promises s' !! 3%nat = Some Pending.
Proof.
  split; [exact ready_reachable|]. split; [reflexivity|]. split; [reflexivity|].
  exact (overwritten_request_not_recovered Sample.stringify Sample.parse
           Sample.ready "alice" "bob" Sample.JTrue Sample.JFalse
           Sample.no_session_error Sample.no_session_error "bundle"
           "sealed" "sealed again" ready_reachable eq_refl eq_refl eq_refl).
Defined.

(** C3 on two calls for bob in the same millisecond, with no response. *)
Lemma overwritten_request_never_rejected_witness :
  reachable Sample.stringify Sample.parse Sample.ready ∧
  signalManager Sample.ready = Some "alice" ∧
  no_session Sample.no_session_error = true ∧
  10000 ≤ 10000 ∧
  ∃ s4 s7,
    run Sample.stringify Sample.parse
      [CallEncryptMessage "bob" Sample.JTrue;
       Resume 4 (Threw Sample.no_session_error);
       CallEncryptMessage "bob" Sample.JFalse;
       Resume 7 (Threw Sample.no_session_error)] Sample.ready = Some s4 ∧
    timers s4 !! 5%nat = Some (mkTimer 10000 "bob-0") ∧
    timers s4 !! 8%nat = Some (mkTimer 10000 "bob-0") ∧
    promises s4 !! 3%nat = Some Pending ∧
    promises s4 !! 6%nat = Some Pending ∧
    run Sample.stringify Sample.parse
      [Elapse 10000; TimerFires 5; TimerFires 8] s4 = Some s7 ∧
    promises s7 !! 3%nat = Some Pending ∧
    promises s7 !! 6%nat = Some (Rejected timeout_error) ∧
    pendingMessages s7 !! "bob-0" = None ∧
    timers s7 !! 5%nat = None ∧
    timers s7 !! 8%nat = None ∧
    ∀ evs s',
      run Sample.stringify Sample.parse evs s7 = Some s' →
      promises s' !! 3%nat = Some Pending.
Proof.
  split; [exact ready_reachable|]. split; [reflexivity|]. split; [reflexivity|].
  split; [done|].
  exact (overwritten_request_never_rejected Sample.stringify Sample.parse
           Sample.ready "alice" "bob" Sample.JTrue Sample.JFalse
           Sample.no_session_error Sample.no_session_error 10000
           ready_reachable eq_refl eq_refl eq_refl (N.le_refl 10000)).
Defined.

(** After a second acknowledged start-up one envelope is acknowledged
    and dispatched twice. *)
Example two_startups_two_acknowledgements :
  ∃ s',
    run Sample.stringify Sample.parse
      (Sample.startup ++
       [CallInitializeEncryption "alice";
        Resume 3 Returned;
        Resume 4 (ReturnedKeys "alice-public-keys");
        Resume 5 (Acknowledged true "");
        Receive "encrypted-message" Sample.envelope;
        Resume 6 (ReturnedText "null");
        Resume 7 (ReturnedText "null")]) (initial 0) = Some s' ∧
    emitted s' =
      [RegisterPublicKeys "alice-public-keys";
       RegisterPublicKeys "alice-public-keys";
       MessageDecrypted "m1"; MessageDecrypted "m1"] ∧
    dispatched s' =
      [mkDecryptEvent "m1" "bob" "general" Sample.JNull;
       mkDecryptEvent "m1" "bob" "general" Sample.JNull].
Proof. eexists. split; [vm_compute; reflexivity|]. by split. Qed.


Lemma later_reachable : reachable Sample.stringify Sample.parse Sample.later.
Proof. exists 0, (Sample.startup ++ [Elapse 5]). vm_compute. reflexivity. Qed.

(** C7, amended, on a call for bob five milliseconds after start-up, and
    on frames named after a request of carol two milliseconds before. *)
Lemma late_response_effect_witness :
  reachable Sample.stringify Sample.parse Sample.later ∧
  listeners_for "pre-key-bundle-carol-3" Sample.later = [] ∧
  3 < clock Sample.later ∧
  signalManager Sample.later = Some "alice" ∧
  no_session Sample.no_session_error = true ∧
  10000 ≤ 10000 ∧
  (∃ s1,
     step Sample.stringify Sample.parse
       (Receive "pre-key-bundle-carol-3" (BundleResponse "bundle"))
       Sample.later = Some s1 ∧
     listeners_for "pre-key-bundle-carol-3" s1 = [] ∧
     ∀ d, step Sample.stringify Sample.parse
            (Receive "pre-key-bundle-carol-3" d) s1 = Some s1) ∧
  (∀ evs s2 d,
     run Sample.stringify Sample.parse evs Sample.later = Some s2 →
     step Sample.stringify Sample.parse
       (Receive "pre-key-bundle-carol-3" d) s2 = Some s2) ∧
  ∃ s4 s6,
    run Sample.stringify Sample.parse
      [CallEncryptMessage "bob" Sample.JNull;
       Resume 4 (Threw Sample.no_session_error);
       Elapse 10000;
       TimerFires 5] Sample.later = Some s4 ∧
    promises s4 !! 3%nat = Some (Rejected timeout_error) ∧
    mkListener "pre-key-bundle-bob-5" true (OnPreKeyBundle "bob" "bob-5")
      ∈ listeners s4 ∧
    step Sample.stringify Sample.parse
      (Receive "pre-key-bundle-bob-5" (BundleResponse "late")) s4 = Some s6 ∧
    ProcessPreKeyBundle "bob" "late" ∈ engine_calls s6 ∧
    promises s6 !! 3%nat = Some (Rejected timeout_error) ∧
    (∀ d, step Sample.stringify Sample.parse
            (Receive "pre-key-bundle-bob-5" d) s6 = Some s6) ∧
    ∀ evs' s7 d,
      run Sample.stringify Sample.parse evs' s6 = Some s7 →
      step Sample.stringify Sample.parse
        (Receive "pre-key-bundle-bob-5" d) s7 = Some s7 ∧
      promises s7 !! 3%nat = Some (Rejected timeout_error).
Proof.
  assert (listeners_for "pre-key-bundle-carol-3" Sample.later = []) as Hnone
    by reflexivity.
  assert (3 < clock Sample.later) as Hnow by reflexivity.
  split; [exact later_reachable|]. split; [exact Hnone|]. split; [exact Hnow|].
  split; [reflexivity|]. split; [reflexivity|]. split; [done|].
  destruct (late_response_effect Sample.stringify Sample.parse Sample.later
              "alice" "bob" Sample.JNull Sample.no_session_error 10000 "late"
              "carol" 3 "bundle" later_reachable)
    as (Hfirst & Hgood & Hlate).
  split; [exact Hfirst|]. split; [exact (Hgood Hnone Hnow)|].
  destruct (Hlate eq_refl eq_refl (N.le_refl 10000))
    as (s4 & Hrun & Hp & Hl & Hafter).
  destruct (Hafter [] s4 eq_refl) as (_ & _ & Hdelivered).
  destruct (Hdelivered Hl) as (s6 & Hrecv & Hcalled & Hp6 & Hnow6 & Hgood6).
  exists s4, s6.
  split; [exact Hrun|]. split; [exact Hp|]. split; [exact Hl|].
  split; [exact Hrecv|]. split; [exact Hcalled|]. split; [exact Hp6|].
  split; [exact Hnow6|]. exact Hgood6.
Defined.
